(** * jr update-manifest: reconciliation, form codec, edit/retry loop, session

    A shallow embedding of [lib/cli/do_update_manifest.js] and the proofs of
    the properties its specification states about it.

    JavaScript strings are modelled as Rocq strings whose characters are the
    UTF-16 code units below 256.  JavaScript plain objects used as
    dictionaries keep their [Object.prototype] inheritance and the special
    [__proto__] key.  Numbers are binary64 values: the mathematical value
    of a literal is rounded to the nearest one, ties to even, and kept as a
    fraction.  The manifest file holds the JSON text the program writes,
    kept as the document that text denotes. *)

From Stdlib Require Import ZArith QArith Ascii String DecimalString DecimalNat
  List Permutation Lia.
From stdpp Require Import base option gmap strings list sorting.

Local Open Scope string_scope.
Local Open Scope list_scope.

(* ===================================================================== *)
(** ** JavaScript strings *)
(* ===================================================================== *)

Module JsString.

(** The line feed, U+000A. *)
Definition LF : ascii := ascii_of_nat 10.
Definition nl : string := String LF "".

(** The double quote, U+0022. *)
Definition dquote : string := String (ascii_of_nat 34) "".

(** WhiteSpace and LineTerminator code units below 256: TAB, LF, VT, FF,
    CR, SP and NBSP.  This is the class of [String.prototype.trim] and of
    the regular expression [\s]. *)
Definition isWhiteSpace (c : ascii) : bool :=
  existsb (N.eqb (N_of_ascii c)) [9; 10; 11; 12; 13; 32; 160]%N.

Definition isEmpty (s : string) : bool :=
  match s with EmptyString => true | String _ _ => false end.

(** [s.trim()], as trimming the start and then the end. *)
Fixpoint trimStart (s : string) : string :=
  match s with
  | EmptyString => EmptyString
  | String c s' => if isWhiteSpace c then trimStart s' else s
  end.

Fixpoint trimEnd (s : string) : string :=
  match s with
  | EmptyString => EmptyString
  | String c s' =>
      let r := trimEnd s' in
      if isWhiteSpace c && isEmpty r then EmptyString else String c r
  end.

Definition trim (s : string) : string := trimEnd (trimStart s).

(** [s.split(/\n/g)]: the pieces between line feeds; never empty. *)
Fixpoint splitLines (s : string) : list string :=
  match s with
  | EmptyString => [EmptyString]
  | String c s' =>
      if Ascii.eqb c LF then EmptyString :: splitLines s'
      else match splitLines s' with
           | l :: ls => String c l :: ls
           | [] => [String c EmptyString]
           end
  end.

(** [s.split(/\s+/g)]: the pieces between maximal runs of white space.
    [inRun] tells that the previous character was white space. *)
Fixpoint splitSpacesFrom (inRun : bool) (s : string) : list string :=
  match s with
  | EmptyString => [EmptyString]
  | String c s' =>
      if isWhiteSpace c then
        if inRun then splitSpacesFrom true s'
        else EmptyString :: splitSpacesFrom true s'
      else match splitSpacesFrom false s' with
           | t :: ts => String c t :: ts
           | [] => [String c EmptyString]
           end
  end.

Definition splitSpaces (s : string) : list string := splitSpacesFrom false s.

(** [arr.join(sep)]. *)
Fixpoint join (sep : string) (l : list string) : string :=
  match l with
  | [] => EmptyString
  | [x] => x
  | x :: xs => x ++ sep ++ join sep xs
  end.

(** [s.slice(0, n)] and [s.slice(n)] for [0 <= n]. *)
Fixpoint sliceTo (n : nat) (s : string) : string :=
  match n, s with
  | S n', String c s' => String c (sliceTo n' s')
  | _, _ => EmptyString
  end.

Fixpoint sliceFrom (n : nat) (s : string) : string :=
  match n, s with
  | S n', String _ s' => sliceFrom n' s'
  | _, _ => s
  end.

(** [s.indexOf(c)] for a one-character needle: [-1] when absent. *)
Fixpoint indexOfFrom (c : ascii) (i : Z) (s : string) : Z :=
  match s with
  | EmptyString => (-1)%Z
  | String d s' => if Ascii.eqb d c then i else indexOfFrom c (i + 1)%Z s'
  end.

Definition indexOf (c : ascii) (s : string) : Z := indexOfFrom c 0%Z s.

(** [s[0] === c]. *)
Definition firstIs (c : ascii) (s : string) : bool :=
  match s with
  | String d _ => Ascii.eqb d c
  | EmptyString => false
  end.

(** Predicates used in the statements. *)
Fixpoint noneOf (p : ascii -> bool) (s : string) : bool :=
  match s with
  | EmptyString => true
  | String c s' => negb (p c) && noneOf p s'
  end.

Definition noWhiteSpace (s : string) : bool := noneOf isWhiteSpace s.
Definition noLineFeed (s : string) : bool := noneOf (fun c => Ascii.eqb c LF) s.
Definition noEquals (s : string) : bool := noneOf (fun c => Ascii.eqb c "=") s.

End JsString.

(* ===================================================================== *)
(** ** JavaScript numbers: [Number(string)] *)
(* ===================================================================== *)

Module JsNumber.
Import JsString.

(** A Number value: [NaN], an infinity, or a finite binary64 value kept as
    a reduced fraction.  The sign of a zero is not kept: the program only
    concatenates numbers into strings and writes them as JSON, and both
    [String(-0)] and [JSON.stringify(-0)] give [0]. *)
Inductive jsnumber : Type :=
| NaN
| Infinity (negative : bool)
| Finite (q : Q).

Definition isNaN (n : jsnumber) : bool :=
  match n with NaN => true | _ => false end.

Definition digitOf (base : N) (c : ascii) : option N :=
  let n := N_of_ascii c in
  let d :=
    if (48 <=? n)%N && (n <=? 57)%N then Some (n - 48)%N
    else if (97 <=? n)%N && (n <=? 102)%N then Some (n - 87)%N
    else if (65 <=? n)%N && (n <=? 70)%N then Some (n - 55)%N
    else None in
  match d with
  | Some v => if (v <? base)%N then Some v else None
  | None => None
  end.

Definition isDecimalDigit (c : ascii) : bool :=
  match digitOf 10 c with Some _ => true | None => false end.

(** The longest prefix of decimal digits, and what follows it. *)
Fixpoint spanDigits (s : string) : string * string :=
  match s with
  | EmptyString => (EmptyString, EmptyString)
  | String c s' =>
      if isDecimalDigit c
      then let '(ds, rest) := spanDigits s' in (String c ds, rest)
      else (EmptyString, s)
  end.

(** The value of a digit string in a base; [None] on a foreign character. *)
Fixpoint digitsValue (base : N) (acc : N) (s : string) : option N :=
  match s with
  | EmptyString => Some acc
  | String c s' =>
      match digitOf base c with
      | Some d => digitsValue base (acc * base + d)%N s'
      | None => None
      end
  end.

(** [m * 10^e] as a reduced fraction. *)
Definition scale10 (m : Z) (e : Z) : Q :=
  if (0 <=? e)%Z then Qmake (m * 10 ^ e)%Z 1
  else Qred (Qmake m (Z.to_pos (10 ^ (- e))%Z)).

(** [m * 2^e] as a reduced fraction. *)
Definition scale2 (m : Z) (e : Z) : Q :=
  if (0 <=? e)%Z then Qmake (m * 2 ^ e)%Z 1
  else Qred (Qmake m (Z.to_pos (2 ^ (- e))%Z)).

(** The integer [e] with [2^e <= n/d < 2^(e+1)], for positive [n] and [d]. *)
Definition floorLog2 (n d : Z) : Z :=
  let e := (Z.log2 n - Z.log2 d)%Z in
  if (0 <=? e)%Z
  then (if (n <? d * 2 ^ e)%Z then e - 1 else e)%Z
  else (if (n * 2 ^ (- e) <? d)%Z then e - 1 else e)%Z.

(** RoundMVResult: the Number value for a mathematical value.  The value is
    rounded to 53 significant bits, or to a multiple of [2^-1074] where it
    is subnormal, to the nearest such value and to the even one on a tie; a
    result of [2^1024] or more is an infinity. *)
Definition round64 (q : Q) : jsnumber :=
  let negative := (Qnum q <? 0)%Z in
  let n := Z.abs (Qnum q) in
  let d := Zpos (Qden q) in
  if (n =? 0)%Z then Finite (Qmake 0 1)
  else
    let ex := Z.max (floorLog2 n d - 52) (-1074) in
    let '(num, den) :=
      if (0 <=? ex)%Z then (n, d * 2 ^ ex)%Z else (n * 2 ^ (- ex), d)%Z in
    let k := (num / den)%Z in
    let r := (num mod den)%Z in
    let k' :=
      if (2 * r <? den)%Z then k
      else if (den <? 2 * r)%Z then (k + 1)%Z
      else if Z.even k then k else (k + 1)%Z in
    if (0 <=? ex)%Z && (2 ^ 1024 <=? k' * 2 ^ ex)%Z then Infinity negative
    else Finite (scale2 (if negative then - k' else k')%Z ex).

(** ExponentPart_opt, which must reach the end of the string. *)
Definition exponentPart (s : string) : option Z :=
  match s with
  | EmptyString => Some 0%Z
  | String c r =>
      if Ascii.eqb c "e" || Ascii.eqb c "E" then
        let '(neg, r') :=
          match r with
          | String "+" r' => (false, r')
          | String "-" r' => (true, r')
          | _ => (false, r)
          end in
        if isEmpty r' then None
        else match digitsValue 10 0 r' with
             | Some v => Some (if neg then (- Z.of_N v)%Z else Z.of_N v)
             | None => None
             end
      else None
  end.

(** StrUnsignedDecimalLiteral. *)
Definition strUnsignedDecimalLiteral (neg : bool) (s : string) : jsnumber :=
  if String.eqb s "Infinity" then Infinity neg
  else
    let '(ip, r1) := spanDigits s in
    let '(fp, r2) :=
      match r1 with
      | String "." r => spanDigits r
      | _ => (EmptyString, r1)
      end in
    if isEmpty ip && isEmpty fp then NaN
    else
      match digitsValue 10 0 (ip ++ fp), exponentPart r2 with
      | Some m, Some e =>
          let v := Z.of_N m in
          round64 (scale10 (if neg then (- v)%Z else v)
                     (e - Z.of_nat (String.length fp))%Z)
      | _, _ => NaN
      end.

(** NonDecimalIntegerLiteral: [0x], [0o], [0b] and their capitals. *)
Definition nonDecimalIntegerLiteral (s : string) : option N :=
  match s with
  | String "0" (String p ds) =>
      let base :=
        if Ascii.eqb p "x" || Ascii.eqb p "X" then Some 16%N
        else if Ascii.eqb p "o" || Ascii.eqb p "O" then Some 8%N
        else if Ascii.eqb p "b" || Ascii.eqb p "B" then Some 2%N
        else None in
      match base with
      | Some b => if isEmpty ds then None else digitsValue b 0 ds
      | None => None
      end
  | _ => None
  end.

(** [Number(s)] on a string: StringToNumber. *)
Definition Number (s : string) : jsnumber :=
  let t := trim s in
  if isEmpty t then Finite (Qmake 0 1)
  else
    match nonDecimalIntegerLiteral t with
    | Some v => round64 (Qmake (Z.of_N v) 1)
    | None =>
        match t with
        | String "+" r => strUnsignedDecimalLiteral false r
        | String "-" r => strUnsignedDecimalLiteral true r
        | _ => strUnsignedDecimalLiteral false t
        end
    end.

(** The Number value of an integer that binary64 holds exactly (every
    integer up to [2^53] in magnitude is one). *)
Definition ofZ (z : Z) : jsnumber := Finite (Qmake z 1).

End JsNumber.

Import JsString JsNumber.

(* ===================================================================== *)
(** ** Data model *)
(* ===================================================================== *)

(** A label value: a boolean, a number or a string, or the [null] that a
    JSON text can hold. *)
Inductive labelval : Type :=
| LBool (b : bool)
| LNum (n : jsnumber)
| LStr (s : string)
| LNull.

(** A repo object.  The record keeps the properties the program reads:
    [name], the optional [labels] object, and [archived] (absent on manifest
    entries and on parsed entries, where it reads as falsy). *)
Record repo : Type := mkRepo {
  name : string;
  labels : option (gmap string labelval);
  archived : bool
}.

(** The object literal [{name: n}]. *)
Definition repoNamed (n : string) : repo :=
  {| name := n; labels := None; archived := false |}.

Record labelSpec : Type := mkLabelSpec {
  lblName : string;
  lblType : string;
  lblDescription : string
}.

Record candidateSearch : Type := mkCandidateSearch {
  searchType : option string;
  includeArchived : bool;
  searchDescription : string
}.

(** The manifest document.  [defaultLabels] is [defaults.labels] with its
    keys in [Object.keys] order, [None] when [defaults] or its [labels] is
    missing; [blessedLabels] is empty when the field is missing;
    [otherFields] holds any other top-level field (such as [jrVersion]) as
    its key and JSON text: the program never reads them. *)
Record manifest : Type := mkManifest {
  description : string;
  repositories : list repo;
  excludedRepositories : list string;
  repoCandidateSearch : candidateSearch;
  blessedLabels : list labelSpec;
  defaultLabels : option (list (string * labelval));
  otherFields : list (string * string)
}.

Definition names (l : list repo) : list string := map name l.

(** [JSON.stringify] on a label value: a number that is not finite is
    written as [null]; every other value is written as it is. *)
Definition jsonLabel (v : labelval) : labelval :=
  match v with
  | LNum (Finite _) => v
  | LNum _ => LNull
  | _ => v
  end.

Definition jsonRepo (r : repo) : repo :=
  {| name := name r;
     labels := match labels r with
               | Some lbls => Some (jsonLabel <$> lbls)
               | None => None
               end;
     archived := archived r |}.

(** The document that the text [JSON.stringify(manifest, null, 4)] denotes,
    that is, the manifest as [JSON.parse] reads it back from the text. *)
Definition jsonDocument (m : manifest) : manifest :=
  {| description := description m;
     repositories := map jsonRepo (repositories m);
     excludedRepositories := excludedRepositories m;
     repoCandidateSearch := repoCandidateSearch m;
     blessedLabels := blessedLabels m;
     defaultLabels :=
       match defaultLabels m with
       | Some dl => Some (map (fun kv => (fst kv, jsonLabel (snd kv))) dl)
       | None => None
       end;
     otherFields := otherFields m |}.

(** What the manifest file holds: a JSON text, kept as the document it
    denotes, or, after a write that failed, a content the program does not
    determine ([fs.writeFile] opens the file with the flag [w], which
    truncates it, before it writes). *)
Inductive fileContent : Type :=
| JsonText (doc : manifest)
| Undetermined.

(** [JSON.stringify(manifest, null, 4) + '\n']. *)
Definition stringify (m : manifest) : fileContent := JsonText (jsonDocument m).

(* ===================================================================== *)
(** ** JavaScript plain objects used as dictionaries *)
(* ===================================================================== *)

Module JsObject.

(** The property names every plain object inherits from
    [Object.prototype]; each reads as a truthy value. *)
Definition objectPrototypeKeys : list string :=
  [ "constructor"; "__defineGetter__"; "__defineSetter__"; "hasOwnProperty";
    "__lookupGetter__"; "__lookupSetter__"; "isPrototypeOf";
    "propertyIsEnumerable"; "toString"; "valueOf"; "__proto__";
    "toLocaleString" ].

Definition inherited (k : string) : bool :=
  existsb (String.eqb k) objectPrototypeKeys.

(** The values the reconciliation dictionaries hold. *)
Inductive jsvalue : Type :=
| VTrue
| VObj (r : repo).

(** An object created by [{}]: its own properties, and the object its
    prototype was replaced by, if an assignment to [__proto__] did so. *)
Record dict : Type := mkDict {
  own : gmap string jsvalue;
  proto : option repo
}.

Definition emptyDict : dict := {| own := ∅; proto := None |}.

(** [o[k] = v].  The [__proto__] setter replaces the prototype when [v] is
    an object and ignores a primitive. *)
Definition dictSet (o : dict) (k : string) (v : jsvalue) : dict :=
  if String.eqb k "__proto__" then
    match v with
    | VObj r => {| own := own o; proto := Some r |}
    | VTrue => o
    end
  else {| own := <[k := v]> (own o); proto := proto o |}.

(** ToBoolean of [r[k]] for a repo object [r]. *)
Definition repoHas (r : repo) (k : string) : bool :=
  if String.eqb k "name" then negb (isEmpty (name r))
  else if String.eqb k "labels" then
    match labels r with Some _ => true | None => false end
  else if String.eqb k "archived" then archived r
  else inherited k.

(** ToBoolean of [o[k]]: own property, then the prototype chain. *)
Definition dictHas (o : dict) (k : string) : bool :=
  if String.eqb k "__proto__" then true
  else
    match own o !! k with
    | Some _ => true
    | None =>
        match proto o with
        | Some r => repoHas r k
        | None => inherited k
        end
    end.

(** [labels[k] = v] on the label object of a parsed line: label values
    are primitives, so the [__proto__] setter ignores them. *)
Definition labelsSet (o : gmap string labelval) (k : string) (v : labelval)
  : gmap string labelval :=
  if String.eqb k "__proto__" then o else <[k := v]> o.

End JsObject.

Import JsObject.

(* ===================================================================== *)
(** ** FormCodec: [createReposForm] and [parseReposForm] *)
(* ===================================================================== *)

Definition JOYENT_REPO_BASE_URL : string := "https://github.com/TritonDataCenter/".

(** [createReposForm(frontMatter, repos)]. *)
Definition createReposForm (frontMatter : option (list string))
    (repos : list repo) : string :=
  let form := match frontMatter with Some fm => fm | None => [] end in
  let form := form ++ map (fun r => ("# " ++ JOYENT_REPO_BASE_URL ++ name r)%string) repos in
  (join nl form ++ nl)%string.

(** The body of the label loop up to the assignment: the key and the
    coerced value of one token. *)
Definition coerceLabelToken (token : string) : string * labelval :=
  let idx := indexOf "=" token in
  if (idx =? -1)%Z then (token, LBool true)
  else
    let key := sliceTo (Z.to_nat idx) token in
    let val := sliceFrom (Z.to_nat (idx + 1)) token in
    if String.eqb val "true" then (key, LBool true)
    else if String.eqb val "false" then (key, LBool false)
    else if negb (isNaN (Number val)) then (key, LNum (Number val))
    else (key, LStr val).

Definition parseLabelTokens (tokens : list string) : gmap string labelval :=
  fold_left (fun lbls token =>
               let '(key, val) := coerceLabelToken token in
               labelsSet lbls key val) tokens ∅.

(** The repo of a line that starts with the base URL. *)
Definition parseRepoLine (parseLabels : bool) (line : string) : repo :=
  let tokens := splitSpaces (sliceFrom (String.length JOYENT_REPO_BASE_URL) line) in
  let nm := match tokens with t :: _ => t | [] => EmptyString end in
  let tokens := tail tokens in
  if parseLabels && (0 <? length tokens)%nat
  then {| name := nm; labels := Some (parseLabelTokens tokens); archived := false |}
  else repoNamed nm.

(** The error [parseReposForm] throws: [VError.info(err).line] and the
    trimmed text of the line, which the message quotes. *)
Record formatError : Type := mkFormatError {
  errLine : nat;
  errText : string
}.

Inductive parseResult : Type :=
| Parsed (repos : list repo)
| Thrown (e : formatError).

(** The [for] loop of [parseReposForm] from index [i] on, with the repos
    pushed so far. *)
Fixpoint parseLoop (parseLabels : bool) (lines : list string) (i : nat)
    (repos : list repo) : parseResult :=
  match lines with
  | [] => Parsed repos
  | l :: rest =>
      let line := trim l in
      if isEmpty line then parseLoop parseLabels rest (S i) repos
      else if firstIs "#" line then parseLoop parseLabels rest (S i) repos
      else if String.eqb (sliceTo (String.length JOYENT_REPO_BASE_URL) line)
                JOYENT_REPO_BASE_URL
      then parseLoop parseLabels rest (S i)
             (repos ++ [parseRepoLine parseLabels line])
      else Thrown {| errLine := i + 1; errText := line |}
  end.

Definition parseReposForm (text : string) (parseLabels : bool) : parseResult :=
  parseLoop parseLabels (splitLines text) 0 [].

(** The message of the thrown error. *)
Definition showNat (n : nat) : string :=
  NilEmpty.string_of_uint (Nat.to_uint n).

Definition errorMessage (e : formatError) : string :=
  ("line " ++ showNat (errLine e) ++ " is not a github/joyent repo URL: "
     ++ dquote ++ errText e ++ dquote)%string.

(** The edit a user makes to select a repo line: the leading comment marker
    and the space after it are removed.  [uncommentFrom k text] does so on
    every line of [text] from index [k] on. *)
Definition uncommentLine (l : string) : string :=
  match l with
  | String "#" (String " " r) => r
  | _ => l
  end.

Fixpoint uncommentLinesFrom (k : nat) (lines : list string) : list string :=
  match k, lines with
  | _, [] => []
  | S k', l :: rest => l :: uncommentLinesFrom k' rest
  | O, l :: rest => uncommentLine l :: uncommentLinesFrom O rest
  end.

Definition uncommentFrom (k : nat) (text : string) : string :=
  join nl (uncommentLinesFrom k (splitLines text)).


(* ===================================================================== *)
(** ** The collaborators and the session state *)
(* ===================================================================== *)

(** Modelled from the spec: [common.promptYesNo] is not among the sources;
    it is the prompt collaborator's "yes/no-with-default".  What it hands
    to its callback is a string, or [false] on cancellation. *)
Inductive answer : Type :=
| AnsText (s : string)
| AnsFalse.

(** [answer === s]. *)
Definition answerIs (s : string) (a : answer) : bool :=
  match a with
  | AnsText t => String.eqb t s
  | AnsFalse => false
  end.

(** Modelled from the spec: [common.editInEditor] is not among the sources;
    it is the editor collaborator, whose output is the edited text or a
    cancellation, handed to the callback as an error. *)
Inductive editorResult : Type :=
| EditorText (editedText : string)
| EditorFailed (msg : string).

(** What the candidate source answers: [octokit.paginate] resolves with the
    repos, or rejects with an error that carries a status. *)
Inductive fetchResult : Type :=
| Fetched (repos : list repo)
| FetchFailed (status : Z).

(** The error values that reach a callback. *)
Inductive jserror : Type :=
| AssertionError (msg : string)
| GitHubApiError (code : Z)
| WriteError
| EditorError (msg : string)
| AbortTrue
| FormatErr (e : formatError).

(** The outcome of a step: the callback was called without an error, with
    one, or is still awaited because a collaborator has not answered. *)
Inductive status : Type :=
| Ok
| Err (e : jserror)
| Pending.

(** The outside world: the answers the collaborators will give, in order,
    and the effects observed so far (editor invocations with their text and
    starting line, and the contents the manifest file has held, the last
    one being what it holds now). *)
Record world : Type := mkWorld {
  github : fetchResult;
  yesNoAnswers : list answer;
  enterAnswers : list bool;
  editorResults : list editorResult;
  writeResults : list bool;
  editorCalls : list (string * option nat);
  manifestFile : list fileContent
}.

(** The pipeline's shared [ctx] object. *)
Record context : Type := mkContext {
  ctxManifest : manifest;
  candidateRepos : list repo;
  goneRepos : list repo;
  goneExcRepos : list repo;
  newRepos : list repo;
  addNewRepos : bool;
  remainingRepos : list repo;
  ctxAddNewExcludedRepos : bool
}.

Definition initialContext (m : manifest) : context :=
  {| ctxManifest := m; candidateRepos := []; goneRepos := [];
     goneExcRepos := []; newRepos := []; addNewRepos := false;
     remainingRepos := []; ctxAddNewExcludedRepos := false |}.

Definition withRepositories (m : manifest) (rs : list repo) : manifest :=
  {| description := description m; repositories := rs;
     excludedRepositories := excludedRepositories m;
     repoCandidateSearch := repoCandidateSearch m;
     blessedLabels := blessedLabels m; defaultLabels := defaultLabels m;
     otherFields := otherFields m |}.

Definition withExcluded (m : manifest) (ex : list string) : manifest :=
  {| description := description m; repositories := repositories m;
     excludedRepositories := ex;
     repoCandidateSearch := repoCandidateSearch m;
     blessedLabels := blessedLabels m; defaultLabels := defaultLabels m;
     otherFields := otherFields m |}.

Definition withManifest (c : context) (m : manifest) : context :=
  {| ctxManifest := m; candidateRepos := candidateRepos c;
     goneRepos := goneRepos c; goneExcRepos := goneExcRepos c;
     newRepos := newRepos c; addNewRepos := addNewRepos c;
     remainingRepos := remainingRepos c;
     ctxAddNewExcludedRepos := ctxAddNewExcludedRepos c |}.

Definition withCandidates (c : context) (rs : list repo) : context :=
  {| ctxManifest := ctxManifest c; candidateRepos := rs;
     goneRepos := goneRepos c; goneExcRepos := goneExcRepos c;
     newRepos := newRepos c; addNewRepos := addNewRepos c;
     remainingRepos := remainingRepos c;
     ctxAddNewExcludedRepos := ctxAddNewExcludedRepos c |}.

Definition withCategories (c : context) (gone goneExc new : list repo) : context :=
  {| ctxManifest := ctxManifest c; candidateRepos := candidateRepos c;
     goneRepos := gone; goneExcRepos := goneExc; newRepos := new;
     addNewRepos := addNewRepos c; remainingRepos := remainingRepos c;
     ctxAddNewExcludedRepos := ctxAddNewExcludedRepos c |}.

Definition withAddNewRepos (c : context) (b : bool) : context :=
  {| ctxManifest := ctxManifest c; candidateRepos := candidateRepos c;
     goneRepos := goneRepos c; goneExcRepos := goneExcRepos c;
     newRepos := newRepos c; addNewRepos := b;
     remainingRepos := remainingRepos c;
     ctxAddNewExcludedRepos := ctxAddNewExcludedRepos c |}.

Definition withRemaining (c : context) (rs : list repo) : context :=
  {| ctxManifest := ctxManifest c; candidateRepos := candidateRepos c;
     goneRepos := goneRepos c; goneExcRepos := goneExcRepos c;
     newRepos := newRepos c; addNewRepos := addNewRepos c;
     remainingRepos := rs;
     ctxAddNewExcludedRepos := ctxAddNewExcludedRepos c |}.

Definition withAddNewExcluded (c : context) (b : bool) : context :=
  {| ctxManifest := ctxManifest c; candidateRepos := candidateRepos c;
     goneRepos := goneRepos c; goneExcRepos := goneExcRepos c;
     newRepos := newRepos c; addNewRepos := addNewRepos c;
     remainingRepos := remainingRepos c;
     ctxAddNewExcludedRepos := b |}.

Definition withYesNo (w : world) (a : list answer) : world :=
  {| github := github w; yesNoAnswers := a; enterAnswers := enterAnswers w;
     editorResults := editorResults w; writeResults := writeResults w;
     editorCalls := editorCalls w; manifestFile := manifestFile w |}.

Definition withEnter (w : world) (a : list bool) : world :=
  {| github := github w; yesNoAnswers := yesNoAnswers w; enterAnswers := a;
     editorResults := editorResults w; writeResults := writeResults w;
     editorCalls := editorCalls w; manifestFile := manifestFile w |}.

Definition withEditor (w : world) (rs : list editorResult) (a : list bool)
    (calls : list (string * option nat)) : world :=
  {| github := github w; yesNoAnswers := yesNoAnswers w; enterAnswers := a;
     editorResults := rs; writeResults := writeResults w;
     editorCalls := calls; manifestFile := manifestFile w |}.

Definition withWrite (w : world) (ws : list bool) (file : list fileContent)
  : world :=
  {| github := github w; yesNoAnswers := yesNoAnswers w;
     enterAnswers := enterAnswers w; editorResults := editorResults w;
     writeResults := ws; editorCalls := editorCalls w; manifestFile := file |}.

(** [saveManifest(manifestPath, manifest, cb)].  When [fs.writeFile] fails
    its error is handed to the callback; what the file holds from then on
    is not determined. *)
Definition saveManifest (m : manifest) (w : world) : status * world :=
  match writeResults w with
  | [] => (Pending, w)
  | true :: ws => (Ok, withWrite w ws (manifestFile w ++ [stringify m]))
  | false :: ws =>
      (Err WriteError, withWrite w ws (manifestFile w ++ [Undetermined]))
  end.

(** Modelled from the spec: [common.promptEnter] is not among the sources;
    it is the prompt collaborator's "enter-to-continue/cancel".  The answer
    [true] is Enter, [false] is Ctrl+C (an error is handed to the
    callback); [None] when no answer comes. *)
Definition promptEnter (w : world) : option (bool * world) :=
  match enterAnswers w with
  | [] => None
  | a :: rest => Some (a, withEnter w rest)
  end.

(** Modelled from the spec: the next answer of [common.promptYesNo]. *)
Definition promptYesNo (w : world) : option (answer * world) :=
  match yesNoAnswers w with
  | [] => None
  | a :: rest => Some (a, withYesNo w rest)
  end.

(* ===================================================================== *)
(** ** EditRetryLoop: [editReposInEditor] *)
(* ===================================================================== *)

Inductive editOutcome : Type :=
| Edited (repos : list repo)
| EditErr (e : jserror)
| EditPending.

(** [editAttempt], by recursion on the editor's answers.  [text] and
    [editLine] are the closure variables of the same names. *)
Fixpoint editAttempt (parseLabels : bool) (editor : list editorResult)
    (enters : list bool) (text : string) (editLine : option nat)
    (calls : list (string * option nat))
  : editOutcome * (list editorResult * list bool * list (string * option nat)) :=
  let calls := calls ++ [(text, editLine)] in
  match editor with
  | [] => (EditPending, ([], enters, calls))
  | EditorFailed msg :: editor' =>
      (EditErr (EditorError msg), (editor', enters, calls))
  | EditorText editedText :: editor' =>
      match parseReposForm editedText parseLabels with
      | Parsed repos => (Edited repos, (editor', enters, calls))
      | Thrown parseErr =>
          match enters with
          | [] => (EditPending, (editor', [], calls))
          | false :: enters' => (EditErr AbortTrue, (editor', enters', calls))
          | true :: enters' =>
              let line := errLine parseErr in
              editAttempt parseLabels editor' enters' editedText
                (if (0 <? line)%nat then Some line else None) calls
          end
      end
  end.

Definition editReposInEditor (frontMatter : option (list string))
    (repos : list repo) (parseLabels : bool) (w : world)
  : editOutcome * world :=
  let fm := match frontMatter with Some fm => fm | None => [] end in
  let editLine := (length fm + 1)%nat in
  let text := createReposForm (Some fm) repos in
  let '(out, (ed, en, calls)) :=
    editAttempt parseLabels (editorResults w) (enterAnswers w) text
      (Some editLine) (editorCalls w) in
  (out, withEditor w ed en calls).

(* ===================================================================== *)
(** ** CurationSession: the pipeline of [do_update_manifest] *)
(* ===================================================================== *)

(** Library functions the session calls: [Number.prototype.toString], used
    when a default label value is concatenated into the front matter, and
    [tabula.sortArrayOfObjects(items, ['name'])]. *)
Record libs : Type := mkLibs {
  numberToString : jsnumber -> string;
  sortArrayOfObjects : list repo -> list repo
}.

(** [Array.prototype.sort()] on strings: ascending code-unit order. *)
Definition sortStrings (l : list string) : list string :=
  merge_sort String.le l.

(** An instance of the library functions, to run the session on examples:
    a stable sort that compares names by code units, and a number printer
    that is decimal on integers. *)
Definition nameLe (a b : repo) : Prop := String.le (name a) (name b).

Global Instance nameLe_dec : RelDecision nameLe :=
  fun a b => String.le_dec (name a) (name b).

Definition sortByName (l : list repo) : list repo := merge_sort nameLe l.

Definition showZ (z : Z) : string :=
  match z with
  | Z0 => "0"
  | Zpos p => showNat (Pos.to_nat p)
  | Zneg p => ("-" ++ showNat (Pos.to_nat p))%string
  end.

Definition showNumber (n : jsnumber) : string :=
  match n with
  | NaN => "NaN"
  | Infinity false => "Infinity"
  | Infinity true => "-Infinity"
  | Finite q =>
      match Qden q with
      | xH => showZ (Qnum q)
      | d => (showZ (Qnum q) ++ "/" ++ showNat (Pos.to_nat d))%string
      end
  end.

Definition sampleLibs : libs :=
  {| numberToString := showNumber; sortArrayOfObjects := sortByName |}.

Definition stage : Type := context -> world -> status * context * world.

(** [vasync.pipeline]: the functions in order, stopping at the first error. *)
Fixpoint pipeline (funcs : list stage) (ctx : context) (w : world)
  : status * context * world :=
  match funcs with
  | [] => (Ok, ctx, w)
  | f :: rest =>
      match f ctx w with
      | (Ok, ctx', w') => pipeline rest ctx' w'
      | r => r
      end
  end.

(** [fetchCandidateRepos].  [DEBUG_GITHUB_REPOS_CACHE_PATH] is [null], so
    the cache branch is dead, and [cacheIt] and [loadCache] only call
    [next()]. *)
Definition keptCandidates (m : manifest) (repos : list repo) : list repo :=
  if negb (includeArchived (repoCandidateSearch m))
  then List.filter (fun r => negb (archived r)) repos
  else repos.

Definition fetchCandidateRepos : stage := fun ctx w =>
  match searchType (repoCandidateSearch (ctxManifest ctx)) with
  | None => (Err (AssertionError "repoCandidateSearch.type"), ctx, w)
  | Some _ =>
      match github w with
      | Fetched repos =>
          (Ok, withCandidates ctx (keptCandidates (ctxManifest ctx) repos), w)
      | FetchFailed st => (Err (GitHubApiError st), ctx, w)
      end
  end.

Definition cacheIt : stage := fun ctx w => (Ok, ctx, w).
Definition loadCache : stage := fun ctx w => (Ok, ctx, w).

(** The three dictionaries of [categorizeRepos]. *)
Definition repoFromName (rs : list repo) : dict :=
  fold_left (fun o r => dictSet o (name r) (VObj r)) rs emptyDict.

Definition excRepoFromName (ns : list string) : dict :=
  fold_left (fun o n => dictSet o n VTrue) ns emptyDict.

Definition categorize (m : manifest) (cands : list repo)
  : list repo * list repo * list repo :=
  let rfn := repoFromName (repositories m) in
  let efn := excRepoFromName (excludedRepositories m) in
  let cfn := repoFromName cands in
  let gone := List.filter (fun r => negb (dictHas cfn (name r))) (repositories m) in
  let goneExc :=
    map repoNamed
      (List.filter (fun n => negb (dictHas cfn n)) (excludedRepositories m)) in
  let new :=
    List.filter (fun r => negb (dictHas rfn (name r)) && negb (dictHas efn (name r)))
      cands in
  (gone, goneExc, new).

Definition categorizeRepos : stage := fun ctx w =>
  let '(gone, goneExc, new) := categorize (ctxManifest ctx) (candidateRepos ctx) in
  (Ok, withCategories ctx gone goneExc new, w).

(** [new Set(names)] and [set.has(n)]. *)
Definition nameSet (rs : list repo) : gset string := list_to_set (names rs).

Definition removeGone (m : manifest) (gone goneExc : list repo) : manifest :=
  let goneRepoNames := nameSet gone in
  let m1 :=
    withRepositories m
      (List.filter (fun r => negb (bool_decide (name r ∈ goneRepoNames)))
         (repositories m)) in
  let goneExcRepoNames := nameSet goneExc in
  withExcluded m1
    (List.filter (fun n => negb (bool_decide (n ∈ goneExcRepoNames)))
       (excludedRepositories m1)).

Definition removeGoneRepos : stage := fun ctx w =>
  let repos := goneRepos ctx ++ goneExcRepos ctx in
  if (length repos =? 0)%nat then (Ok, ctx, w)
  else
    match promptYesNo w with
    | None => (Pending, ctx, w)
    | Some (ans, w1) =>
        if negb (answerIs "y" ans) then (Ok, ctx, w1)
        else
          let m := removeGone (ctxManifest ctx) (goneRepos ctx) (goneExcRepos ctx) in
          let '(st, w2) := saveManifest m w1 in
          (st, withManifest ctx m, w2)
    end.

Definition confirmAddNewRepos : stage := fun ctx w =>
  if (length (newRepos ctx) =? 0)%nat then (Ok, withAddNewRepos ctx false, w)
  else
    match promptEnter w with
    | None => (Pending, ctx, w)
    | Some (false, w1) => (Ok, withAddNewRepos ctx false, w1)
    | Some (true, w1) =>
        (Ok, withRemaining (withAddNewRepos ctx true) (newRepos ctx), w1)
    end.

Section WithLibs.
Variable L : libs.

(** [k + '=' + v]: the string a label value is concatenated as. *)
Definition labelToString (v : labelval) : string :=
  match v with
  | LBool true => "true"
  | LBool false => "false"
  | LNum n => numberToString L n
  | LStr s => s
  | LNull => "null"
  end.

Definition includeFrontMatter (m : manifest) : list string :=
  [ "# Uncomment any repos that should be *included* as relevant";
    "# for this manifest.";
    "#";
    "# Optionally you may include a space-separate set of labels after";
    "# a repo to label it (KEY=VALUE or KEY for a bool), e.g.:";
    "#     https://github.com/TritonDataCenter/sdc-imgapi tritonservice=imgapi vm";
    "#     https://github.com/TritonDataCenter/triton-cmon-agent tritonservice=cmon-agent agent" ]
  ++ match defaultLabels m with
     | Some dl =>
         [ "#"; "# Default labels:" ]
         ++ map (fun kv =>
                   match snd kv with
                   | LBool true => ("# - " ++ fst kv)%string
                   | v => ("# - " ++ fst kv ++ "=" ++ labelToString v)%string
                   end) dl
     | None => []
     end
  ++ (if (0 <? length (blessedLabels m))%nat then
        [ "#"; "# Blessed labels:" ]
        ++ map (fun lbl =>
                  if String.eqb (lblType lbl) "boolean"
                  then ("# - " ++ lblName lbl ++ " - " ++ lblDescription lbl)%string
                  else ("# - " ++ lblName lbl ++ "=<" ++ lblType lbl ++ "> - "
                        ++ lblDescription lbl)%string)
             (blessedLabels m)
      else [])
  ++ [ "" ].

Definition excludeFrontMatter : list string :=
  [ "# Uncomment any repos that should be *excluded* from this manifest";
    "# (they will be noted in the " ++ dquote ++ "excludedRepositories" ++ dquote ++ " field).";
    "" ]%string.

(** What [onEdited] of the inclusion stage does with a non-empty list. *)
Definition mergeIncluded (ctx : context) (repos : list repo) : context :=
  let m := ctxManifest ctx in
  let m' := withRepositories m (sortArrayOfObjects L (repositories m ++ repos)) in
  let addedNames := nameSet repos in
  withRemaining (withManifest ctx m')
    (List.filter (fun r => negb (bool_decide (name r ∈ addedNames)))
       (remainingRepos ctx)).

Definition addNewIncludedRepos : stage := fun ctx w =>
  if negb (addNewRepos ctx) then (Ok, ctx, w)
  else
    match editReposInEditor (Some (includeFrontMatter (ctxManifest ctx)))
            (remainingRepos ctx) true w with
    | (EditPending, w1) => (Pending, ctx, w1)
    | (EditErr e, w1) => (Err e, ctx, w1)
    | (Edited repos, w1) =>
        if (length repos =? 0)%nat then (Ok, ctx, w1)
        else
          let ctx' := mergeIncluded ctx repos in
          let '(st, w2) := saveManifest (ctxManifest ctx') w1 in
          (st, ctx', w2)
    end.

Definition confirmAddNewExcludedRepos : stage := fun ctx w =>
  if negb (addNewRepos ctx) || (length (remainingRepos ctx) =? 0)%nat
  then (Ok, withAddNewExcluded ctx false, w)
  else
    match promptEnter w with
    | None => (Pending, ctx, w)
    | Some (false, w1) => (Ok, withAddNewExcluded ctx false, w1)
    | Some (true, w1) => (Ok, withAddNewExcluded ctx true, w1)
    end.

(** What [onEdited] of the exclusion stage does with a non-empty list. *)
Definition appendExcluded (ctx : context) (repos : list repo) : context :=
  let m := ctxManifest ctx in
  withManifest ctx
    (withExcluded m (sortStrings (excludedRepositories m ++ names repos))).

Definition addNewExcludedRepos : stage := fun ctx w =>
  if negb (ctxAddNewExcludedRepos ctx) then (Ok, ctx, w)
  else
    match editReposInEditor (Some excludeFrontMatter)
            (remainingRepos ctx) false w with
    | (EditPending, w1) => (Pending, ctx, w1)
    | (EditErr e, w1) => (Err e, ctx, w1)
    | (Edited repos, w1) =>
        if (length repos =? 0)%nat then (Ok, ctx, w1)
        else
          let ctx' := appendExcluded ctx repos in
          let '(st, w2) := saveManifest (ctxManifest ctx') w1 in
          (st, ctx', w2)
    end.

(** The stages after the candidates are known. *)
Definition curationStages : list stage :=
  [ removeGoneRepos; confirmAddNewRepos; addNewIncludedRepos;
    confirmAddNewExcludedRepos; addNewExcludedRepos ].

(** [do_update_manifest] from the parsed manifest on. *)
Definition updateManifest (m : manifest) (w : world)
  : status * context * world :=
  pipeline
    ([ fetchCandidateRepos; cacheIt; loadCache; categorizeRepos ]
     ++ curationStages)
    (initialContext m) w.

(** The stages after the removal stage, and the exclusion stage alone. *)
Definition afterRemoval : list stage :=
  [ confirmAddNewRepos; addNewIncludedRepos;
    confirmAddNewExcludedRepos; addNewExcludedRepos ].

Definition exclusionStages : list stage :=
  [ confirmAddNewExcludedRepos; addNewExcludedRepos ].

End WithLibs.

(* ===================================================================== *)
(** ** Predicates of the statements *)
(* ===================================================================== *)

(** A word: a non-empty string without white space. *)
Definition isWord (s : string) : bool := negb (isEmpty s) && noWhiteSpace s.

(** The text of a repo line: the base URL, the name, and the label tokens,
    separated by single spaces. *)
Definition repoLine (nm : string) (tokens : list string) : string :=
  (JOYENT_REPO_BASE_URL ++ join " " (nm :: tokens))%string.

(** The key a label token assigns to: the token itself, or its part before
    the first [=]. *)
Definition tokenKey (token : string) : string := fst (coerceLabelToken token).

(** The four kinds of line the specification of [decode] distinguishes,
    decided on the trimmed line as the parser does. *)
Inductive lineKind : Type := Blank | Comment | RepoUrl | Invalid.

Definition classify (l : string) : lineKind :=
  let line := trim l in
  if isEmpty line then Blank
  else if firstIs "#" line then Comment
  else if String.eqb (sliceTo (String.length JOYENT_REPO_BASE_URL) line)
            JOYENT_REPO_BASE_URL
  then RepoUrl
  else Invalid.

Definition isRepoUrl (l : string) : bool :=
  match classify l with RepoUrl => true | _ => false end.

(** A front-matter line that the parser skips and that is a single line. *)
Definition isFrontMatterLine (l : string) : Prop :=
  noLineFeed l = true /\ (classify l = Blank \/ classify l = Comment).

(** A key that reads as present whatever the prototype is: the accessor
    [__proto__], or an own property. *)
Definition ownOrProto (o : dict) (k : string) : Prop :=
  k = "__proto__" \/ is_Some (own o !! k).

(** A dictionary whose prototype was not replaced and whose own keys are
    exactly [ks]. *)
Definition plainOver (o : dict) (ks : list string) : Prop :=
  proto o = None /\ forall k, is_Some (own o !! k) <-> In k ks.

(** Names no plain object inherits: the names for which the dictionaries
    of [categorizeRepos] behave as sets. *)
Definition plainNames (m : manifest) (cands : list repo) : Prop :=
  Forall (fun r => inherited (name r) = false) (repositories m)
  /\ Forall (fun n => inherited n = false) (excludedRepositories m)
  /\ Forall (fun r => inherited (name r) = false) cands.

(** The line the cursor is moved to when [text] does not parse. *)
Definition failingLine (parseLabels : bool) (text : string) : option nat :=
  match parseReposForm text parseLabels with
  | Thrown e => Some (errLine e)
  | Parsed _ => None
  end.

(** The parser throws on [text]. *)
Definition parseFails (parseLabels : bool) (text : string) : Prop :=
  exists e, parseReposForm text parseLabels = Thrown e.

(** The ways the loop hands control back to its caller. *)
Definition loopExit (parseLabels : bool) (editor : list editorResult)
    (enters : list bool) (out : editOutcome) : Prop :=
  match out with
  | Edited repos =>
      exists t, In (EditorText t) editor
                /\ parseReposForm t parseLabels = Parsed repos
  | EditErr AbortTrue => In false enters
  | EditErr (EditorError msg) => In (EditorFailed msg) editor
  | EditErr _ => False
  | EditPending => True
  end.

(** Names are unique within [repositories] and within
    [excludedRepositories], and no name is in both. *)
Definition manifestInv (m : manifest) : Prop :=
  NoDup (names (repositories m))
  /\ NoDup (excludedRepositories m)
  /\ forall n, In n (names (repositories m)) -> ~ In n (excludedRepositories m).

(** The entries any accepted edit yields are new to the manifest and
    pairwise distinct by name. *)
Definition freshEdits (m : manifest) (w : world) : Prop :=
  forall t b rs,
    In (EditorText t) (editorResults w) ->
    parseReposForm t b = Parsed rs ->
    NoDup (names rs)
    /\ forall n, In n (names rs) ->
         ~ In n (names (repositories m)) /\ ~ In n (excludedRepositories m).

(* ===================================================================== *)
(** ** Sample data *)
(* ===================================================================== *)

Definition sampleSearch : candidateSearch :=
  {| searchType := Some "public"; includeArchived := false;
     searchDescription := "public repos" |}.

Definition sampleManifest (rs : list repo) (ex : list string) : manifest :=
  {| description := "sample"; repositories := rs; excludedRepositories := ex;
     repoCandidateSearch := sampleSearch; blessedLabels := [];
     defaultLabels := None; otherFields := [("jrVersion", "1")] |}.

Definition sampleWorld (g : fetchResult) (yn : list answer) (en : list bool)
    (ed : list editorResult) (wr : list bool) : world :=
  {| github := g; yesNoAnswers := yn; enterAnswers := en;
     editorResults := ed; writeResults := wr; editorCalls := [];
     manifestFile := [] |}.

Definition url (n : string) : string := (JOYENT_REPO_BASE_URL ++ n)%string.

(** A form whose fifth line is not a repo URL, and the same form with that
    line corrected. *)
Definition formWithBadLine : string :=
  join nl [ "# Uncomment the repos to include."; "#"; "";
            url "a"; "not-a-valid-url"; url "b x=1 y" ].

Definition formCorrected : string :=
  join nl [ "# Uncomment the repos to include."; "#"; "";
            url "a"; url "c"; url "b x=1 y" ].

Definition formCorrectedRepos : list repo :=
  [ repoNamed "a"; repoNamed "c";
    {| name := "b";
       labels := Some (<["y" := LBool true]> (<["x" := LNum (ofZ 1)]> ∅));
       archived := false |} ].

Definition sampleContext (m : manifest) (gone goneExc new : list repo)
    (add : bool) (remaining : list repo) (addExc : bool) : context :=
  {| ctxManifest := m; candidateRepos := []; goneRepos := gone;
     goneExcRepos := goneExc; newRepos := new; addNewRepos := add;
     remainingRepos := remaining; ctxAddNewExcludedRepos := addExc |}.

(* ===================================================================== *)
(** ** Further predicates and edits *)
(* ===================================================================== *)

(** The edit that selects some repo lines: from line index [k] on, the
    line of a repo whose entry in [mask] is [true] is uncommented; lines past
    the end of [mask] are left as they are. *)
Fixpoint selectLinesFrom (k : nat) (mask : list bool) (lines : list string)
  : list string :=
  match k, lines with
  | _, [] => []
  | S k', l :: rest => l :: selectLinesFrom k' mask rest
  | O, l :: rest =>
      match mask with
      | true :: mask' => uncommentLine l :: selectLinesFrom O mask' rest
      | false :: mask' => l :: selectLinesFrom O mask' rest
      | [] => l :: rest
      end
  end.

Definition selectFrom (k : nat) (mask : list bool) (text : string) : string :=
  join nl (selectLinesFrom k mask (splitLines text)).

(** The elements of a list whose entry in [mask] is [true]. *)
Fixpoint chosen {A : Type} (mask : list bool) (l : list A) : list A :=
  match mask, l with
  | true :: mask', x :: l' => x :: chosen mask' l'
  | false :: mask', _ :: l' => chosen mask' l'
  | _, _ => []
  end.

(** The carriage return, U+000D, and a text with every line feed preceded
    by one, as an editor with Windows line endings saves it. *)
Definition CR : ascii := ascii_of_nat 13.

Fixpoint toCRLF (s : string) : string :=
  match s with
  | EmptyString => EmptyString
  | String c s' =>
      if Ascii.eqb c LF then String CR (String LF (toCRLF s'))
      else String c (toCRLF s')
  end.

(** The manifest in memory and the manifest file agree: nothing was changed
    and nothing written since the start, or the file holds the JSON text of
    the manifest in memory. *)
Definition inSync (m0 : manifest) (file0 : list fileContent)
    (ctx : context) (w : world) : Prop :=
  (ctxManifest ctx = m0 /\ manifestFile w = file0)
  \/ last (manifestFile w) = Some (stringify (ctxManifest ctx)).

(** Every answer still to come declines: no yes/no answer is [y] and every
    Enter prompt is answered with Ctrl+C. *)
Definition declinesAll (w : world) : Prop :=
  Forall (fun a => answerIs "y" a = false) (yesNoAnswers w)
  /\ Forall (fun b => b = false) (enterAnswers w).

(** The strings the inclusion front matter is built from hold no line
    feed. *)
Definition singleLineLabels (m : manifest) : Prop :=
  (forall dl, defaultLabels m = Some dl ->
     Forall (fun kv => noLineFeed (fst kv) = true
                       /\ forall s, snd kv = LStr s -> noLineFeed s = true) dl)
  /\ Forall (fun lbl => noLineFeed (lblName lbl) = true
                        /\ noLineFeed (lblType lbl) = true
                        /\ noLineFeed (lblDescription lbl) = true)
       (blessedLabels m).

(** The state of a session in which nothing was accepted so far: the
    manifest is [m], no stage was switched on, and the world [w] differs
    from [w0] at most in the answers consumed, all remaining answers
    declining. *)
Definition nothingAccepted (m : manifest) (w0 : world)
    (ctx : context) (w : world) : Prop :=
  ctxManifest ctx = m
  /\ addNewRepos ctx = false
  /\ ctxAddNewExcludedRepos ctx = false
  /\ manifestFile w = manifestFile w0
  /\ editorCalls w = editorCalls w0
  /\ editorResults w = editorResults w0
  /\ writeResults w = writeResults w0
  /\ declinesAll w.

(** A manifest with default and blessed labels, and a session about to
    edit inclusions for two candidates. *)
Definition labelledManifest : manifest :=
  {| description := "sample"; repositories := [repoNamed "a"];
     excludedRepositories := ["x"]; repoCandidateSearch := sampleSearch;
     blessedLabels :=
       [ {| lblName := "meta"; lblType := "boolean";
            lblDescription := "not code" |};
         {| lblName := "image"; lblType := "string";
            lblDescription := "the image name" |} ];
     defaultLabels := Some [ ("public", LBool true); ("tier", LNum (ofZ 2));
                             ("kind", LStr "lib") ];
     otherFields := [] |}.

Definition editingContext : context :=
  sampleContext labelledManifest [] [] [repoNamed "c"; repoNamed "d"]
    true [repoNamed "c"; repoNamed "d"] true.

(* ===================================================================== *)
(** ** Proof automation *)
(* ===================================================================== *)

(** Case analysis on every [match] and [if] of a stage's result, down to the
    equation between the triples. *)
Ltac stage_cases H :=
  repeat match type of H with
         | context [match ?x with _ => _ end] => destruct x eqn:?
         | context [if ?x then _ else _] => destruct x eqn:?
         end;
  try (inversion H; subst; clear H).

(* ===================================================================== *)
(** ** Properties of the string operations *)
(* ===================================================================== *)

Lemma isEmpty_true s : isEmpty s = true -> s = EmptyString.
Proof. destruct s; [reflexivity | discriminate]. Qed.

Lemma noneOf_app p a b : noneOf p (a ++ b)%string = noneOf p a && noneOf p b.
Proof.
  induction a as [| c a IH]; simpl; [reflexivity |].
  rewrite IH. apply andb_assoc.
Qed.

Lemma append_cons x (a b : string) : (String x a ++ b = String x (a ++ b))%string.
Proof. reflexivity. Qed.

Lemma append_nil (b : string) : (EmptyString ++ b = b)%string.
Proof. reflexivity. Qed.

Lemma append_assoc (a b c : string) : ((a ++ b) ++ c = a ++ (b ++ c))%string.
Proof.
  induction a as [| x a IH]; [reflexivity |].
  rewrite !append_cons, IH. reflexivity.
Qed.

Lemma trimStart_first c s :
  isWhiteSpace c = false -> trimStart (String c s) = String c s.
Proof. intros H. simpl. rewrite H. reflexivity. Qed.

Lemma trimEnd_noWhiteSpace s : noWhiteSpace s = true -> trimEnd s = s.
Proof.
  induction s as [| c s IH]; simpl; [reflexivity |].
  intros H. apply andb_prop in H as [Hc Hs].
  rewrite (IH Hs). apply negb_true_iff in Hc. rewrite Hc. reflexivity.
Qed.

(** Trimming the end leaves a string alone when its tail is not trimmed
    away. *)
Lemma trimEnd_app a b :
  trimEnd b = b -> isEmpty b = false -> trimEnd (a ++ b)%string = (a ++ b)%string.
Proof.
  intros Hb Hne. induction a as [| c a IH]; simpl; [exact Hb |].
  rewrite IH. destruct a; simpl.
  - destruct b; [discriminate |]. simpl. rewrite andb_false_r. reflexivity.
  - rewrite andb_false_r. reflexivity.
Qed.

Lemma trim_noWhiteSpace s : noWhiteSpace s = true -> trim s = s.
Proof.
  intros H. unfold trim. destruct s as [| c s]; [reflexivity |].
  pose proof H as H'. simpl in H'. apply andb_prop in H' as [Hc _].
  apply negb_true_iff in Hc. rewrite (trimStart_first _ _ Hc).
  apply trimEnd_noWhiteSpace, H.
Qed.

Lemma splitLines_nonempty s : splitLines s <> [].
Proof.
  destruct s as [| c s]; simpl; [discriminate |].
  destruct (Ascii.eqb c LF); [discriminate |].
  destruct (splitLines s); discriminate.
Qed.

Lemma splitLines_noLineFeed s : noLineFeed s = true -> splitLines s = [s].
Proof.
  induction s as [| c s IH]; simpl; [reflexivity |].
  intros H. apply andb_prop in H as [Hc Hs]. apply negb_true_iff in Hc.
  rewrite Hc, (IH Hs). reflexivity.
Qed.

Lemma splitLines_app_nl a b :
  noLineFeed a = true ->
  splitLines (a ++ nl ++ b)%string = a :: splitLines b.
Proof.
  induction a as [| c a IH]; simpl; intros H.
  - reflexivity.
  - apply andb_prop in H as [Hc Ha]. apply negb_true_iff in Hc.
    rewrite Hc. simpl in IH. rewrite (IH Ha). reflexivity.
Qed.

Lemma splitLines_join l :
  Forall (fun x => noLineFeed x = true) l -> l <> [] ->
  splitLines (join nl l) = l.
Proof.
  induction 1 as [| x l Hx Hl IH]; intros Hne; [congruence |].
  destruct l as [| y l].
  - simpl. apply splitLines_noLineFeed, Hx.
  - change (join nl (x :: y :: l)) with (x ++ nl ++ join nl (y :: l))%string.
    rewrite (splitLines_app_nl _ _ Hx), IH; [reflexivity | discriminate].
Qed.

Lemma join_snoc_empty l :
  l <> [] -> join nl (l ++ [EmptyString]) = (join nl l ++ nl)%string.
Proof.
  induction l as [| x l IH]; intros Hne; [congruence |].
  destruct l as [| y l].
  - simpl. reflexivity.
  - change (join nl ((x :: y :: l) ++ [EmptyString]))
      with (x ++ nl ++ join nl ((y :: l) ++ [EmptyString]))%string.
    rewrite IH by discriminate.
    change (join nl (x :: y :: l)) with (x ++ nl ++ join nl (y :: l))%string.
    rewrite !append_assoc. reflexivity.
Qed.

Lemma splitSpaces_noWhiteSpace s :
  noWhiteSpace s = true -> splitSpacesFrom false s = [s].
Proof.
  induction s as [| c s IH]; simpl; [reflexivity |].
  intros H. apply andb_prop in H as [Hc Hs]. apply negb_true_iff in Hc.
  rewrite Hc, (IH Hs). reflexivity.
Qed.

Lemma splitSpacesFrom_nonempty b s : splitSpacesFrom b s <> [].
Proof.
  revert b. induction s as [| c s IH]; intros b; simpl; [discriminate |].
  destruct (isWhiteSpace c).
  - destruct b; [apply IH | discriminate].
  - destruct (splitSpacesFrom false s); discriminate.
Qed.

(** A run of white space that is already open swallows nothing of a word. *)
Lemma splitSpacesFrom_word b c s :
  isWhiteSpace c = false ->
  splitSpacesFrom b (String c s) = splitSpacesFrom false (String c s).
Proof. intros H. simpl. rewrite H. reflexivity. Qed.

Lemma splitSpaces_word_space a rest :
  noWhiteSpace a = true ->
  splitSpacesFrom false (a ++ " " ++ rest)%string = a :: splitSpacesFrom true rest.
Proof.
  induction a as [| c a IH]; simpl; intros H.
  - reflexivity.
  - apply andb_prop in H as [Hc Ha]. apply negb_true_iff in Hc.
    rewrite Hc. simpl in IH. rewrite (IH Ha). reflexivity.
Qed.

Lemma indexOfFrom_absent c i s :
  noneOf (fun d => Ascii.eqb d c) s = true -> indexOfFrom c i s = (-1)%Z.
Proof.
  revert i. induction s as [| d s IH]; simpl; intros i H; [reflexivity |].
  apply andb_prop in H as [Hd Hs]. apply negb_true_iff in Hd.
  rewrite Hd. apply IH, Hs.
Qed.

Lemma indexOfFrom_found c i a b :
  noneOf (fun d => Ascii.eqb d c) a = true ->
  indexOfFrom c i (a ++ String c b)%string = (i + Z.of_nat (String.length a))%Z.
Proof.
  revert i. induction a as [| d a IH]; simpl; intros i H.
  - rewrite Ascii.eqb_refl. lia.
  - apply andb_prop in H as [Hd Ha]. apply negb_true_iff in Hd.
    rewrite Hd, (IH _ Ha). lia.
Qed.

Lemma sliceTo_app a b : sliceTo (String.length a) (a ++ b)%string = a.
Proof. induction a as [| c a IH]; simpl; [destruct b; reflexivity | now rewrite IH]. Qed.

Lemma sliceFrom_app a b : sliceFrom (String.length a) (a ++ b)%string = b.
Proof. induction a as [| c a IH]; simpl; [reflexivity | exact IH]. Qed.

Lemma append_empty_r (a : string) : (a ++ EmptyString)%string = a.
Proof. induction a as [| c a IH]; [reflexivity |]. now rewrite append_cons, IH. Qed.

Lemma noWhiteSpace_noLineFeed s : noWhiteSpace s = true -> noLineFeed s = true.
Proof.
  unfold noWhiteSpace, noLineFeed.
  induction s as [| c s IH]; simpl; [reflexivity |].
  intros H. apply andb_prop in H as [Hc Hs]. rewrite (IH Hs), andb_true_r.
  apply negb_true_iff in Hc. apply negb_true_iff.
  destruct (Ascii.eqb c LF) eqn:E; [| reflexivity].
  apply Ascii.eqb_eq in E. subst c. discriminate Hc.
Qed.

Lemma join_cons_cons sep x y l :
  join sep (x :: y :: l) = (x ++ sep ++ join sep (y :: l))%string.
Proof. reflexivity. Qed.

Lemma join_word_first sep t ts :
  isWord t = true -> exists c r, join sep (t :: ts) = String c r /\ isWhiteSpace c = false.
Proof.
  unfold isWord. intros H. apply andb_prop in H as [Hne Hws].
  destruct t as [| c t]; [discriminate |].
  simpl in Hws. apply andb_prop in Hws as [Hc _]. apply negb_true_iff in Hc.
  destruct ts as [| y l].
  - exists c, t. split; [reflexivity | exact Hc].
  - exists c, (t ++ sep ++ join sep (y :: l))%string. split; [reflexivity | exact Hc].
Qed.

Lemma splitSpaces_join nm tokens :
  noWhiteSpace nm = true ->
  Forall (fun t => isWord t = true) tokens ->
  splitSpaces (join " " (nm :: tokens)) = nm :: tokens.
Proof.
  unfold splitSpaces. intros Hnm Htok. revert nm Hnm.
  induction Htok as [| t ts Ht Hts IH]; intros nm Hnm.
  - apply splitSpaces_noWhiteSpace, Hnm.
  - rewrite join_cons_cons, (splitSpaces_word_space _ _ Hnm).
    destruct (join_word_first " " t ts Ht) as (c & r & E & Hc).
    rewrite E, (splitSpacesFrom_word _ _ _ Hc), <- E.
    rewrite IH; [reflexivity |].
    unfold isWord in Ht. apply andb_prop in Ht as [_ Ht]. exact Ht.
Qed.

Lemma trimEnd_join nm tokens :
  noWhiteSpace nm = true ->
  Forall (fun t => isWord t = true) tokens ->
  trimEnd (join " " (nm :: tokens)) = join " " (nm :: tokens).
Proof.
  intros Hnm Htok. revert nm Hnm.
  induction Htok as [| t ts Ht Hts IH]; intros nm Hnm.
  - apply trimEnd_noWhiteSpace, Hnm.
  - rewrite join_cons_cons, <- append_assoc.
    destruct (join_word_first " " t ts Ht) as (c & r & E & Hc).
    apply trimEnd_app.
    + apply IH. unfold isWord in Ht. apply andb_prop in Ht as [_ Ht]. exact Ht.
    + rewrite E. reflexivity.
Qed.

Lemma noLineFeed_join nm tokens :
  noWhiteSpace nm = true ->
  Forall (fun t => isWord t = true) tokens ->
  noLineFeed (join " " (nm :: tokens)) = true.
Proof.
  intros Hnm Htok. revert nm Hnm.
  induction Htok as [| t ts Ht Hts IH]; intros nm Hnm.
  - apply noWhiteSpace_noLineFeed, Hnm.
  - rewrite join_cons_cons. unfold noLineFeed. rewrite !noneOf_app.
    fold (noLineFeed nm). fold (noLineFeed (join " " (t :: ts))).
    rewrite (noWhiteSpace_noLineFeed _ Hnm), IH; [reflexivity |].
    unfold isWord in Ht. apply andb_prop in Ht as [_ Ht]. exact Ht.
Qed.

Lemma trim_repoLine nm tokens :
  noWhiteSpace nm = true ->
  Forall (fun t => isWord t = true) tokens ->
  trim (repoLine nm tokens) = repoLine nm tokens.
Proof.
  intros Hnm Htok. unfold trim, repoLine.
  change (trimStart (JOYENT_REPO_BASE_URL ++ join " " (nm :: tokens))%string)
    with (JOYENT_REPO_BASE_URL ++ join " " (nm :: tokens))%string.
  destruct (isEmpty (join " " (nm :: tokens))) eqn:E.
  - apply isEmpty_true in E. rewrite E. reflexivity.
  - apply trimEnd_app; [apply trimEnd_join; assumption | exact E].
Qed.

(** The parse of one line that starts with the base URL. *)
Lemma parseLoop_repoLine b nm tokens rest i acc :
  noWhiteSpace nm = true ->
  Forall (fun t => isWord t = true) tokens ->
  parseLoop b (repoLine nm tokens :: rest) i acc
  = parseLoop b rest (S i)
      (acc ++ [ if b && (0 <? length tokens)%nat
                then {| name := nm; labels := Some (parseLabelTokens tokens);
                        archived := false |}
                else repoNamed nm ]).
Proof.
  intros Hnm Htok.
  change (parseLoop b (repoLine nm tokens :: rest) i acc)
    with (let line := trim (repoLine nm tokens) in
          if isEmpty line then parseLoop b rest (S i) acc
          else if firstIs "#" line then parseLoop b rest (S i) acc
          else if String.eqb (sliceTo (String.length JOYENT_REPO_BASE_URL) line)
                    JOYENT_REPO_BASE_URL
          then parseLoop b rest (S i) (acc ++ [parseRepoLine b line])
          else Thrown {| errLine := i + 1; errText := line |}).
  rewrite (trim_repoLine _ _ Hnm Htok). cbv zeta.
  change (isEmpty (repoLine nm tokens)) with false.
  change (firstIs "#" (repoLine nm tokens)) with false.
  unfold repoLine at 1. rewrite sliceTo_app, String.eqb_refl.
  unfold parseRepoLine, repoLine. rewrite sliceFrom_app.
  rewrite (splitSpaces_join _ _ Hnm Htok). reflexivity.
Qed.

Lemma sliceFrom_S_app a c b :
  sliceFrom (S (String.length a)) (a ++ String c b)%string = b.
Proof. induction a as [| d a IH]; [reflexivity | exact IH]. Qed.

(* ===================================================================== *)
(** ** FormCodec: label tokens *)
(* ===================================================================== *)

(** A token without [=] is a boolean label. *)
Lemma coerceLabelToken_novalue token :
  noEquals token = true -> coerceLabelToken token = (token, LBool true).
Proof.
  intros H. unfold coerceLabelToken, indexOf.
  rewrite (indexOfFrom_absent _ _ _ H). reflexivity.
Qed.

(** The value a [key=value] token is coerced to, written as the three tests
    of the loop body. *)
Lemma coerceLabelToken_keyvalue key value :
  noEquals key = true ->
  coerceLabelToken (key ++ "=" ++ value)%string
  = (key,
     if String.eqb value "true" then LBool true
     else if String.eqb value "false" then LBool false
     else if isNaN (Number value) then LStr value
     else LNum (Number value)).
Proof.
  intros H. unfold coerceLabelToken, indexOf.
  change (key ++ "=" ++ value)%string with (key ++ String "=" value)%string.
  rewrite (indexOfFrom_found _ _ _ _ H).
  replace (0 + Z.of_nat (String.length key) =? -1)%Z with false
    by (symmetry; apply Z.eqb_neq; lia).
  replace (Z.to_nat (0 + Z.of_nat (String.length key)))
    with (String.length key) by lia.
  replace (Z.to_nat (0 + Z.of_nat (String.length key) + 1))
    with (S (String.length key)) by lia.
  rewrite sliceTo_app, sliceFrom_S_app.
  destruct (String.eqb value "true"); [reflexivity |].
  destruct (String.eqb value "false"); [reflexivity |].
  destruct (isNaN (Number value)); reflexivity.
Qed.

Lemma parseLabelTokens_snoc pre tok :
  parseLabelTokens (pre ++ [tok])
  = labelsSet (parseLabelTokens pre) (fst (coerceLabelToken tok))
      (snd (coerceLabelToken tok)).
Proof.
  unfold parseLabelTokens. rewrite fold_left_app. simpl.
  destruct (coerceLabelToken tok). reflexivity.
Qed.

Lemma parseReposForm_repoLine b nm tokens :
  noWhiteSpace nm = true ->
  Forall (fun t => isWord t = true) tokens ->
  parseReposForm (repoLine nm tokens) b
  = Parsed [ if b && (0 <? length tokens)%nat
             then {| name := nm; labels := Some (parseLabelTokens tokens);
                     archived := false |}
             else repoNamed nm ].
Proof.
  intros Hnm Htok. unfold parseReposForm.
  rewrite splitLines_noLineFeed.
  - rewrite (parseLoop_repoLine _ _ _ _ _ _ Hnm Htok). reflexivity.
  - unfold repoLine, noLineFeed. rewrite noneOf_app.
    fold (noLineFeed (join " " (nm :: tokens))).
    rewrite (noLineFeed_join _ _ Hnm Htok). reflexivity.
Qed.

Lemma labelsSet_lookup o k v k' :
  labelsSet o k v !! k'
  = if String.eqb k "__proto__" then o !! k'
    else if String.eqb k k' then Some v else o !! k'.
Proof.
  unfold labelsSet. destruct (String.eqb k "__proto__"); [reflexivity |].
  destruct (String.eqb k k') eqn:E.
  - apply String.eqb_eq in E. subst. apply lookup_insert_eq.
  - apply String.eqb_neq in E. apply lookup_insert_ne, E.
Qed.

(** Tokens with other keys leave the label of a key as it is. *)
Lemma labels_fold_other k post : forall acc,
  Forall (fun t => tokenKey t <> k) post ->
  fold_left (fun lbls token =>
               let '(key, val) := coerceLabelToken token in
               labelsSet lbls key val) post acc !! k
  = acc !! k.
Proof.
  induction post as [| t post IH]; intros acc H; [reflexivity |].
  inversion H as [| ? ? Ht Hpost]; subst. simpl.
  rewrite (IH _ Hpost). unfold tokenKey in Ht.
  destruct (coerceLabelToken t) as [key val]. simpl in Ht.
  rewrite labelsSet_lookup.
  destruct (String.eqb key "__proto__"); [reflexivity |].
  destruct (String.eqb key k) eqn:E; [| reflexivity].
  apply String.eqb_eq in E. contradiction.
Qed.

(** No token stores a label under [__proto__]. *)
Lemma labels_fold_proto tokens : forall acc,
  acc !! "__proto__" = None ->
  fold_left (fun lbls token =>
               let '(key, val) := coerceLabelToken token in
               labelsSet lbls key val) tokens acc !! "__proto__"
  = None.
Proof.
  induction tokens as [| t tokens IH]; intros acc H; [exact H |].
  simpl. apply IH. destruct (coerceLabelToken t) as [key val].
  rewrite labelsSet_lookup.
  destruct (String.eqb key "__proto__") eqn:E; [exact H |].
  destruct (String.eqb key "__proto__"); [discriminate E | exact H].
Qed.

(** The label object of a line holds, under the key of a token, the coerced
    value of the last token with that key. *)
Lemma parseLabelTokens_lookup pre tok post :
  tokenKey tok <> "__proto__" ->
  Forall (fun t => tokenKey t <> tokenKey tok) post ->
  parseLabelTokens (pre ++ tok :: post) !! tokenKey tok
  = Some (snd (coerceLabelToken tok)).
Proof.
  intros Hproto Hlast. unfold parseLabelTokens.
  rewrite fold_left_app. simpl. rewrite (labels_fold_other _ _ _ Hlast).
  unfold tokenKey in *. destruct (coerceLabelToken tok) as [key val].
  simpl in *. rewrite labelsSet_lookup.
  destruct (String.eqb key "__proto__") eqn:E.
  - apply String.eqb_eq in E. contradiction.
  - rewrite String.eqb_refl. reflexivity.
Qed.

Lemma parseLabelTokens_proto tokens :
  parseLabelTokens tokens !! "__proto__" = None.
Proof. apply labels_fold_proto, lookup_empty. Qed.

(** Every token is of one of the two forms the loop body tells apart. *)
Lemma token_forms tok :
  noEquals tok = true
  \/ exists key value, tok = (key ++ "=" ++ value)%string /\ noEquals key = true.
Proof.
  induction tok as [| c tok IH]; [left; reflexivity |].
  destruct (Ascii.eqb c "=") eqn:E.
  - right. exists EmptyString, tok. apply Ascii.eqb_eq in E. subst.
    split; reflexivity.
  - destruct IH as [IH | (key & value & -> & Hk)].
    + left. unfold noEquals in *. simpl. rewrite E, IH. reflexivity.
    + right. exists (String c key), value. split; [reflexivity |].
      unfold noEquals in *. simpl. rewrite E, Hk. reflexivity.
Qed.

Lemma parseReposForm_labels nm tokens :
  noWhiteSpace nm = true ->
  Forall (fun t => isWord t = true) tokens ->
  tokens <> [] ->
  parseReposForm (repoLine nm tokens) true
  = Parsed [ {| name := nm; labels := Some (parseLabelTokens tokens);
                archived := false |} ].
Proof.
  intros Hnm Htok Hne. rewrite (parseReposForm_repoLine _ _ _ Hnm Htok).
  destruct tokens; [congruence | reflexivity].
Qed.

(** C5, as the code has it: on an uncommented repo line parsed with label
    parsing enabled, the label object of the line holds, under the key of a
    label token, the value the last token with that key is coerced to: [true]
    for a token with no [=]; for a token [key=value], split at its first [=],
    the boolean for the values [true] and [false], the Number value of
    [value] when it is not [NaN], and the value string otherwise.  A token
    whose key is [__proto__] stores no label. *)
Theorem label_token_coercion (nm : string) (pre post : list string)
    (tok : string)
    (Hnm : noWhiteSpace nm = true)
    (Htok : Forall (fun t => isWord t = true) (pre ++ tok :: post))
    (Hproto : tokenKey tok <> "__proto__")
    (Hlast : Forall (fun t => tokenKey t <> tokenKey tok) post) :
  exists lbls,
    parseReposForm (repoLine nm (pre ++ tok :: post)) true
    = Parsed [ {| name := nm; labels := Some lbls; archived := false |} ]
    /\ (noEquals tok = true \/
        exists key value,
          tok = (key ++ "=" ++ value)%string /\ noEquals key = true)
    /\ (noEquals tok = true ->
        tokenKey tok = tok /\ lbls !! tok = Some (LBool true))
    /\ (forall key value,
          tok = (key ++ "=" ++ value)%string -> noEquals key = true ->
          tokenKey tok = key
          /\ lbls !! key
             = Some (if String.eqb value "true" then LBool true
                     else if String.eqb value "false" then LBool false
                     else if isNaN (Number value) then LStr value
                     else LNum (Number value)))
    /\ lbls !! "__proto__" = None.
Proof.
  exists (parseLabelTokens (pre ++ tok :: post)).
  pose proof (parseLabelTokens_lookup pre tok post Hproto Hlast) as Hl.
  split; [| split; [apply token_forms | split; [| split]]].
  - apply (parseReposForm_labels _ _ Hnm Htok). destruct pre; discriminate.
  - intros Hno. unfold tokenKey in *.
    rewrite (coerceLabelToken_novalue _ Hno) in *. split; [reflexivity | exact Hl].
  - intros key value -> Hk. unfold tokenKey in *.
    rewrite (coerceLabelToken_keyvalue _ _ Hk) in *. split; [reflexivity | exact Hl].
  - apply parseLabelTokens_proto.
Qed.

(** C10, as the code has it: with label parsing enabled, a token [key=] with
    an empty value is coerced to the number 0, neither the empty string nor
    a boolean, because [Number] of the empty string is 0 and not [NaN]; the
    label object of the line holds 0 under [key] when [key] is not
    [__proto__] and no later token of the line assigns to [key] again. *)
Theorem empty_value_is_zero (nm key : string) (pre post : list string)
    (Hnm : noWhiteSpace nm = true)
    (Hkey : noWhiteSpace key = true) (Heq : noEquals key = true)
    (Hpre : Forall (fun t => isWord t = true) pre)
    (Hpost : Forall (fun t => isWord t = true) post)
    (Hproto : key <> "__proto__")
    (Hlast : Forall (fun t => tokenKey t <> key) post) :
  exists lbls,
    parseReposForm (repoLine nm (pre ++ (key ++ "=")%string :: post)) true
    = Parsed [ {| name := nm; labels := Some lbls; archived := false |} ]
    /\ lbls !! key = Some (LNum (ofZ 0))
    /\ Number EmptyString = ofZ 0
    /\ isNaN (Number EmptyString) = false
    /\ LNum (ofZ 0) <> LStr EmptyString
    /\ (forall b, LNum (ofZ 0) <> LBool b).
Proof.
  set (token := (key ++ "=")%string).
  assert (Hc : coerceLabelToken token = (key, LNum (ofZ 0))).
  { unfold token. change (key ++ "=")%string with (key ++ "=" ++ "")%string.
    rewrite (coerceLabelToken_keyvalue _ _ Heq). reflexivity. }
  assert (Hk : tokenKey token = key) by (unfold tokenKey; rewrite Hc; reflexivity).
  assert (Hw : isWord token = true).
  { unfold isWord, token. apply andb_true_intro. split.
    - destruct key; reflexivity.
    - unfold noWhiteSpace. rewrite noneOf_app.
      fold (noWhiteSpace key). rewrite Hkey. reflexivity. }
  exists (parseLabelTokens (pre ++ token :: post)).
  split; [| split; [| repeat split; discriminate]].
  - apply parseReposForm_labels; [exact Hnm | | destruct pre; discriminate].
    apply Forall_app. split; [exact Hpre |]. constructor; assumption.
  - rewrite <- Hk at 1. rewrite parseLabelTokens_lookup.
    + rewrite Hc. reflexivity.
    + rewrite Hk. exact Hproto.
    + rewrite Hk. exact Hlast.
Qed.

(* ===================================================================== *)
(** ** FormCodec: decoding line by line *)
(* ===================================================================== *)

Lemma parseLoop_cons b l rest i acc :
  parseLoop b (l :: rest) i acc
  = match classify l with
    | Blank | Comment => parseLoop b rest (S i) acc
    | RepoUrl => parseLoop b rest (S i) (acc ++ [parseRepoLine b (trim l)])
    | Invalid => Thrown {| errLine := i + 1; errText := trim l |}
    end.
Proof.
  unfold classify. simpl.
  destruct (isEmpty (trim l)); [reflexivity |].
  destruct (firstIs "#" (trim l)); [reflexivity |].
  destruct (String.eqb _ _); reflexivity.
Qed.

Lemma parseLoop_valid b lines : forall i acc,
  Forall (fun l => classify l <> Invalid) lines ->
  parseLoop b lines i acc
  = Parsed (acc ++ map (fun l => parseRepoLine b (trim l))
                     (List.filter isRepoUrl lines)).
Proof.
  induction lines as [| l rest IH]; intros i acc H.
  - simpl. rewrite app_nil_r. reflexivity.
  - inversion H as [| ? ? Hl Hrest]; subst.
    rewrite parseLoop_cons.
    change (List.filter isRepoUrl (l :: rest))
      with (if isRepoUrl l then l :: List.filter isRepoUrl rest
            else List.filter isRepoUrl rest).
    unfold isRepoUrl at 1.
    destruct (classify l); try (apply IH, Hrest).
    + rewrite (IH _ _ Hrest), <- app_assoc. reflexivity.
    + congruence.
Qed.

Lemma parseLoop_first_invalid b pre l post : forall i acc,
  Forall (fun x => classify x <> Invalid) pre ->
  classify l = Invalid ->
  parseLoop b (pre ++ l :: post) i acc
  = Thrown {| errLine := i + length pre + 1; errText := trim l |}.
Proof.
  induction pre as [| x pre IH]; intros i acc Hpre Hl.
  - simpl app. rewrite parseLoop_cons, Hl. simpl. do 2 f_equal. lia.
  - inversion Hpre as [| ? ? Hx Hrest]; subst.
    simpl app. rewrite parseLoop_cons.
    destruct (classify x); try congruence;
      rewrite (IH _ _ Hrest Hl); simpl; do 2 f_equal; lia.
Qed.

(** Some invalid line is the first one. *)
Lemma first_invalid_exists lines :
  Exists (fun l => classify l = Invalid) lines ->
  exists pre l post,
    lines = pre ++ l :: post
    /\ Forall (fun x => classify x <> Invalid) pre
    /\ classify l = Invalid.
Proof.
  induction lines as [| x rest IH]; intros H; [inversion H |].
  destruct (classify x) eqn:E.
  1-3: (assert (Hr : Exists (fun l => classify l = Invalid) rest)
          by (inversion H; subst; [congruence | assumption]);
        destruct (IH Hr) as (pre & l & post & -> & Hpre & Hl);
        exists (x :: pre), l, post; split; [reflexivity |];
        split; [constructor; [congruence | exact Hpre] | exact Hl]).
  exists [], x, rest. split; [reflexivity |]. split; [constructor | exact E].
Qed.

(** C7, as the code has it: when some line of the form text is invalid
    (non-blank, not comment-marked, not starting with the base URL),
    decoding fails, and the error carries the 1-based number and the trimmed
    text of the first such line; when no line is invalid, decoding succeeds
    and only the lines that start with the base URL contribute entries, so
    blank and comment-marked lines cause no error and contribute nothing. *)
Theorem parse_error_first_invalid_line (text : string) (parseLabels : bool) :
  let lines := splitLines text in
  (forall i l,
      lines !! i = Some l -> classify l = Invalid ->
      (forall j l', (j < i)%nat -> lines !! j = Some l' -> classify l' <> Invalid) ->
      parseReposForm text parseLabels
      = Thrown {| errLine := i + 1; errText := trim l |})
  /\ (forall i l,
      lines !! i = Some l -> classify l = Invalid ->
      exists e, parseReposForm text parseLabels = Thrown e
                /\ (1 <= errLine e <= i + 1)%nat)
  /\ ((forall l, In l lines -> classify l <> Invalid) ->
      parseReposForm text parseLabels
      = Parsed (map (fun l => parseRepoLine parseLabels (trim l))
                  (List.filter isRepoUrl lines))).
Proof.
  intros lines. unfold parseReposForm. fold lines. split; [| split].
  - intros i l Hi Hl Hbefore.
    rewrite <- (take_drop_middle _ _ _ Hi).
    rewrite parseLoop_first_invalid; [| | exact Hl].
    + rewrite length_take_le by (apply lookup_lt_Some in Hi; lia). reflexivity.
    + apply Forall_lookup_2. intros j x Hj.
      apply lookup_take_Some in Hj as [Hj Hlt]. eapply Hbefore; eassumption.
  - intros i l Hi Hl.
    assert (Hex : Exists (fun x => classify x = Invalid) lines).
    { apply Exists_exists. exists l. split; [| exact Hl].
      eapply list_elem_of_lookup_2, Hi. }
    destruct (first_invalid_exists _ Hex) as (pre & x & post & E & Hpre & Hx).
    rewrite E, (parseLoop_first_invalid _ _ _ _ _ _ Hpre Hx).
    eexists. split; [reflexivity |]. simpl.
    assert (length pre <= i)%nat; [| lia].
    destruct (Nat.le_gt_cases (length pre) i) as [Hle | Hgt]; [exact Hle |].
    exfalso. rewrite E in Hi. rewrite lookup_app_l in Hi by exact Hgt.
    eapply Forall_lookup_1 in Hpre; [| exact Hi]. contradiction.
  - intros Hall. rewrite parseLoop_valid; [reflexivity |].
    apply Forall_forall. intros l Hl. apply Hall, (proj1 (list_elem_of_In _ _)), Hl.
Qed.

(* ===================================================================== *)
(** ** FormCodec: encoding, uncommenting and decoding *)
(* ===================================================================== *)

Lemma uncommentLinesFrom_0 lines :
  uncommentLinesFrom 0 lines = map uncommentLine lines.
Proof. induction lines as [| l rest IH]; simpl; [reflexivity | now rewrite IH]. Qed.

Lemma uncommentLinesFrom_app fm rest :
  uncommentLinesFrom (length fm) (fm ++ rest) = fm ++ map uncommentLine rest.
Proof.
  induction fm as [| l fm IH]; simpl.
  - apply uncommentLinesFrom_0.
  - rewrite IH. reflexivity.
Qed.

Lemma parseLoop_frontMatter b fm rest : forall i acc,
  Forall isFrontMatterLine fm ->
  parseLoop b (fm ++ rest) i acc = parseLoop b rest (i + length fm) acc.
Proof.
  induction fm as [| l fm IH]; intros i acc H.
  - simpl. f_equal. lia.
  - inversion H as [| ? ? [_ Hl] Hfm]; subst.
    simpl app. rewrite parseLoop_cons.
    replace (i + length (l :: fm))%nat with (S i + length fm)%nat by (simpl; lia).
    destruct Hl as [-> | ->]; apply IH, Hfm.
Qed.

Lemma parseLoop_names b repos : forall i acc,
  Forall (fun r => noWhiteSpace (name r) = true) repos ->
  parseLoop b (map (fun r => (JOYENT_REPO_BASE_URL ++ name r)%string) repos
               ++ [EmptyString]) i acc
  = Parsed (acc ++ map (fun r => repoNamed (name r)) repos).
Proof.
  induction repos as [| r repos IH]; intros i acc H.
  - simpl. rewrite app_nil_r. reflexivity.
  - inversion H as [| ? ? Hr Hrest]; subst.
    simpl map. simpl app.
    change (JOYENT_REPO_BASE_URL ++ name r)%string with (repoLine (name r) []).
    rewrite (parseLoop_repoLine _ _ _ _ _ _ Hr ltac:(constructor)).
    rewrite (IH _ _ Hrest), andb_false_r, <- app_assoc. reflexivity.
Qed.

Lemma noLineFeed_formLine pre nm :
  noLineFeed pre = true -> noWhiteSpace nm = true ->
  noLineFeed (pre ++ nm)%string = true.
Proof.
  intros Hp Hn. unfold noLineFeed. rewrite noneOf_app.
  fold (noLineFeed pre). fold (noLineFeed nm).
  rewrite Hp, (noWhiteSpace_noLineFeed _ Hn). reflexivity.
Qed.

(** C2, as the code has it: the encoder writes the name of each repo and
    never its labels.  For a front matter of blank or comment-marked lines
    and repo names without white space, decoding the encoded form with
    every repo line uncommented yields the repos' names, in order, each
    without labels; the label maps of the original list are not
    reproduced. *)
Theorem form_round_trip_names (frontMatter : option (list string))
    (repos : list repo) (parseLabels : bool)
    (Hfm : Forall isFrontMatterLine
             (match frontMatter with Some fm => fm | None => [] end))
    (Hnames : Forall (fun r => noWhiteSpace (name r) = true) repos) :
  let fm := match frontMatter with Some fm => fm | None => [] end in
  parseReposForm (uncommentFrom (length fm) (createReposForm frontMatter repos))
    parseLabels
  = Parsed (map (fun r => repoNamed (name r)) repos)
  /\ names (map (fun r => repoNamed (name r)) repos) = names repos
  /\ Forall (fun r => labels r = None) (map (fun r => repoNamed (name r)) repos).
Proof.
  intros fm. split; [| split].
  - unfold createReposForm. fold fm.
    set (cline := fun r => ("# " ++ JOYENT_REPO_BASE_URL ++ name r)%string).
    set (uline := fun r => (JOYENT_REPO_BASE_URL ++ name r)%string).
    destruct (fm ++ map cline repos) as [| x form] eqn:E.
    + apply app_eq_nil in E as [Efm Erepos].
      destruct repos; [| discriminate]. rewrite Efm. reflexivity.
    + rewrite <- E. rewrite <- join_snoc_empty by (rewrite E; discriminate).
      assert (Hlf1 : Forall (fun x => noLineFeed x = true)
                       ((fm ++ map cline repos) ++ [EmptyString])).
      { rewrite !Forall_app. split; [split |].
        - eapply Forall_impl; [exact Hfm |]. intros l [Hl _]. exact Hl.
        - apply Forall_map. eapply Forall_impl; [exact Hnames |].
          intros r Hr. unfold cline.
          change ("# " ++ JOYENT_REPO_BASE_URL ++ name r)%string
            with (("# " ++ JOYENT_REPO_BASE_URL) ++ name r)%string.
          apply noLineFeed_formLine; [reflexivity | exact Hr].
        - constructor; [reflexivity | constructor]. }
      unfold uncommentFrom.
      rewrite (splitLines_join _ Hlf1) by (destruct (fm ++ map cline repos); discriminate).
      rewrite <- app_assoc, uncommentLinesFrom_app, map_app, map_map.
      change (map uncommentLine [EmptyString]) with [EmptyString].
      assert (Hu : map (fun r => uncommentLine (cline r)) repos = map uline repos)
        by (apply map_ext; reflexivity).
      rewrite Hu. unfold parseReposForm.
      rewrite splitLines_join.
      * rewrite (parseLoop_frontMatter _ _ _ _ _ Hfm).
        apply (parseLoop_names _ _ _ [] Hnames).
      * rewrite !Forall_app. split; [| split].
        -- eapply Forall_impl; [exact Hfm |]. intros l [Hl _]. exact Hl.
        -- apply Forall_map. eapply Forall_impl; [exact Hnames |].
           intros r Hr. unfold uline.
           apply noLineFeed_formLine; [reflexivity | exact Hr].
        -- constructor; [reflexivity | constructor].
      * destruct fm; [destruct (map uline repos) |]; discriminate.
  - unfold names. rewrite map_map. reflexivity.
  - apply Forall_map. apply Forall_forall. intros. reflexivity.
Qed.

(* ===================================================================== *)
(** ** Reconciler: the dictionaries and the three differences *)
(* ===================================================================== *)

(** A key that is set reads as present: as an own property, or, for
    [__proto__], through the accessor. *)
Lemma dictHas_dictSet_same o k v : dictHas (dictSet o k v) k = true.
Proof.
  unfold dictHas, dictSet. destruct (String.eqb k "__proto__"); [reflexivity |].
  simpl. rewrite lookup_insert_eq. reflexivity.
Qed.

Lemma ownOrProto_dictHas o k : ownOrProto o k -> dictHas o k = true.
Proof.
  unfold dictHas. intros [-> | [v Hv]]; [reflexivity |].
  destruct (String.eqb k "__proto__"); [reflexivity |]. rewrite Hv. reflexivity.
Qed.

Lemma ownOrProto_dictSet o k v k' :
  ownOrProto o k' \/ k' = k -> ownOrProto (dictSet o k v) k'.
Proof.
  unfold ownOrProto, dictSet.
  destruct (String.eqb k "__proto__") eqn:E.
  - apply String.eqb_eq in E. subst k.
    intros [[-> | H] | ->]; try (left; reflexivity).
    right. destruct v; exact H.
  - simpl. intros [[-> | [x H]] | ->]; [left; reflexivity | right | right].
    + destruct (decide (k = k')) as [-> | Hne].
      * rewrite lookup_insert_eq. eauto.
      * rewrite lookup_insert_ne by exact Hne. eauto.
    + rewrite lookup_insert_eq. eauto.
Qed.

Lemma fold_dictSet_present {A} (key : A -> string) (val : A -> jsvalue) l :
  forall o k,
    ownOrProto o k \/ In k (map key l) ->
    ownOrProto (fold_left (fun o x => dictSet o (key x) (val x)) l o) k.
Proof.
  induction l as [| x l IH]; intros o k H; simpl.
  - destruct H as [H | []]. exact H.
  - apply IH. destruct H as [H | [H | H]].
    + left. apply ownOrProto_dictSet. left. exact H.
    + left. apply ownOrProto_dictSet. right. symmetry. exact H.
    + right. exact H.
Qed.

(** Every name put into a dictionary is found in it. *)
Lemma repoFromName_present rs n :
  In n (names rs) -> dictHas (repoFromName rs) n = true.
Proof.
  intros H. apply ownOrProto_dictHas.
  apply (fold_dictSet_present name VObj). right. exact H.
Qed.

Lemma excRepoFromName_present ns n :
  In n ns -> dictHas (excRepoFromName ns) n = true.
Proof.
  intros H. apply ownOrProto_dictHas.
  apply (fold_dictSet_present (fun n => n) (fun _ => VTrue)). right.
  rewrite map_id. exact H.
Qed.

Lemma inherited_proto : inherited "__proto__" = true.
Proof. reflexivity. Qed.

Lemma plainOver_dictSet o ks k v :
  inherited k = false -> plainOver o ks -> plainOver (dictSet o k v) (ks ++ [k]).
Proof.
  intros Hk [Hp Hown]. unfold dictSet.
  destruct (String.eqb k "__proto__") eqn:E.
  - apply String.eqb_eq in E. subst k. rewrite inherited_proto in Hk. discriminate.
  - split; [exact Hp |]. intros k'. simpl. rewrite in_app_iff. simpl.
    destruct (decide (k = k')) as [-> | Hne].
    + rewrite lookup_insert_eq. split; [auto | eauto].
    + rewrite lookup_insert_ne by exact Hne. rewrite Hown.
      split; [auto | intros [H | [H | []]]; [exact H | contradiction]].
Qed.

Lemma fold_dictSet_plain {A} (key : A -> string) (val : A -> jsvalue) l :
  forall o ks,
    Forall (fun x => inherited (key x) = false) l ->
    plainOver o ks ->
    plainOver (fold_left (fun o x => dictSet o (key x) (val x)) l o)
      (ks ++ map key l).
Proof.
  induction l as [| x l IH]; intros o ks Hl Ho; simpl.
  - rewrite app_nil_r. exact Ho.
  - inversion Hl as [| ? ? Hx Hrest]; subst.
    replace (ks ++ key x :: map key l) with ((ks ++ [key x]) ++ map key l)
      by (rewrite <- app_assoc; reflexivity).
    apply IH; [exact Hrest |]. apply plainOver_dictSet; assumption.
Qed.

Lemma plainOver_empty : plainOver emptyDict [].
Proof.
  split; [reflexivity |]. intros k. simpl. rewrite lookup_empty.
  split; [intros [? H]; discriminate | intros []].
Qed.

(** On a plain dictionary, a name that is not inherited is found exactly
    when it was put in. *)
Lemma plainOver_dictHas o ks k :
  plainOver o ks -> inherited k = false ->
  dictHas o k = bool_decide (k ∈ ks).
Proof.
  intros [Hp Hown] Hk. unfold dictHas.
  destruct (String.eqb k "__proto__") eqn:E.
  - apply String.eqb_eq in E. subst k. rewrite inherited_proto in Hk. discriminate.
  - rewrite Hp, Hk. destruct (own o !! k) eqn:El.
    + symmetry. apply bool_decide_eq_true. apply list_elem_of_In, Hown. eauto.
    + symmetry. apply bool_decide_eq_false. intros Hin.
      apply list_elem_of_In, Hown in Hin. destruct Hin as [? Hin]. congruence.
Qed.

Lemma repoFromName_exact rs k :
  Forall (fun r => inherited (name r) = false) rs -> inherited k = false ->
  dictHas (repoFromName rs) k = bool_decide (k ∈ names rs).
Proof.
  intros Hrs Hk. apply plainOver_dictHas; [| exact Hk].
  apply (fold_dictSet_plain name VObj rs emptyDict [] Hrs plainOver_empty).
Qed.

Lemma excRepoFromName_exact ns k :
  Forall (fun n => inherited n = false) ns -> inherited k = false ->
  dictHas (excRepoFromName ns) k = bool_decide (k ∈ ns).
Proof.
  intros Hns Hk. apply plainOver_dictHas; [| exact Hk].
  pose proof (fold_dictSet_plain (fun n => n) (fun _ => VTrue) ns emptyDict []
                Hns plainOver_empty) as H.
  simpl in H. rewrite map_id in H. exact H.
Qed.

(** The reconciliation as set differences by name, for names no plain
    object inherits. *)
Lemma categorize_exact m cands :
  plainNames m cands ->
  categorize m cands
  = ( List.filter (fun r => negb (bool_decide (name r ∈ names cands)))
        (repositories m),
      map repoNamed
        (List.filter (fun n => negb (bool_decide (n ∈ names cands)))
           (excludedRepositories m)),
      List.filter
        (fun r => negb (bool_decide (name r ∈ names (repositories m)))
                  && negb (bool_decide (name r ∈ excludedRepositories m)))
        cands ).
Proof.
  intros (HR & HE & HC). unfold categorize.
  f_equal; [f_equal |].
  - apply filter_ext_in. intros r Hr. f_equal.
    apply repoFromName_exact; [exact HC |].
    rewrite List.Forall_forall in HR. apply HR, Hr.
  - f_equal. apply filter_ext_in. intros n Hn. f_equal.
    apply repoFromName_exact; [exact HC |].
    rewrite List.Forall_forall in HE. apply HE, Hn.
  - apply filter_ext_in. intros r Hr.
    rewrite List.Forall_forall in HC. specialize (HC _ Hr).
    rewrite (repoFromName_exact _ _ HR HC), (excRepoFromName_exact _ _ HE HC).
    reflexivity.
Qed.

(** C1, at a name that every plain object inherits: a tracked repo named
    [constructor] and an excluded name [toString] are absent from the
    candidates, and the candidate [valueOf] is neither tracked nor excluded,
    yet the dictionaries of [categorizeRepos] report all three as present,
    so nothing is gone and nothing is new. *)
Theorem categorize_inherited_names :
  let m := {| description := ""; repositories := [repoNamed "constructor"];
              excludedRepositories := ["toString"];
              repoCandidateSearch :=
                {| searchType := Some "public"; includeArchived := false;
                   searchDescription := "" |};
              blessedLabels := []; defaultLabels := None; otherFields := [] |} in
  let cands := [repoNamed "valueOf"] in
  categorize m cands = ([], [], [])
  /\ ~ In "constructor" (names cands)
  /\ ~ In "toString" (names cands)
  /\ ~ In "valueOf" (names (repositories m))
  /\ ~ In "valueOf" (excludedRepositories m).
Proof.
  simpl. split; [vm_compute; reflexivity |].
  repeat split; intros [H | []]; discriminate H.
Qed.

(** What the dictionaries report is never more than the set differences:
    a gone repo is a tracked repo absent from the candidates, and a new
    repo is a candidate neither tracked nor excluded. *)
Lemma categorize_sound m cands gone goneExc new :
  categorize m cands = (gone, goneExc, new) ->
  (forall r, In r gone -> In r (repositories m) /\ ~ In (name r) (names cands))
  /\ (forall r, In r goneExc ->
        In (name r) (excludedRepositories m) /\ ~ In (name r) (names cands))
  /\ (forall r, In r new ->
        In r cands /\ ~ In (name r) (names (repositories m))
        /\ ~ In (name r) (excludedRepositories m)).
Proof.
  unfold categorize. intros E. inversion E; subst; clear E.
  split; [| split].
  - intros r Hr. apply filter_In in Hr as [Hin Hb]. split; [exact Hin |].
    intros Hc. rewrite (repoFromName_present _ _ Hc) in Hb. discriminate.
  - intros r Hr. apply in_map_iff in Hr as (n & <- & Hn).
    apply filter_In in Hn as [Hin Hb]. split; [exact Hin |].
    intros Hc. simpl in Hc. rewrite (repoFromName_present _ _ Hc) in Hb.
    discriminate.
  - intros r Hr. apply filter_In in Hr as [Hin Hb].
    apply andb_prop in Hb as [Hb1 Hb2]. split; [exact Hin |]. split.
    + intros Hc. rewrite (repoFromName_present _ _ Hc) in Hb1. discriminate.
    + intros Hc. rewrite (excRepoFromName_present _ _ Hc) in Hb2. discriminate.
Qed.

(* ===================================================================== *)
(** ** CurationSession: the removal stage *)
(* ===================================================================== *)

Lemma nameSet_has rs n : bool_decide (n ∈ nameSet rs) = bool_decide (n ∈ names rs).
Proof. apply bool_decide_ext. unfold nameSet. apply elem_of_list_to_set. Qed.

Lemma removeGone_repositories m gone goneExc :
  repositories (removeGone m gone goneExc)
  = List.filter (fun r => negb (bool_decide (name r ∈ names gone)))
      (repositories m).
Proof.
  unfold removeGone. simpl. apply filter_ext. intros r.
  rewrite nameSet_has. reflexivity.
Qed.

Lemma removeGone_excluded m gone goneExc :
  excludedRepositories (removeGone m gone goneExc)
  = List.filter (fun n => negb (bool_decide (n ∈ names goneExc)))
      (excludedRepositories m).
Proof.
  unfold removeGone. simpl. apply filter_ext. intros r.
  rewrite nameSet_has. reflexivity.
Qed.

Lemma length_nonzero {A} (l : list A) : l <> [] -> (length l =? 0)%nat = false.
Proof. destruct l; [congruence | reflexivity]. Qed.

(** What the removal stage computes on the answer [y] with a write that
    succeeds, and on any other answer. *)
Lemma removeGoneRepos_yes ctx w rest ws :
  goneRepos ctx ++ goneExcRepos ctx <> [] ->
  yesNoAnswers w = AnsText "y" :: rest -> writeResults w = true :: ws ->
  removeGoneRepos ctx w
  = (Ok,
     withManifest ctx
       (removeGone (ctxManifest ctx) (goneRepos ctx) (goneExcRepos ctx)),
     withWrite (withYesNo w rest) ws
       (manifestFile w
        ++ [stringify
              (removeGone (ctxManifest ctx) (goneRepos ctx) (goneExcRepos ctx))])).
Proof.
  intros Hgone Hyes Hwr. unfold removeGoneRepos, promptYesNo, saveManifest.
  rewrite (length_nonzero _ Hgone), Hyes. simpl. rewrite Hwr. reflexivity.
Qed.

Lemma removeGoneRepos_no ctx w a rest :
  goneRepos ctx ++ goneExcRepos ctx <> [] ->
  yesNoAnswers w = a :: rest -> answerIs "y" a = false ->
  removeGoneRepos ctx w = (Ok, ctx, withYesNo w rest).
Proof.
  intros Hgone Hans Hno. unfold removeGoneRepos, promptYesNo.
  rewrite (length_nonzero _ Hgone), Hans, Hno. reflexivity.
Qed.

(** C9: in the removal stage, on the answer [y] the manifest the session
    holds afterwards has exactly the gone names removed from [repositories]
    and the gone excluded names from [excludedRepositories], its other
    fields are as before, and its JSON text is written to the manifest
    file; on any other answer the context, hence every field of the
    manifest, is as before and nothing is written. *)
Theorem removal_stage (ctx : context) (w : world)
    (Hgone : goneRepos ctx ++ goneExcRepos ctx <> []) :
  (forall rest ws,
      yesNoAnswers w = AnsText "y" :: rest -> writeResults w = true :: ws ->
      let m := ctxManifest ctx in
      let r := removeGoneRepos ctx w in
      let m' := ctxManifest (snd (fst r)) in
      fst (fst r) = Ok
      /\ repositories m'
         = List.filter (fun r => negb (bool_decide (name r ∈ names (goneRepos ctx))))
             (repositories m)
      /\ excludedRepositories m'
         = List.filter (fun n => negb (bool_decide (n ∈ names (goneExcRepos ctx))))
             (excludedRepositories m)
      /\ (forall x, In x (repositories m') <->
                    In x (repositories m) /\ ~ In (name x) (names (goneRepos ctx)))
      /\ (forall n, In n (excludedRepositories m') <->
                    In n (excludedRepositories m)
                    /\ ~ In n (names (goneExcRepos ctx)))
      /\ description m' = description m
      /\ repoCandidateSearch m' = repoCandidateSearch m
      /\ blessedLabels m' = blessedLabels m
      /\ defaultLabels m' = defaultLabels m
      /\ otherFields m' = otherFields m
      /\ manifestFile (snd r) = manifestFile w ++ [stringify m']
      /\ writeResults (snd r) = ws
      /\ yesNoAnswers (snd r) = rest)
  /\ (forall a rest,
      yesNoAnswers w = a :: rest -> answerIs "y" a = false ->
      let r := removeGoneRepos ctx w in
      fst (fst r) = Ok
      /\ snd (fst r) = ctx
      /\ ctxManifest (snd (fst r)) = ctxManifest ctx
      /\ manifestFile (snd r) = manifestFile w
      /\ writeResults (snd r) = writeResults w
      /\ yesNoAnswers (snd r) = rest).
Proof.
  split.
  - intros rest ws Hyes Hwr m r m'. unfold m', r.
    rewrite (removeGoneRepos_yes _ _ _ _ Hgone Hyes Hwr).
    cbn [fst snd ctxManifest withManifest manifestFile writeResults
           yesNoAnswers withWrite withYesNo].
    split; [reflexivity |].
    split; [apply removeGone_repositories |].
    split; [apply removeGone_excluded |].
    split; [| split; [| repeat split]].
    + intros x. rewrite removeGone_repositories, filter_In.
      rewrite negb_true_iff, bool_decide_eq_false, list_elem_of_In. reflexivity.
    + intros n. rewrite removeGone_excluded, filter_In.
      rewrite negb_true_iff, bool_decide_eq_false, list_elem_of_In. reflexivity.
  - intros a rest Hans Hno r. unfold r.
    rewrite (removeGoneRepos_no _ _ _ _ Hgone Hans Hno). repeat split.
Qed.

(* ===================================================================== *)
(** ** EditRetryLoop *)
(* ===================================================================== *)

Lemma parseLoop_errLine b lines : forall i acc e,
  parseLoop b lines i acc = Thrown e -> (i + 1 <= errLine e)%nat.
Proof.
  induction lines as [| l rest IH]; intros i acc e H; [discriminate |].
  rewrite parseLoop_cons in H.
  destruct (classify l); try (apply IH in H; lia).
  inversion H; subst. simpl. lia.
Qed.

Lemma parseReposForm_errLine text b e :
  parseReposForm text b = Thrown e -> (0 <? errLine e)%nat = true.
Proof.
  unfold parseReposForm. intros H. apply parseLoop_errLine in H.
  apply Nat.ltb_lt. lia.
Qed.

Lemma editAttempt_exit b editor : forall enters text line calls,
  loopExit b editor enters (fst (editAttempt b editor enters text line calls)).
Proof.
  induction editor as [| r editor IH]; intros enters text line calls.
  - exact I.
  - destruct r as [t | msg]; simpl.
    + destruct (parseReposForm t b) as [repos | e] eqn:E.
      * simpl. exists t. split; [left; reflexivity | exact E].
      * destruct enters as [| [|] enters]; simpl.
        -- exact I.
        -- specialize (IH enters t
                         (if (0 <? errLine e)%nat then Some (errLine e) else None)
                         (calls ++ [(text, line)])).
           destruct (editAttempt _ _ _ _ _ _) as [out rest]. simpl in *.
           destruct out as [repos | [] |]; simpl in *; try exact IH.
           ++ destruct IH as (t' & Hin & Hp). exists t'. split; [right |]; assumption.
           ++ right. exact IH.
           ++ right. exact IH.
        -- left. reflexivity.
    + left. reflexivity.
Qed.

Lemma editAttempt_retries b bad : forall good repos ed en text line calls,
  Forall (parseFails b) bad ->
  parseReposForm good b = Parsed repos ->
  editAttempt b (map EditorText bad ++ EditorText good :: ed)
    (repeat true (length bad) ++ en) text line calls
  = (Edited repos,
     (ed, en,
      calls ++ (text, line) :: map (fun t => (t, failingLine b t)) bad)).
Proof.
  induction bad as [| t bad IH]; intros good repos ed en text line calls Hbad Hgood.
  - simpl. rewrite Hgood. reflexivity.
  - inversion Hbad as [| ? ? [e He] Hrest]; subst.
    simpl. rewrite He. rewrite (parseReposForm_errLine _ _ _ He).
    rewrite (IH _ _ _ _ _ _ _ Hrest Hgood).
    unfold failingLine at 2. rewrite He. rewrite <- app_assoc. reflexivity.
Qed.

Lemma editAttempt_abort b bad : forall t ed en text line calls,
  Forall (parseFails b) bad -> parseFails b t ->
  editAttempt b (map EditorText bad ++ EditorText t :: ed)
    (repeat true (length bad) ++ false :: en) text line calls
  = (EditErr AbortTrue,
     (ed, en,
      calls ++ (text, line) :: map (fun t => (t, failingLine b t)) bad)).
Proof.
  induction bad as [| x bad IH]; intros t ed en text line calls Hbad [e Ht].
  - simpl. rewrite Ht. reflexivity.
  - inversion Hbad as [| ? ? [e' He] Hrest]; subst.
    simpl. rewrite He. rewrite (parseReposForm_errLine _ _ _ He).
    rewrite (IH _ _ _ _ _ _ Hrest (ex_intro _ e Ht)).
    unfold failingLine at 2. rewrite He. rewrite <- app_assoc. reflexivity.
Qed.

Lemma editAttempt_editor_fails b bad : forall msg ed en text line calls,
  Forall (parseFails b) bad ->
  editAttempt b (map EditorText bad ++ EditorFailed msg :: ed)
    (repeat true (length bad) ++ en) text line calls
  = (EditErr (EditorError msg),
     (ed, en,
      calls ++ (text, line) :: map (fun t => (t, failingLine b t)) bad)).
Proof.
  induction bad as [| x bad IH]; intros msg ed en text line calls Hbad.
  - reflexivity.
  - inversion Hbad as [| ? ? [e' He] Hrest]; subst.
    simpl. rewrite He. rewrite (parseReposForm_errLine _ _ _ He).
    rewrite (IH _ _ _ _ _ _ Hrest).
    unfold failingLine at 2. rewrite He. rewrite <- app_assoc. reflexivity.
Qed.

(** The line an error names is a line of the text, and it is invalid. *)
Lemma parseLoop_thrown_line b lines : forall i acc e,
  parseLoop b lines i acc = Thrown e ->
  exists l, lines !! (errLine e - (i + 1))%nat = Some l /\ classify l = Invalid.
Proof.
  induction lines as [| x rest IH]; intros i acc e H; [discriminate |].
  rewrite parseLoop_cons in H. destruct (classify x) eqn:E.
  1-3: (pose proof (parseLoop_errLine _ _ _ _ _ H) as Hle;
        destruct (IH _ _ _ H) as (l & Hl & Hc); exists l; split; [| exact Hc];
        replace (errLine e - (i + 1))%nat with (S (errLine e - (S i + 1)))%nat
          by lia;
        exact Hl).
  inversion H; subst. exists x. split; [| exact E].
  simpl. replace (i + 1 - (i + 1))%nat with 0%nat by lia. reflexivity.
Qed.

(** The line the cursor is put on after a failing edit is the line the
    parser's error names, an invalid line of the text just edited. *)
Lemma failingLine_thrown b t :
  parseFails b t ->
  exists e l, parseReposForm t b = Thrown e
              /\ failingLine b t = Some (errLine e)
              /\ (1 <= errLine e)%nat
              /\ splitLines t !! (errLine e - 1)%nat = Some l
              /\ classify l = Invalid.
Proof.
  intros [e He].
  destruct (parseLoop_thrown_line _ _ _ _ _ He) as (l & Hl & Hc).
  exists e, l. split; [exact He |]. unfold failingLine.
  rewrite He. split; [reflexivity |].
  split; [apply parseReposForm_errLine, Nat.ltb_lt in He; lia |].
  split; [exact Hl | exact Hc].
Qed.

(** C6, as the code has it: a parse failure of the edited text is handled
    inside the loop.  After any number of failing edits, each answered with
    Enter, the editor has been presented once with the form and once more
    after each failing edit, with the text of that edit and the cursor on
    the line its error names, an invalid line of that text.  From there the loop returns in three ways:
    with the parsed list when the next edit parses, with the abort value
    when the next edit fails and the retry prompt is answered with Ctrl+C,
    and with the editor's own error when the editor reports one.  Whatever
    the editor and the prompt answer these are the only ways it returns,
    and a parse error is never handed to the caller. *)
Theorem edit_retry_loop (frontMatter : option (list string))
    (repos : list repo) (parseLabels : bool) (w : world)
    (bad : list string) (next : editorResult)
    (ed : list editorResult) (en : list bool)
    (Hbad : Forall (parseFails parseLabels) bad)
    (Heditor : editorResults w = map EditorText bad ++ next :: ed)
    (Henter : enterAnswers w = repeat true (length bad) ++ en) :
  let fm := match frontMatter with Some fm => fm | None => [] end in
  let r := editReposInEditor frontMatter repos parseLabels w in
  let presented :=
    editorCalls w
    ++ (createReposForm (Some fm) repos, Some (length fm + 1)%nat)
    :: map (fun t => (t, failingLine parseLabels t)) bad in
  (forall good accepted,
      next = EditorText good ->
      parseReposForm good parseLabels = Parsed accepted ->
      fst r = Edited accepted
      /\ editorCalls (snd r) = presented
      /\ editorResults (snd r) = ed
      /\ enterAnswers (snd r) = en)
  /\ (forall t en',
      next = EditorText t -> parseFails parseLabels t -> en = false :: en' ->
      fst r = EditErr AbortTrue
      /\ editorCalls (snd r) = presented
      /\ editorResults (snd r) = ed
      /\ enterAnswers (snd r) = en')
  /\ (forall msg,
      next = EditorFailed msg ->
      fst r = EditErr (EditorError msg)
      /\ editorCalls (snd r) = presented
      /\ editorResults (snd r) = ed
      /\ enterAnswers (snd r) = en)
  /\ (forall t, In t bad ->
        exists e l, parseReposForm t parseLabels = Thrown e
                    /\ failingLine parseLabels t = Some (errLine e)
                    /\ (1 <= errLine e)%nat
                    /\ splitLines t !! (errLine e - 1)%nat = Some l
                    /\ classify l = Invalid)
  /\ (forall w',
        loopExit parseLabels (editorResults w') (enterAnswers w')
          (fst (editReposInEditor frontMatter repos parseLabels w')))
  /\ (forall w' e,
        fst (editReposInEditor frontMatter repos parseLabels w')
        <> EditErr (FormatErr e)).
Proof.
  intros fm r presented.
  assert (Hexit : forall w',
             loopExit parseLabels (editorResults w') (enterAnswers w')
               (fst (editReposInEditor frontMatter repos parseLabels w'))).
  { intros w'. unfold editReposInEditor.
    pose proof (editAttempt_exit parseLabels (editorResults w') (enterAnswers w')
                  (createReposForm (Some fm) repos) (Some (length fm + 1)%nat)
                  (editorCalls w')) as H.
    fold fm. destruct (editAttempt _ _ _ _ _ _) as [out [[a b] c]]. exact H. }
  split; [| split; [| split; [| split; [| split; [exact Hexit |]]]]].
  - intros good accepted -> Hgood. unfold r, editReposInEditor. fold fm.
    rewrite Heditor, Henter.
    rewrite (editAttempt_retries _ _ _ _ _ _ _ _ _ Hbad Hgood).
    repeat split.
  - intros t en' -> Ht ->. unfold r, editReposInEditor. fold fm.
    rewrite Heditor, Henter.
    rewrite (editAttempt_abort _ _ _ _ _ _ _ _ Hbad Ht).
    repeat split.
  - intros msg ->. unfold r, editReposInEditor. fold fm.
    rewrite Heditor, Henter.
    rewrite (editAttempt_editor_fails _ _ _ _ _ _ _ _ Hbad).
    repeat split.
  - intros t Ht. apply failingLine_thrown.
    apply (proj1 (List.Forall_forall _ _) Hbad), Ht.
  - intros w' e H. specialize (Hexit w'). rewrite H in Hexit. exact Hexit.
Qed.

(* ===================================================================== *)
(** ** CurationSession: the pipeline *)
(* ===================================================================== *)

Lemma pipeline_ok f rest ctx w ctx' w' :
  f ctx w = (Ok, ctx', w') -> pipeline (f :: rest) ctx w = pipeline rest ctx' w'.
Proof. intros H. simpl. rewrite H. reflexivity. Qed.

Lemma pipeline_err f rest ctx w e ctx' w' :
  f ctx w = (Err e, ctx', w') -> pipeline (f :: rest) ctx w = (Err e, ctx', w').
Proof. intros H. simpl. rewrite H. reflexivity. Qed.

Lemma editReposInEditor_file fm repos b w out w1 :
  editReposInEditor fm repos b w = (out, w1) ->
  manifestFile w1 = manifestFile w /\ writeResults w1 = writeResults w
  /\ yesNoAnswers w1 = yesNoAnswers w.
Proof.
  unfold editReposInEditor.
  destruct (editAttempt _ _ _ _ _ _) as [o [[a c] d]].
  intros H. inversion H; subst. repeat split.
Qed.

Lemma editReposInEditor_accepted fm repos b w rs w1 :
  editReposInEditor fm repos b w = (Edited rs, w1) ->
  exists t, In (EditorText t) (editorResults w) /\ parseReposForm t b = Parsed rs.
Proof.
  intros H.
  pose proof (editAttempt_exit b (editorResults w) (enterAnswers w)
                (createReposForm (Some (match fm with Some x => x | None => [] end)) repos)
                (Some (length (match fm with Some x => x | None => [] end) + 1)%nat)
                (editorCalls w)) as Hexit.
  unfold editReposInEditor in H.
  destruct (editAttempt _ _ _ _ _ _) as [o [[a c] d]].
  inversion H; subst. exact Hexit.
Qed.

Section Session.
Variable L : libs.

Lemma inclusion_declined ctx w rest :
  newRepos ctx <> [] -> enterAnswers w = false :: rest ->
  pipeline (afterRemoval L) ctx w
  = (Ok, withAddNewExcluded (withAddNewRepos ctx false) false, withEnter w rest).
Proof.
  intros Hnew Hen. unfold afterRemoval.
  rewrite (pipeline_ok _ _ _ _ (withAddNewRepos ctx false) (withEnter w rest)).
  - reflexivity.
  - unfold confirmAddNewRepos, promptEnter.
    rewrite (length_nonzero _ Hnew), Hen. reflexivity.
Qed.

Lemma exclusion_declined ctx w rest :
  addNewRepos ctx = true -> remainingRepos ctx <> [] ->
  enterAnswers w = false :: rest ->
  pipeline exclusionStages ctx w = (Ok, withAddNewExcluded ctx false, withEnter w rest).
Proof.
  intros Hadd Hrem Hen. unfold exclusionStages.
  rewrite (pipeline_ok _ _ _ _ (withAddNewExcluded ctx false) (withEnter w rest)).
  - reflexivity.
  - unfold confirmAddNewExcludedRepos, promptEnter.
    rewrite Hadd, (length_nonzero _ Hrem), Hen. reflexivity.
Qed.

Lemma inclusion_aborted ctx w e w1 later :
  addNewRepos ctx = true ->
  editReposInEditor (Some (includeFrontMatter L (ctxManifest ctx)))
    (remainingRepos ctx) true w = (EditErr e, w1) ->
  pipeline (addNewIncludedRepos L :: later) ctx w = (Err e, ctx, w1).
Proof.
  intros Hadd Hed. apply pipeline_err.
  unfold addNewIncludedRepos. rewrite Hadd, Hed. reflexivity.
Qed.

Lemma exclusion_aborted ctx w e w1 later :
  ctxAddNewExcludedRepos ctx = true ->
  editReposInEditor (Some excludeFrontMatter) (remainingRepos ctx) false w
  = (EditErr e, w1) ->
  pipeline (addNewExcludedRepos :: later) ctx w = (Err e, ctx, w1).
Proof.
  intros Hadd Hed. apply pipeline_err.
  unfold addNewExcludedRepos. rewrite Hadd, Hed. reflexivity.
Qed.

(** C4, as the code has it: declining the removal prompt, the inclusion
    prompt or the exclusion prompt skips that stage only and the stages
    after it are run; an error from the edit/retry loop (the abort at its
    retry prompt, or the editor's failure) is passed to the pipeline, which
    stops: no later stage is run.  The context and the manifest file are as
    the earlier stages left them. *)
Theorem decline_skips_stage_abort_ends_run (ctx : context) (w : world) :
  (forall a rest,
      goneRepos ctx ++ goneExcRepos ctx <> [] ->
      yesNoAnswers w = a :: rest -> answerIs "y" a = false ->
      pipeline (curationStages L) ctx w
      = pipeline (afterRemoval L) ctx (withYesNo w rest))
  /\ (forall rest,
      newRepos ctx <> [] -> enterAnswers w = false :: rest ->
      pipeline (afterRemoval L) ctx w
      = (Ok, withAddNewExcluded (withAddNewRepos ctx false) false,
         withEnter w rest))
  /\ (forall rest,
      addNewRepos ctx = true -> remainingRepos ctx <> [] ->
      enterAnswers w = false :: rest ->
      pipeline exclusionStages ctx w
      = (Ok, withAddNewExcluded ctx false, withEnter w rest))
  /\ (forall e w1 later,
      addNewRepos ctx = true ->
      editReposInEditor (Some (includeFrontMatter L (ctxManifest ctx)))
        (remainingRepos ctx) true w = (EditErr e, w1) ->
      pipeline (addNewIncludedRepos L :: later) ctx w = (Err e, ctx, w1)
      /\ manifestFile w1 = manifestFile w)
  /\ (forall e w1 later,
      ctxAddNewExcludedRepos ctx = true ->
      editReposInEditor (Some excludeFrontMatter) (remainingRepos ctx) false w
      = (EditErr e, w1) ->
      pipeline (addNewExcludedRepos :: later) ctx w = (Err e, ctx, w1)
      /\ manifestFile w1 = manifestFile w).
Proof.
  split; [| split; [| split; [| split]]].
  - intros a rest Hgone Hans Hno. unfold curationStages.
    apply pipeline_ok. unfold removeGoneRepos, promptYesNo.
    rewrite (length_nonzero _ Hgone), Hans, Hno. reflexivity.
  - intros rest. apply inclusion_declined.
  - intros rest. apply exclusion_declined.
  - intros e w1 later Hadd Hed. split.
    + apply inclusion_aborted; assumption.
    + apply (editReposInEditor_file _ _ _ _ _ _ Hed).
  - intros e w1 later Hadd Hed. split.
    + apply exclusion_aborted; assumption.
    + apply (editReposInEditor_file _ _ _ _ _ _ Hed).
Qed.

End Session.

(* ===================================================================== *)
(** ** CurationSession: the candidate source *)
(* ===================================================================== *)

Lemma filter_all {A} (f : A -> bool) l :
  (forall x, In x l -> f x = true) -> List.filter f l = l.
Proof.
  induction l as [| x l IH]; intros H; simpl; [reflexivity |].
  rewrite (H x (or_introl eq_refl)), IH; [reflexivity |].
  intros y Hy. apply H. right. exact Hy.
Qed.

Lemma categorize_no_candidates m :
  Forall (fun r => inherited (name r) = false) (repositories m) ->
  Forall (fun n => inherited n = false) (excludedRepositories m) ->
  categorize m [] = (repositories m, map repoNamed (excludedRepositories m), []).
Proof.
  intros HR HE. rewrite categorize_exact by (repeat split; auto).
  simpl. rewrite !filter_all; [reflexivity | |];
    intros x _; reflexivity.
Qed.

(** The run up to the end of the reconciliation. *)
Lemma run_to_categories (L : libs) m w repos :
  searchType (repoCandidateSearch m) <> None ->
  github w = Fetched repos ->
  updateManifest L m w
  = pipeline (curationStages L)
      (let c := keptCandidates m repos in
       let '(gone, goneExc, new) := categorize m c in
       withCategories (withCandidates (initialContext m) c) gone goneExc new)
      w.
Proof.
  intros Htype Hfetch. unfold updateManifest. simpl app.
  rewrite (pipeline_ok _ _ _ _
             (withCandidates (initialContext m) (keptCandidates m repos)) w).
  - rewrite (pipeline_ok _ _ _ _ _ _ eq_refl), (pipeline_ok _ _ _ _ _ _ eq_refl).
    apply pipeline_ok. unfold categorizeRepos. simpl.
    destruct (categorize m (keptCandidates m repos)) as [[gone goneExc] new].
    reflexivity.
  - unfold fetchCandidateRepos. simpl.
    destruct (searchType (repoCandidateSearch m)); [| congruence].
    rewrite Hfetch. reflexivity.
Qed.

(** C3, as the code has it: when the call to the candidate source fails,
    the run ends with that failure before any reconciliation, prompt or
    write.  An empty candidate set is not a failure: it is reconciled as a
    set of zero candidates, so that, for names no plain object inherits,
    every tracked repo and every excluded name is classified as gone and no
    repo is new, and the session goes on with the removal stage; there,
    any answer but yes leaves the manifest as it was and nothing is
    written. *)
Theorem candidate_source_failure (L : libs) (m : manifest) (w : world)
    (Htype : searchType (repoCandidateSearch m) <> None) :
  (forall code,
      github w = FetchFailed code ->
      updateManifest L m w = (Err (GitHubApiError code), initialContext m, w))
  /\ (forall repos,
      github w = Fetched repos -> keptCandidates m repos = [] ->
      Forall (fun r => inherited (name r) = false) (repositories m) ->
      Forall (fun n => inherited n = false) (excludedRepositories m) ->
      updateManifest L m w
      = pipeline (curationStages L)
          (withCategories (withCandidates (initialContext m) [])
             (repositories m) (map repoNamed (excludedRepositories m)) [])
          w)
  /\ (forall repos a rest,
      github w = Fetched repos -> keptCandidates m repos = [] ->
      Forall (fun r => inherited (name r) = false) (repositories m) ->
      Forall (fun n => inherited n = false) (excludedRepositories m) ->
      repositories m ++ map repoNamed (excludedRepositories m) <> [] ->
      yesNoAnswers w = a :: rest -> answerIs "y" a = false ->
      exists ctx',
        updateManifest L m w = (Ok, ctx', withYesNo w rest)
        /\ ctxManifest ctx' = m
        /\ manifestFile (withYesNo w rest) = manifestFile w).
Proof.
  assert (Hrun : forall repos,
             github w = Fetched repos -> keptCandidates m repos = [] ->
             Forall (fun r => inherited (name r) = false) (repositories m) ->
             Forall (fun n => inherited n = false) (excludedRepositories m) ->
             updateManifest L m w
             = pipeline (curationStages L)
                 (withCategories (withCandidates (initialContext m) [])
                    (repositories m) (map repoNamed (excludedRepositories m)) [])
                 w).
  { intros repos Hfetch Hempty HR HE.
    rewrite (run_to_categories _ _ _ _ Htype Hfetch), Hempty.
    cbv zeta. rewrite (categorize_no_candidates _ HR HE). reflexivity. }
  split; [| split; [exact Hrun |]].
  - intros code Hfetch. unfold updateManifest. simpl app.
    apply pipeline_err. unfold fetchCandidateRepos. simpl.
    destruct (searchType (repoCandidateSearch m)); [| congruence].
    rewrite Hfetch. reflexivity.
  - intros repos a rest Hfetch Hempty HR HE Hgone Hans Hno.
    rewrite (Hrun _ Hfetch Hempty HR HE). unfold curationStages.
    set (ctx0 := withCategories (withCandidates (initialContext m) [])
                   (repositories m) (map repoNamed (excludedRepositories m)) []).
    rewrite (pipeline_ok removeGoneRepos _ ctx0 w ctx0 (withYesNo w rest)).
    + eexists. split; [reflexivity |]. split; reflexivity.
    + unfold removeGoneRepos, promptYesNo. simpl goneRepos. simpl goneExcRepos.
      rewrite (length_nonzero _ Hgone), Hans, Hno. reflexivity.
Qed.

(* ===================================================================== *)
(** ** The manifest invariant *)
(* ===================================================================== *)

Lemma NoDup_map_filter {A B} (f : A -> B) (p : A -> bool) l :
  NoDup (map f l) -> NoDup (map f (List.filter p l)).
Proof.
  induction l as [| x l IH]; simpl; intros H; [constructor |].
  apply NoDup_cons in H as [Hx Hl].
  destruct (p x); simpl; [| apply IH, Hl].
  apply NoDup_cons. split; [| apply IH, Hl].
  intros Hin. apply Hx. apply list_elem_of_In in Hin. apply list_elem_of_In.
  apply in_map_iff in Hin as (y & Hy & Hin). apply filter_In in Hin as [Hin _].
  apply in_map_iff. exists y. split; assumption.
Qed.

Lemma removeGone_inv m gone goneExc :
  manifestInv m -> manifestInv (removeGone m gone goneExc).
Proof.
  intros (HR & HE & HD). unfold manifestInv.
  rewrite removeGone_repositories, removeGone_excluded.
  split; [| split].
  - apply NoDup_map_filter, HR.
  - rewrite <- (map_id (List.filter _ _)). apply NoDup_map_filter.
    rewrite map_id. exact HE.
  - intros n Hn Hex. apply filter_In in Hex as [Hex _].
    apply (HD n); [| exact Hex].
    apply in_map_iff in Hn as (r & Hr & Hin). apply filter_In in Hin as [Hin _].
    apply in_map_iff. exists r. split; assumption.
Qed.

Lemma mergeIncluded_inv (L : libs) ctx rs :
  (forall l, Permutation (sortArrayOfObjects L l) l) ->
  manifestInv (ctxManifest ctx) ->
  NoDup (names rs) ->
  (forall n, In n (names rs) ->
     ~ In n (names (repositories (ctxManifest ctx)))
     /\ ~ In n (excludedRepositories (ctxManifest ctx))) ->
  manifestInv (ctxManifest (mergeIncluded L ctx rs)).
Proof.
  intros Hsort (HR & HE & HD) Hnd Hfresh. unfold mergeIncluded, manifestInv. simpl.
  assert (Hp : Permutation
                 (names (sortArrayOfObjects L (repositories (ctxManifest ctx) ++ rs)))
                 (names (repositories (ctxManifest ctx)) ++ names rs)).
  { unfold names. rewrite <- map_app. apply Permutation_map, Hsort. }
  split; [| split; [exact HE |]].
  - rewrite Hp.
    apply NoDup_app. split; [exact HR |]. split; [| exact Hnd].
    intros n Hn Hn'. apply list_elem_of_In in Hn, Hn'.
    apply (proj1 (Hfresh n Hn')), Hn.
  - intros n Hn. eapply Permutation_in in Hn; [| exact Hp].
    apply in_app_iff in Hn as [Hn | Hn];
      [apply HD, Hn | apply (proj2 (Hfresh n Hn))].
Qed.

Lemma appendExcluded_inv ctx rs :
  manifestInv (ctxManifest ctx) ->
  NoDup (names rs) ->
  (forall n, In n (names rs) ->
     ~ In n (names (repositories (ctxManifest ctx)))
     /\ ~ In n (excludedRepositories (ctxManifest ctx))) ->
  manifestInv (ctxManifest (appendExcluded ctx rs)).
Proof.
  intros (HR & HE & HD) Hnd Hfresh. unfold appendExcluded, manifestInv. simpl.
  assert (Hp : Permutation
                 (sortStrings (excludedRepositories (ctxManifest ctx) ++ names rs))
                 (excludedRepositories (ctxManifest ctx) ++ names rs))
    by apply merge_sort_Permutation.
  split; [exact HR | split].
  - rewrite Hp.
    apply NoDup_app. split; [exact HE |]. split; [| exact Hnd].
    intros n Hn Hn'. apply list_elem_of_In in Hn, Hn'.
    apply (proj2 (Hfresh n Hn')), Hn.
  - intros n Hn Hex. eapply Permutation_in in Hex; [| exact Hp].
    apply in_app_iff in Hex as [Hex | Hex]; [apply (HD n Hn), Hex |].
    apply (proj1 (Hfresh n Hex)), Hn.
Qed.

(** C8, as the code has it: the session has no check for duplicates, so the
    invariant is kept only for edits that bring new names.  Every stage
    preserves the uniqueness of names within [repositories], within
    [excludedRepositories], and their disjointness, provided the entries
    the parser accepts from an edited form have pairwise distinct names
    that are in neither list yet. *)
Theorem stages_preserve_invariant (L : libs)
    (Hsort : forall l, Permutation (sortArrayOfObjects L l) l)
    (f : stage) (ctx : context) (w : world)
    (st : status) (ctx' : context) (w' : world)
    (Hf : In f ([ fetchCandidateRepos; cacheIt; loadCache; categorizeRepos ]
                ++ curationStages L))
    (Hinv : manifestInv (ctxManifest ctx))
    (Hfresh : freshEdits (ctxManifest ctx) w)
    (Hrun : f ctx w = (st, ctx', w')) :
  manifestInv (ctxManifest ctx').
Proof.
  simpl in Hf.
  destruct Hf as [<- | [<- | [<- | [<- | [<- | [<- | [<- | [<- | [<- | []]]]]]]]]].
  - unfold fetchCandidateRepos in Hrun. stage_cases Hrun; exact Hinv.
  - inversion Hrun; subst. exact Hinv.
  - inversion Hrun; subst. exact Hinv.
  - unfold categorizeRepos in Hrun. stage_cases Hrun. exact Hinv.
  - unfold removeGoneRepos, saveManifest in Hrun. stage_cases Hrun;
      try exact Hinv; simpl; apply removeGone_inv, Hinv.
  - unfold confirmAddNewRepos in Hrun. stage_cases Hrun; exact Hinv.
  - unfold addNewIncludedRepos in Hrun.
    destruct (negb (addNewRepos ctx)); [inversion Hrun; subst; exact Hinv |].
    destruct (editReposInEditor _ _ _ _) as [[rs | e |] w1] eqn:Hed;
      try (inversion Hrun; subst; exact Hinv).
    destruct (length rs =? 0)%nat; [inversion Hrun; subst; exact Hinv |].
    destruct (saveManifest _ _) as [st2 w2]. inversion Hrun; subst.
    destruct (editReposInEditor_accepted _ _ _ _ _ _ Hed) as (t & Hin & Hp).
    destruct (Hfresh _ _ _ Hin Hp) as [Hnd Hnew].
    apply mergeIncluded_inv; assumption.
  - unfold confirmAddNewExcludedRepos in Hrun. stage_cases Hrun; exact Hinv.
  - unfold addNewExcludedRepos in Hrun.
    destruct (negb (ctxAddNewExcludedRepos ctx)); [inversion Hrun; subst; exact Hinv |].
    destruct (editReposInEditor _ _ _ _) as [[rs | e |] w1] eqn:Hed;
      try (inversion Hrun; subst; exact Hinv).
    destruct (length rs =? 0)%nat; [inversion Hrun; subst; exact Hinv |].
    destruct (saveManifest _ _) as [st2 w2]. inversion Hrun; subst.
    destruct (editReposInEditor_accepted _ _ _ _ _ _ Hed) as (t & Hin & Hp).
    destruct (Hfresh _ _ _ Hin Hp) as [Hnd Hnew].
    apply appendExcluded_inv; assumption.
Qed.

(* ===================================================================== *)
(** ** The claims on concrete inputs *)
(* ===================================================================== *)

Lemma sortByName_Permutation l : Permutation (sortByName l) l.
Proof. apply merge_sort_Permutation. Qed.

(** The encoder does not write labels: a repo with the label [x] comes
    back from the uncommented form without labels. *)
Lemma form_drops_labels :
  let r := {| name := "a"; labels := Some (<["x" := LBool true]> ∅);
              archived := false |} in
  parseReposForm (uncommentFrom 0 (createReposForm None [r])) true
  = Parsed [repoNamed "a"]
  /\ map labels [repoNamed "a"] <> map labels [r].
Proof.
  split; [vm_compute; reflexivity |].
  simpl. intros H. inversion H.
Qed.

Lemma form_round_trip_names_witness :
  let fm := [ "# Uncomment the repos to include."; "" ] in
  let repos := [ {| name := "a"; labels := Some (<["x" := LBool true]> ∅);
                   archived := false |}; repoNamed "b" ] in
  parseReposForm (uncommentFrom 2 (createReposForm (Some fm) repos)) true
  = Parsed [repoNamed "a"; repoNamed "b"].
Proof.
  intros fm repos.
  refine (proj1 (form_round_trip_names (Some fm) repos true _ _)).
  - constructor; [split; [reflexivity | right; reflexivity] |].
    constructor; [split; [reflexivity | left; reflexivity] |].
    constructor.
  - repeat constructor.
Defined.

(** An empty candidate set is reconciled: both tracked repos and the
    excluded name are classified as gone, and the yes answer empties the
    manifest, which is written. *)
Lemma empty_candidate_set_is_reconciled :
  let m := sampleManifest [repoNamed "a"; repoNamed "b"] ["x"] in
  let w := sampleWorld (Fetched []) [AnsText "y"] [] [] [true] in
  let r := updateManifest sampleLibs m w in
  fst (fst r) = Ok
  /\ goneRepos (snd (fst r)) = repositories m
  /\ names (goneExcRepos (snd (fst r))) = excludedRepositories m
  /\ repositories (ctxManifest (snd (fst r))) = []
  /\ excludedRepositories (ctxManifest (snd (fst r))) = []
  /\ manifestFile (snd r) = [stringify (sampleManifest [] [])].
Proof. vm_compute. repeat split; reflexivity. Qed.

Lemma candidate_source_failure_witness :
  let m := sampleManifest [repoNamed "a"; repoNamed "b"] ["x"] in
  updateManifest sampleLibs m (sampleWorld (FetchFailed 503%Z) [] [] [] [])
  = (Err (GitHubApiError 503%Z), initialContext m,
     sampleWorld (FetchFailed 503%Z) [] [] [] [])
  /\ updateManifest sampleLibs m (sampleWorld (Fetched []) [] [] [] [])
     = pipeline (curationStages sampleLibs)
         (withCategories (withCandidates (initialContext m) [])
            (repositories m) (map repoNamed (excludedRepositories m)) [])
         (sampleWorld (Fetched []) [] [] [] []).
Proof.
  intros m. split.
  - refine (proj1 (candidate_source_failure sampleLibs m
                     (sampleWorld (FetchFailed 503%Z) [] [] [] []) _) 503%Z _).
    + discriminate.
    + reflexivity.
  - refine (proj1 (proj2 (candidate_source_failure sampleLibs m
                     (sampleWorld (Fetched []) [] [] [] []) _)) [] _ _ _ _).
    + discriminate.
    + reflexivity.
    + reflexivity.
    + repeat constructor.
    + repeat constructor.
Defined.

(** An abort at the retry prompt of the inclusion stage ends the run: the
    exclusion stage's precondition holds and its answers are at hand, but it
    is never run, although running it from there would have gone through. *)
Lemma abort_in_edit_loop_ends_run :
  let m := sampleManifest [] [] in
  let w := sampleWorld (Fetched [repoNamed "a"; repoNamed "b"]) []
             [true; false; true] [EditorText "oops"; EditorText ""] [true] in
  let r := updateManifest sampleLibs m w in
  fst (fst r) = Err AbortTrue
  /\ addNewRepos (snd (fst r)) = true
  /\ remainingRepos (snd (fst r)) = [repoNamed "a"; repoNamed "b"]
  /\ enterAnswers (snd r) = [true]
  /\ editorResults (snd r) = [EditorText ""]
  /\ length (editorCalls (snd r)) = 1%nat
  /\ fst (fst (pipeline (exclusionStages) (snd (fst r)) (snd r))) = Ok
  /\ length (editorCalls (snd (pipeline (exclusionStages) (snd (fst r)) (snd r))))
     = 2%nat.
Proof. vm_compute. repeat split; reflexivity. Qed.

Lemma decline_skips_stage_abort_ends_run_witness :
  let m := sampleManifest [repoNamed "a"; repoNamed "b"] [] in
  let declined := sampleContext m [repoNamed "b"] [] [] false [] false in
  let pending := sampleContext m [] [] [repoNamed "c"] true [repoNamed "c"] false in
  let editing := sampleContext m [] [] [repoNamed "c"] true [repoNamed "c"] true in
  let keys := sampleWorld (Fetched []) [] [false] [] [] in
  let aborting := sampleWorld (Fetched []) [] [false; true] [EditorText "oops"] [] in
  pipeline (curationStages sampleLibs) declined
    (sampleWorld (Fetched []) [AnsText "n"] [] [] [])
  = pipeline (afterRemoval sampleLibs) declined (sampleWorld (Fetched []) [] [] [] [])
  /\ pipeline (afterRemoval sampleLibs) pending keys
     = (Ok, withAddNewExcluded (withAddNewRepos pending false) false,
        sampleWorld (Fetched []) [] [] [] [])
  /\ pipeline exclusionStages pending keys
     = (Ok, withAddNewExcluded pending false, sampleWorld (Fetched []) [] [] [] [])
  /\ fst (pipeline (addNewIncludedRepos sampleLibs :: exclusionStages)
            pending aborting)
     = (Err AbortTrue, pending)
  /\ fst (pipeline [addNewExcludedRepos] editing aborting)
     = (Err AbortTrue, editing).
Proof.
  intros m declined pending editing keys aborting.
  split; [| split; [| split; [| split]]].
  - refine (proj1 (decline_skips_stage_abort_ends_run sampleLibs declined
                     (sampleWorld (Fetched []) [AnsText "n"] [] [] []))
              (AnsText "n") [] _ _ _).
    + discriminate.
    + reflexivity.
    + reflexivity.
  - refine (proj1 (proj2 (decline_skips_stage_abort_ends_run sampleLibs pending keys))
              [] _ _).
    + discriminate.
    + reflexivity.
  - refine (proj1 (proj2 (proj2
              (decline_skips_stage_abort_ends_run sampleLibs pending keys)))
              [] _ _ _).
    + reflexivity.
    + discriminate.
    + reflexivity.
  - rewrite (proj1 (proj1 (proj2 (proj2 (proj2
               (decline_skips_stage_abort_ends_run sampleLibs pending aborting))))
               AbortTrue
               (snd (editReposInEditor
                       (Some (includeFrontMatter sampleLibs (ctxManifest pending)))
                       (remainingRepos pending) true aborting))
               exclusionStages eq_refl ltac:(vm_compute; reflexivity))).
    reflexivity.
  - rewrite (proj1 (proj2 (proj2 (proj2 (proj2
               (decline_skips_stage_abort_ends_run sampleLibs editing aborting))))
               AbortTrue
               (snd (editReposInEditor (Some excludeFrontMatter)
                       (remainingRepos editing) false aborting))
               [] eq_refl ltac:(vm_compute; reflexivity))).
    reflexivity.
Defined.

(** Of two tokens with one key the later one decides the label, and a
    token whose key is [__proto__] leaves no label: the tokens [a=3] and
    [__proto__=1] are coerced to numbers, and neither number is a label of
    its line. *)
Lemma later_token_decides_label :
  coerceLabelToken "a=3" = ("a", LNum (ofZ 3))
  /\ parseReposForm (url "r a=3 a") true
     = Parsed [ {| name := "r";
                   labels := Some (<["a" := LBool true]> (∅ : gmap string labelval));
                   archived := false |} ]
  /\ coerceLabelToken "__proto__=1" = ("__proto__", LNum (ofZ 1))
  /\ parseReposForm (url "r __proto__=1") true
     = Parsed [ {| name := "r"; labels := Some (∅ : gmap string labelval);
                   archived := false |} ].
Proof. vm_compute. repeat split; reflexivity. Qed.

Lemma label_token_coercion_witness :
  exists lbls,
    parseReposForm (url "c x=1 y x=2.5 z=1e400") true
    = Parsed [ {| name := "c"; labels := Some lbls; archived := false |} ]
    /\ lbls !! "x" = Some (LNum (Finite (5 # 2)))
    /\ lbls !! "__proto__" = None.
Proof.
  destruct (label_token_coercion "c" ["x=1"; "y"] ["z=1e400"] "x=2.5" eq_refl
              ltac:(repeat constructor)
              ltac:(vm_compute; discriminate)
              ltac:(repeat constructor; vm_compute; discriminate))
    as (lbls & Hp & _ & _ & Hkv & Hproto).
  exists lbls. split; [exact Hp |]. split; [| exact Hproto].
  exact (proj2 (Hkv "x" "2.5" eq_refl eq_refl)).
Defined.

(** An error of the editor itself ends the loop: after a failing edit
    answered with Enter the editor reports an error, and the loop returns
    that error, which is neither a parsed list nor the abort of the retry
    prompt (no prompt was answered with Ctrl+C). *)
Lemma editor_error_leaves_loop :
  let w := sampleWorld (Fetched []) [] [true]
             [EditorText "oops"; EditorFailed "exited with status 1"] [] in
  let r := editReposInEditor None [repoNamed "a"] true w in
  fst r = EditErr (EditorError "exited with status 1")
  /\ (forall rs, fst r <> Edited rs)
  /\ fst r <> EditErr AbortTrue
  /\ ~ In false (enterAnswers w)
  /\ enterAnswers (snd r) = [].
Proof.
  vm_compute. repeat split; try discriminate.
  intros [H | []]. discriminate H.
Qed.

Lemma edit_retry_loop_witness :
  let fm := [ "# Uncomment the repos to include."; "#"; "" ] in
  let repos := [ repoNamed "a"; repoNamed "c"; repoNamed "b" ] in
  let w := sampleWorld (Fetched []) []
             [true] [EditorText formWithBadLine; EditorText formCorrected] [] in
  let r := editReposInEditor (Some fm) repos true w in
  fst r = Edited formCorrectedRepos
  /\ editorCalls (snd r)
     = [ (createReposForm (Some fm) repos, Some 4%nat);
         (formWithBadLine, Some 5%nat) ]
  /\ editorResults (snd r) = []
  /\ enterAnswers (snd r) = [].
Proof.
  intros fm repos w r.
  assert (Hbad : Forall (parseFails true) [formWithBadLine]).
  { constructor; [| constructor].
    exists {| errLine := 5; errText := "not-a-valid-url" |}.
    vm_compute. reflexivity. }
  exact (proj1 (edit_retry_loop (Some fm) repos true w
                  [formWithBadLine] (EditorText formCorrected) [] []
                  Hbad eq_refl eq_refl)
           formCorrected formCorrectedRepos eq_refl
           ltac:(vm_compute; reflexivity)).
Defined.

(** With two invalid lines the error names the first: the second line of
    this text is invalid, and the error carries line 1 and its text. *)
Lemma error_carries_first_invalid_line_only :
  let text := ("x" ++ nl ++ "y")%string in
  splitLines text !! 1%nat = Some "y"
  /\ classify "y" = Invalid
  /\ parseReposForm text true = Thrown {| errLine := 1; errText := "x" |}
  /\ parseReposForm text true <> Thrown {| errLine := 2; errText := "y" |}.
Proof.
  split; [reflexivity |]. split; [reflexivity |].
  split; [vm_compute; reflexivity |].
  vm_compute. intros H. inversion H.
Qed.

Lemma parse_error_first_invalid_line_witness :
  parseReposForm formWithBadLine true
  = Thrown {| errLine := 5; errText := "not-a-valid-url" |}
  /\ parseReposForm formCorrected true = Parsed formCorrectedRepos.
Proof.
  split.
  - refine (proj1 (parse_error_first_invalid_line formWithBadLine true)
              4%nat "not-a-valid-url" _ _ _).
    + reflexivity.
    + reflexivity.
    + intros j l' Hj Hl.
      do 4 (destruct j as [| j];
            [vm_compute in Hl; injection Hl as <-; vm_compute; discriminate |]).
      lia.
  - rewrite (proj2 (proj2 (parse_error_first_invalid_line formCorrected true))).
    + vm_compute. reflexivity.
    + intros l Hl. vm_compute in Hl.
      repeat (destruct Hl as [<- | Hl]; [vm_compute; discriminate |]).
      destruct Hl.
Defined.

(** An edited form with the same repo line twice is accepted by the parser,
    and the inclusion stage merges both entries: the names in
    [repositories] are no longer unique. *)
Lemma duplicate_edit_breaks_invariant :
  let m := sampleManifest [repoNamed "a"] [] in
  let w := sampleWorld (Fetched [repoNamed "a"; repoNamed "b"]) [] [true]
             [EditorText (url "b" ++ nl ++ url "b")%string] [true] in
  let r := updateManifest sampleLibs m w in
  manifestInv m
  /\ parseReposForm (url "b" ++ nl ++ url "b")%string true
     = Parsed [repoNamed "b"; repoNamed "b"]
  /\ fst (fst r) = Ok
  /\ names (repositories (ctxManifest (snd (fst r)))) = ["a"; "b"; "b"]
  /\ ~ manifestInv (ctxManifest (snd (fst r))).
Proof.
  intros m w r.
  assert (E : names (repositories (ctxManifest (snd (fst r)))) = ["a"; "b"; "b"])
    by (vm_compute; reflexivity).
  split; [| split; [| split; [| split]]].
  - split; [| split].
    + apply NoDup_singleton.
    + apply NoDup_nil. exact I.
    + intros n _ [].
  - vm_compute. reflexivity.
  - vm_compute. reflexivity.
  - exact E.
  - intros [H _]. rewrite E in H.
    apply NoDup_cons in H as [_ H]. apply NoDup_cons in H as [H _].
    apply H. left.
Qed.

Lemma stages_preserve_invariant_witness :
  let m := sampleManifest [repoNamed "a"] ["x"] in
  let ctx := sampleContext m [] [] [repoNamed "c"] true [repoNamed "c"] false in
  let w := sampleWorld (Fetched []) [] [] [EditorText (url "c y")] [true] in
  names (repositories (ctxManifest (snd (fst (addNewIncludedRepos sampleLibs ctx w)))))
  = ["a"; "c"]
  /\ manifestInv (ctxManifest (snd (fst (addNewIncludedRepos sampleLibs ctx w)))).
Proof.
  intros m ctx w. split; [vm_compute; reflexivity |].
  refine (stages_preserve_invariant sampleLibs sortByName_Permutation
            (addNewIncludedRepos sampleLibs) ctx w
            (fst (fst (addNewIncludedRepos sampleLibs ctx w)))
            (snd (fst (addNewIncludedRepos sampleLibs ctx w)))
            (snd (addNewIncludedRepos sampleLibs ctx w)) _ _ _ _).
  - simpl. tauto.
  - split; [| split].
    + apply NoDup_singleton.
    + apply NoDup_singleton.
    + intros n [<- | []] [H | []]. discriminate H.
  - intros t b rs [Ht | []] Hp. injection Ht as <-.
    assert (Hn : names rs = ["c"])
      by (destruct b; vm_compute in Hp; injection Hp as <-; reflexivity).
    rewrite Hn. split; [apply NoDup_singleton |].
    intros n [<- | []]. split; intros [H | []]; discriminate H.
  - vm_compute. reflexivity.
Defined.

Lemma removal_stage_witness :
  let m := sampleManifest [repoNamed "a"; repoNamed "b"] ["x"] in
  let ctx := sampleContext m [repoNamed "b"] [repoNamed "x"] [] false [] false in
  let yes :=
    removeGoneRepos ctx (sampleWorld (Fetched []) [AnsText "y"] [] [] [true]) in
  let no :=
    removeGoneRepos ctx (sampleWorld (Fetched []) [AnsText "n"] [] [] [true]) in
  repositories (ctxManifest (snd (fst yes))) = [repoNamed "a"]
  /\ excludedRepositories (ctxManifest (snd (fst yes))) = []
  /\ manifestFile (snd yes) = [stringify (sampleManifest [repoNamed "a"] [])]
  /\ ctxManifest (snd (fst no)) = m
  /\ manifestFile (snd no) = []
  /\ writeResults (snd no) = [true].
Proof.
  intros m ctx yes no.
  pose proof (proj1 (removal_stage ctx
                       (sampleWorld (Fetched []) [AnsText "y"] [] [] [true])
                       ltac:(discriminate))
                [] [] eq_refl eq_refl) as Hy.
  pose proof (proj2 (removal_stage ctx
                       (sampleWorld (Fetched []) [AnsText "n"] [] [] [true])
                       ltac:(discriminate))
                (AnsText "n") [] eq_refl eq_refl) as Hn.
  cbv zeta in Hy, Hn.
  destruct Hy as (_ & Hr & He & _ & _ & _ & _ & _ & _ & _ & Hf & _).
  destruct Hn as (_ & _ & Hm & Hf' & Hw & _).
  split; [exact Hr |]. split; [exact He |]. split; [exact Hf |].
  split; [exact Hm |]. split; [exact Hf' | exact Hw].
Defined.

(** A token [k=] followed by a token with the same key, and the token
    [__proto__=]: the line's label object holds the string [x] under [k] in
    the first case and no label at all in the second, not the number 0. *)
Lemma empty_value_not_kept :
  coerceLabelToken "k=" = ("k", LNum (ofZ 0))
  /\ parseReposForm (url "r k= k=x") true
     = Parsed [ {| name := "r";
                   labels := Some (<["k" := LStr "x"]> (∅ : gmap string labelval));
                   archived := false |} ]
  /\ coerceLabelToken "__proto__=" = ("__proto__", LNum (ofZ 0))
  /\ parseReposForm (url "r __proto__=") true
     = Parsed [ {| name := "r"; labels := Some (∅ : gmap string labelval);
                   archived := false |} ].
Proof. vm_compute. repeat split; reflexivity. Qed.

Lemma empty_value_is_zero_witness :
  exists lbls,
    parseReposForm (url "r a k= b=x") true
    = Parsed [ {| name := "r"; labels := Some lbls; archived := false |} ]
    /\ lbls !! "k" = Some (LNum (ofZ 0)).
Proof.
  destruct (empty_value_is_zero "r" "k" ["a"] ["b=x"] eq_refl eq_refl eq_refl
              ltac:(repeat constructor) ltac:(repeat constructor)
              ltac:(discriminate)
              ltac:(repeat constructor; vm_compute; discriminate))
    as (lbls & Hp & Hl & _).
  exists lbls. split; [exact Hp | exact Hl].
Defined.

(** The coercions the specification lists. *)
Example coerce_bare : parseLabelTokens ["a"] = <["a" := LBool true]> ∅.
Proof. vm_compute. reflexivity. Qed.

Example coerce_true : parseLabelTokens ["a=true"] = <["a" := LBool true]> ∅.
Proof. vm_compute. reflexivity. Qed.

Example coerce_false : parseLabelTokens ["a=false"] = <["a" := LBool false]> ∅.
Proof. vm_compute. reflexivity. Qed.

Example coerce_number : parseLabelTokens ["a=3"] = <["a" := LNum (ofZ 3)]> ∅.
Proof. vm_compute. reflexivity. Qed.

Example coerce_string : parseLabelTokens ["a=x"] = <["a" := LStr "x"]> ∅.
Proof. vm_compute. reflexivity. Qed.

Example coerce_empty : parseLabelTokens ["a="] = <["a" := LNum (ofZ 0)]> ∅.
Proof. vm_compute. reflexivity. Qed.

(** A label named [__proto__] is not stored, and of two tokens with one key
    the later one stays. *)
Example coerce_proto : parseLabelTokens ["__proto__"; "a"] = <["a" := LBool true]> ∅.
Proof. vm_compute. reflexivity. Qed.

Example coerce_twice : parseLabelTokens ["a="; "a=x"] = <["a" := LStr "x"]> ∅.
Proof. vm_compute. reflexivity. Qed.

Example Number_examples :
  Number "3" = ofZ 3 /\ Number "" = ofZ 0 /\ Number "x" = NaN
  /\ Number "1.5e1" = ofZ 15 /\ Number "0x1f" = ofZ 31
  /\ Number "-.25" = Finite (Qmake (-1) 4) /\ Number "." = NaN
  /\ Number "1e" = NaN /\ Number "-Infinity" = Infinity true
  /\ Number "12px" = NaN.
Proof. vm_compute. repeat split; reflexivity. Qed.

(** Rounding to binary64: past [2^53] not every integer is a value, a tie
    goes to the even neighbour, large values overflow to an infinity and
    small ones underflow to a subnormal or to 0. *)
Example Number_rounding :
  Number "9007199254740993" = ofZ 9007199254740992
  /\ Number "9007199254740995" = ofZ 9007199254740996
  /\ Number "0.1" = Finite (Qmake 3602879701896397 36028797018963968)
  /\ Number "1e23" = ofZ 99999999999999991611392
  /\ Number "1e400" = Infinity false /\ Number "-1e400" = Infinity true
  /\ Number "1e-400" = ofZ 0
  /\ Number "1.7976931348623158e308" = Number "1.7976931348623157e308"
  /\ Number "1.7976931348623159e308" = Infinity false
  /\ Number "5e-324" = Finite (scale2 1 (-1074))
  /\ Number "2e-324" = ofZ 0.
Proof. vm_compute. repeat split; reflexivity. Qed.

(** A label that is not a finite number is written as [null]. *)
Example stringify_null :
  let r v := {| name := "c";
                labels := Some (<["k" := v]> (∅ : gmap string labelval));
                archived := false |} in
  parseReposForm (url "c k=Infinity") true = Parsed [r (LNum (Infinity false))]
  /\ stringify (sampleManifest [r (LNum (Infinity false))] [])
     = JsonText (sampleManifest [r LNull] [])
  /\ stringify (sampleManifest [r (LNum (ofZ 3))] [])
     = JsonText (sampleManifest [r (LNum (ofZ 3))] []).
Proof. vm_compute. repeat split; reflexivity. Qed.

Example split_examples :
  splitSpaces "a  b c" = ["a"; "b"; "c"] /\ splitSpaces " a " = [""; "a"; ""]
  /\ trim "  a b  " = "a b" /\ splitLines ("a" ++ nl ++ nl)%string = ["a"; ""; ""].
Proof. vm_compute. repeat split; reflexivity. Qed.

(** The scenarios of the specification: a tracked repo no longer among the
    candidates is removed on confirmation, and a new candidate uncommented
    with labels is merged and the list sorted by name. *)
Example scenario_removal :
  let m := sampleManifest [repoNamed "a"; repoNamed "b"] [] in
  let w := sampleWorld (Fetched [repoNamed "a"]) [AnsText "y"] [] [] [true] in
  let r := updateManifest sampleLibs m w in
  goneRepos (snd (fst r)) = [repoNamed "b"]
  /\ repositories (ctxManifest (snd (fst r))) = [repoNamed "a"].
Proof. vm_compute. split; reflexivity. Qed.

Example scenario_inclusion :
  let m := sampleManifest [repoNamed "a"; repoNamed "d"] [] in
  let w := sampleWorld (Fetched [repoNamed "a"; repoNamed "d"; repoNamed "c"])
             [] [true] [EditorText (url "c x=1 y")] [true] in
  let r := updateManifest sampleLibs m w in
  repositories (ctxManifest (snd (fst r)))
  = [ repoNamed "a";
      {| name := "c";
         labels := Some (<["y" := LBool true]> (<["x" := LNum (ofZ 1)]> ∅));
         archived := false |};
      repoNamed "d" ].
Proof. vm_compute. reflexivity. Qed.



Example parse_labels :
  parseReposForm ("# c" ++ nl ++ nl ++ url "c x=1 y" ++ nl)%string true
  = Parsed [ {| name := "c";
                labels := Some (<["y" := LBool true]> (<["x" := LNum (ofZ 1)]> ∅));
                archived := false |} ].
Proof. vm_compute. reflexivity. Qed.

Example parse_error_message :
  errorMessage (mkFormatError 13 "x")
  = ("line 13 is not a github/joyent repo URL: " ++ dquote ++ "x" ++ dquote)%string.
Proof. vm_compute. reflexivity. Qed.

(* ===================================================================== *)
(** ** Further properties of the reconciliation *)
(* ===================================================================== *)

Lemma keptCandidates_In m repos r :
  In r (keptCandidates m repos)
  <-> In r repos
      /\ (includeArchived (repoCandidateSearch m) = true \/ archived r = false).
Proof.
  unfold keptCandidates.
  destruct (includeArchived (repoCandidateSearch m)); simpl.
  - split; [intros H; split; [exact H | left; reflexivity] | intros [H _]; exact H].
  - rewrite filter_In, negb_true_iff.
    split; intros [H1 H2]; (split; [exact H1 |]).
    + right. exact H2.
    + destruct H2 as [H2 | H2]; [discriminate | exact H2].
Qed.

Lemma filter_none {A} (f : A -> bool) l :
  (forall x, In x l -> f x = false) -> List.filter f l = [].
Proof.
  induction l as [| x l IH]; intros H; simpl; [reflexivity |].
  rewrite (H x (or_introl eq_refl)). apply IH.
  intros y Hy. apply H. right. exact Hy.
Qed.

(** X1: for repo names that no plain object inherits, the run up to the end
    of the reconciliation computes the three differences by name: gone repos
    are the tracked repos whose name is not a candidate's, gone excluded
    names likewise, new repos are the candidates neither tracked nor
    excluded, where the candidates are the fetched repos without the
    archived ones unless [includeArchived] is set. *)
Theorem reconciliation_exact (L : libs) (m : manifest) (w : world)
    (repos : list repo)
    (Htype : searchType (repoCandidateSearch m) <> None)
    (Hfetch : github w = Fetched repos)
    (Hplain : plainNames m (keptCandidates m repos)) :
  let cands := keptCandidates m repos in
  updateManifest L m w
  = pipeline (curationStages L)
      (withCategories (withCandidates (initialContext m) cands)
         (List.filter (fun r => negb (bool_decide (name r ∈ names cands)))
            (repositories m))
         (map repoNamed
            (List.filter (fun n => negb (bool_decide (n ∈ names cands)))
               (excludedRepositories m)))
         (List.filter
            (fun r => negb (bool_decide (name r ∈ names (repositories m)))
                      && negb (bool_decide (name r ∈ excludedRepositories m)))
            cands))
      w
  /\ forall r, In r cands
               <-> In r repos
                   /\ (includeArchived (repoCandidateSearch m) = true
                       \/ archived r = false).
Proof.
  intros cands. subst cands. split; [| intros r; apply keptCandidates_In].
  rewrite (run_to_categories _ _ _ _ Htype Hfetch). cbv zeta.
  rewrite (categorize_exact _ _ Hplain). reflexivity.
Qed.

(** X2: whatever the names are, the reconciliation never reports too much:
    a repo reported gone is tracked and is no candidate, a name reported
    gone is excluded and is no candidate, a repo reported new is a candidate
    that is neither tracked nor excluded; and no candidate's name is
    reported gone. *)
Theorem reconciliation_never_overreports (m : manifest) (cands : list repo) :
  let gone := fst (fst (categorize m cands)) in
  let goneExc := snd (fst (categorize m cands)) in
  let new := snd (categorize m cands) in
  (forall r, In r gone -> In r (repositories m) /\ ~ In (name r) (names cands))
  /\ (forall r, In r goneExc ->
        In (name r) (excludedRepositories m) /\ ~ In (name r) (names cands))
  /\ (forall r, In r new ->
        In r cands /\ ~ In (name r) (names (repositories m))
        /\ ~ In (name r) (excludedRepositories m))
  /\ (forall r c, In r (gone ++ goneExc) -> In c new -> name r <> name c).
Proof.
  intros gone goneExc new.
  destruct (categorize_sound m cands gone goneExc new) as (Hg & He & Hn).
  { unfold gone, goneExc, new. destruct (categorize m cands) as [[a b] c].
    reflexivity. }
  split; [exact Hg |]. split; [exact He |]. split; [exact Hn |].
  intros r c Hr Hc Heq. destruct (Hn c Hc) as [Hin _].
  assert (Hnames : In (name r) (names cands)).
  { rewrite Heq. apply in_map. exact Hin. }
  apply in_app_iff in Hr as [Hr | Hr].
  - apply (Hg r Hr). exact Hnames.
  - apply (He r Hr). exact Hnames.
Qed.

(** X3: unless [includeArchived] is set, a tracked repo that the candidate
    source returns only as archived is classified as gone (for names no
    plain object inherits). *)
Theorem archived_repo_is_gone (m : manifest) (repos : list repo) (r : repo)
    (Harch : includeArchived (repoCandidateSearch m) = false)
    (Hplain : plainNames m (keptCandidates m repos))
    (Hr : In r (repositories m))
    (Hall : forall c, In c repos -> name c = name r -> archived c = true) :
  In r (fst (fst (categorize m (keptCandidates m repos)))).
Proof.
  rewrite (categorize_exact _ _ Hplain). simpl.
  apply filter_In. split; [exact Hr |].
  apply negb_true_iff, bool_decide_eq_false. intros Hin.
  apply list_elem_of_In, in_map_iff in Hin as (c & Hname & Hc).
  apply keptCandidates_In in Hc as [Hc [Hinc | Hna]].
  - congruence.
  - rewrite (Hall c Hc Hname) in Hna. discriminate.
Qed.

(** X4: the removal is idempotent: once the gone repos and gone excluded
    names are removed from the manifest, reconciling the manifest with the
    same candidates again reports nothing gone. *)
Theorem removal_leaves_nothing_gone (m : manifest) (cands : list repo) :
  let gone := fst (fst (categorize m cands)) in
  let goneExc := snd (fst (categorize m cands)) in
  let m' := removeGone m gone goneExc in
  fst (fst (categorize m' cands)) = []
  /\ snd (fst (categorize m' cands)) = [].
Proof.
  intros gone goneExc m'.
  assert (Hg : fst (fst (categorize m' cands))
               = List.filter (fun r => negb (dictHas (repoFromName cands) (name r)))
                   (repositories m')) by reflexivity.
  assert (He : snd (fst (categorize m' cands))
               = map repoNamed
                   (List.filter (fun n => negb (dictHas (repoFromName cands) n))
                      (excludedRepositories m'))) by reflexivity.
  assert (Hgone : gone
                  = List.filter (fun r => negb (dictHas (repoFromName cands) (name r)))
                      (repositories m)) by reflexivity.
  assert (Hexc : names goneExc
                 = List.filter (fun n => negb (dictHas (repoFromName cands) n))
                     (excludedRepositories m)).
  { unfold goneExc, categorize, names. simpl. rewrite map_map. apply map_id. }
  rewrite Hg, He. unfold m'. rewrite removeGone_repositories, removeGone_excluded.
  split.
  - apply filter_none. intros r Hr. apply filter_In in Hr as [Hr Hkeep].
    apply negb_false_iff. destruct (dictHas _ (name r)) eqn:E; [reflexivity |].
    exfalso. apply negb_true_iff, bool_decide_eq_false in Hkeep. apply Hkeep.
    apply list_elem_of_In, in_map. rewrite Hgone.
    apply filter_In. split; [exact Hr |]. rewrite E. reflexivity.
  - rewrite filter_none; [reflexivity |].
    intros n Hn. apply filter_In in Hn as [Hn Hkeep].
    apply negb_false_iff. destruct (dictHas _ n) eqn:E; [reflexivity |].
    exfalso. apply negb_true_iff, bool_decide_eq_false in Hkeep. apply Hkeep.
    apply list_elem_of_In. rewrite Hexc.
    apply filter_In. split; [exact Hn |]. rewrite E. reflexivity.
Qed.

(** X5: when every tracked repo and every excluded name is a candidate and
    every candidate is tracked or excluded, the run has nothing to do: it
    ends without an error, asks nothing, opens no editor, writes nothing and
    leaves the manifest as it is. *)
Theorem known_candidates_nothing_to_do (L : libs) (m : manifest) (w : world)
    (repos : list repo)
    (Htype : searchType (repoCandidateSearch m) <> None)
    (Hfetch : github w = Fetched repos)
    (HR : forall r, In r (repositories m) ->
                    In (name r) (names (keptCandidates m repos)))
    (HE : forall n, In n (excludedRepositories m) ->
                    In n (names (keptCandidates m repos)))
    (HC : forall c, In c (keptCandidates m repos) ->
                    In (name c) (names (repositories m))
                    \/ In (name c) (excludedRepositories m)) :
  updateManifest L m w
  = (Ok,
     withAddNewExcluded
       (withAddNewRepos
          (withCategories (withCandidates (initialContext m)
                             (keptCandidates m repos)) [] [] [])
          false) false,
     w).
Proof.
  rewrite (run_to_categories _ _ _ _ Htype Hfetch). cbv zeta.
  assert (Hcat : categorize m (keptCandidates m repos) = ([], [], [])).
  { unfold categorize. rewrite !filter_none; [reflexivity | | |].
    - intros c Hc. destruct (HC c Hc) as [H | H].
      + rewrite (repoFromName_present _ _ H). reflexivity.
      + rewrite (excRepoFromName_present _ _ H). apply andb_false_r.
    - intros n Hn. rewrite (repoFromName_present _ _ (HE n Hn)). reflexivity.
    - intros r Hr. rewrite (repoFromName_present _ _ (HR r Hr)). reflexivity. }
  rewrite Hcat. reflexivity.
Qed.

(* ===================================================================== *)
(** ** Further properties of the session *)
(* ===================================================================== *)

Lemma pipeline_invariant_ok (P : context -> world -> Prop) funcs :
  Forall (fun f : stage => forall ctx w ctx' w',
            P ctx w -> f ctx w = (Ok, ctx', w') -> P ctx' w') funcs ->
  forall ctx w ctx' w',
    P ctx w -> pipeline funcs ctx w = (Ok, ctx', w') -> P ctx' w'.
Proof.
  induction 1 as [| f funcs Hf _ IH]; intros ctx w ctx' w' HP Hrun; simpl in Hrun.
  - inversion Hrun; subst. exact HP.
  - destruct (f ctx w) as [[st c1] w1] eqn:E. destruct st.
    + eapply IH; [| exact Hrun]. eapply Hf; eassumption.
    + discriminate.
    + discriminate.
Qed.

Lemma pipeline_invariant (P : context -> world -> Prop) funcs :
  Forall (fun f : stage => forall ctx w st ctx' w',
            P ctx w -> f ctx w = (st, ctx', w') -> P ctx' w') funcs ->
  forall ctx w st ctx' w',
    P ctx w -> pipeline funcs ctx w = (st, ctx', w') -> P ctx' w'.
Proof.
  induction 1 as [| f funcs Hf _ IH]; intros ctx w st ctx' w' HP Hrun; simpl in Hrun.
  - inversion Hrun; subst. exact HP.
  - destruct (f ctx w) as [[st1 c1] w1] eqn:E.
    assert (HP1 : P c1 w1) by (eapply Hf; eassumption).
    destruct st1.
    + eapply IH; eassumption.
    + inversion Hrun; subst. exact HP1.
    + inversion Hrun; subst. exact HP1.
Qed.

Lemma saveManifest_ok m w w' :
  saveManifest m w = (Ok, w') ->
  manifestFile w' = manifestFile w ++ [stringify m].
Proof.
  unfold saveManifest. destruct (writeResults w) as [| [|] ws]; intros H;
    inversion H; subst. reflexivity.
Qed.

Lemma promptEnter_file w b w' :
  promptEnter w = Some (b, w') -> manifestFile w' = manifestFile w.
Proof.
  unfold promptEnter. destruct (enterAnswers w); intros H; inversion H; subst.
  reflexivity.
Qed.

Lemma inSync_same m0 file0 ctx w ctx' w' :
  ctxManifest ctx' = ctxManifest ctx -> manifestFile w' = manifestFile w ->
  inSync m0 file0 ctx w -> inSync m0 file0 ctx' w'.
Proof. unfold inSync. intros -> ->. tauto. Qed.

Lemma inSync_saved m0 file0 ctx w w' :
  saveManifest (ctxManifest ctx) w = (Ok, w') -> inSync m0 file0 ctx w'.
Proof.
  intros H. right. rewrite (saveManifest_ok _ _ _ H). apply last_snoc.
Qed.

Lemma stages_keep_inSync (L : libs) m0 file0 :
  Forall (fun f : stage => forall ctx w ctx' w',
            inSync m0 file0 ctx w -> f ctx w = (Ok, ctx', w') ->
            inSync m0 file0 ctx' w')
    ([ fetchCandidateRepos; cacheIt; loadCache; categorizeRepos ]
     ++ curationStages L).
Proof.
  simpl app. unfold curationStages.
  repeat (apply List.Forall_cons; [intros ctx w ctx' w' Hs Hrun |]);
    [.. | apply List.Forall_nil].
  - unfold fetchCandidateRepos in Hrun. stage_cases Hrun.
    eapply inSync_same; [| | exact Hs]; reflexivity.
  - inversion Hrun; subst. exact Hs.
  - inversion Hrun; subst. exact Hs.
  - unfold categorizeRepos in Hrun. stage_cases Hrun.
    eapply inSync_same; [| | exact Hs]; reflexivity.
  - unfold removeGoneRepos, promptYesNo in Hrun.
    destruct (length _ =? 0)%nat; [inversion Hrun; subst; exact Hs |].
    destruct (yesNoAnswers w) as [| a rest]; [discriminate |].
    destruct (negb (answerIs "y" a)).
    + inversion Hrun; subst. eapply inSync_same; [| | exact Hs]; reflexivity.
    + destruct (saveManifest _ _) as [st w2] eqn:E. inversion Hrun; subst.
      eapply (inSync_saved _ _ (withManifest ctx _)). exact E.
  - unfold confirmAddNewRepos in Hrun.
    destruct (length _ =? 0)%nat;
      [inversion Hrun; subst; eapply inSync_same; [| | exact Hs]; reflexivity |].
    destruct (promptEnter w) as [[b w1] |] eqn:E; [| discriminate].
    pose proof (promptEnter_file _ _ _ E) as Hfile.
    destruct b; inversion Hrun; subst;
      (eapply inSync_same; [reflexivity | exact Hfile | exact Hs]).
  - unfold addNewIncludedRepos in Hrun.
    destruct (negb (addNewRepos ctx)); [inversion Hrun; subst; exact Hs |].
    destruct (editReposInEditor _ _ _ _) as [[rs | e |] w1] eqn:Hed;
      try discriminate.
    destruct (editReposInEditor_file _ _ _ _ _ _ Hed) as (Hfile & _ & _).
    destruct (length rs =? 0)%nat.
    + inversion Hrun; subst. eapply inSync_same; [| | exact Hs]; [reflexivity | exact Hfile].
    + destruct (saveManifest _ _) as [st w2] eqn:E. inversion Hrun; subst.
      eapply inSync_saved. exact E.
  - unfold confirmAddNewExcludedRepos in Hrun.
    destruct (negb (addNewRepos ctx) || (length _ =? 0)%nat);
      [inversion Hrun; subst; eapply inSync_same; [| | exact Hs]; reflexivity |].
    destruct (promptEnter w) as [[b w1] |] eqn:E; [| discriminate].
    pose proof (promptEnter_file _ _ _ E) as Hfile.
    destruct b; inversion Hrun; subst;
      (eapply inSync_same; [reflexivity | exact Hfile | exact Hs]).
  - unfold addNewExcludedRepos in Hrun.
    destruct (negb (ctxAddNewExcludedRepos ctx)); [inversion Hrun; subst; exact Hs |].
    destruct (editReposInEditor _ _ _ _) as [[rs | e |] w1] eqn:Hed;
      try discriminate.
    destruct (editReposInEditor_file _ _ _ _ _ _ Hed) as (Hfile & _ & _).
    destruct (length rs =? 0)%nat.
    + inversion Hrun; subst. eapply inSync_same; [| | exact Hs]; [reflexivity | exact Hfile].
    + destruct (saveManifest _ _) as [st w2] eqn:E. inversion Hrun; subst.
      eapply inSync_saved. exact E.
Qed.

(** X6: when the run ends without an error, no confirmed change is left
    unwritten: either the run changed nothing and wrote nothing, or what the
    manifest file holds in the end is the JSON text of the manifest the run
    ended with (in which a label value that is not a finite number reads
    [null]). *)
Theorem successful_run_is_written (L : libs) (m : manifest) (w : world)
    (ctx' : context) (w' : world)
    (Hrun : updateManifest L m w = (Ok, ctx', w')) :
  (ctxManifest ctx' = m /\ manifestFile w' = manifestFile w)
  \/ last (manifestFile w') = Some (stringify (ctxManifest ctx')).
Proof.
  refine (pipeline_invariant_ok (inSync m (manifestFile w)) _
            (stages_keep_inSync L m (manifestFile w))
            (initialContext m) w ctx' w' _ Hrun).
  left. split; reflexivity.
Qed.

Lemma stages_keep_nothingAccepted (L : libs) m w0 :
  Forall (fun f : stage => forall ctx w st ctx' w',
            nothingAccepted m w0 ctx w -> f ctx w = (st, ctx', w') ->
            nothingAccepted m w0 ctx' w')
    ([ fetchCandidateRepos; cacheIt; loadCache; categorizeRepos ]
     ++ curationStages L).
Proof.
  simpl app. unfold curationStages.
  repeat (apply List.Forall_cons; [intros ctx w st ctx' w' Hs Hrun |]);
    [.. | apply List.Forall_nil];
    destruct Hs as (Hm & Ha & Hx & Hf & Hc & He & Hw & Hyn & Hen).
  - unfold fetchCandidateRepos in Hrun. stage_cases Hrun;
      repeat split; assumption.
  - inversion Hrun; subst. repeat split; assumption.
  - inversion Hrun; subst. repeat split; assumption.
  - unfold categorizeRepos in Hrun. stage_cases Hrun. repeat split; assumption.
  - unfold removeGoneRepos, promptYesNo in Hrun.
    destruct (length _ =? 0)%nat; [inversion Hrun; subst; repeat split; assumption |].
    destruct (yesNoAnswers w) as [| a rest] eqn:E;
      [inversion Hrun; subst; repeat split; try assumption; rewrite E; constructor |].
    inversion Hyn as [| ? ? Hno Hrest]; subst. rewrite Hno in Hrun.
    inversion Hrun; subst. repeat split; assumption.
  - unfold confirmAddNewRepos, promptEnter in Hrun.
    destruct (length _ =? 0)%nat; [inversion Hrun; subst; repeat split; assumption |].
    destruct (enterAnswers w) as [| b rest] eqn:E;
      [inversion Hrun; subst; repeat split; try assumption; rewrite E; constructor |].
    inversion Hen as [| ? ? Hb Hrest]; subst.
    inversion Hrun; subst. repeat split; assumption.
  - unfold addNewIncludedRepos in Hrun. rewrite Ha in Hrun.
    inversion Hrun; subst. repeat split; assumption.
  - unfold confirmAddNewExcludedRepos in Hrun. rewrite Ha in Hrun.
    inversion Hrun; subst. repeat split; assumption.
  - unfold addNewExcludedRepos in Hrun. rewrite Hx in Hrun.
    inversion Hrun; subst. repeat split; assumption.
Qed.

(** X7: when every prompt is declined (no yes/no answer is [y], every Enter
    prompt is answered with Ctrl+C), the run changes nothing: the manifest in
    memory is the one it started with, nothing is written, and no editor
    is opened. *)
Theorem declining_everything_changes_nothing (L : libs) (m : manifest)
    (w : world) (Hdecl : declinesAll w) :
  let r := updateManifest L m w in
  ctxManifest (snd (fst r)) = m
  /\ manifestFile (snd r) = manifestFile w
  /\ editorCalls (snd r) = editorCalls w
  /\ editorResults (snd r) = editorResults w
  /\ writeResults (snd r) = writeResults w.
Proof.
  intros r.
  assert (H : nothingAccepted m w (snd (fst r)) (snd r)).
  { refine (pipeline_invariant (nothingAccepted m w) _
              (stages_keep_nothingAccepted L m w)
              (initialContext m) w (fst (fst r)) (snd (fst r)) (snd r) _ _).
    - repeat split; try reflexivity; apply Hdecl.
    - unfold r, updateManifest.
      destruct (pipeline _ _ _) as [[a b] c]. reflexivity. }
  destruct H as (Hm & _ & _ & Hf & Hc & He & Hw & _).
  repeat split; assumption.
Qed.

(** The loop accepts the first edit when it parses. *)
Lemma editReposInEditor_first fm repos b w t rs ed :
  editorResults w = EditorText t :: ed ->
  parseReposForm t b = Parsed rs ->
  editReposInEditor fm repos b w
  = (Edited rs,
     withEditor w ed (enterAnswers w)
       (editorCalls w
        ++ [ (createReposForm (Some (match fm with Some x => x | None => [] end)) repos,
              Some (length (match fm with Some x => x | None => [] end) + 1)%nat) ])).
Proof.
  intros Hed Hp. unfold editReposInEditor. rewrite Hed.
  rewrite (editAttempt_retries b [] t rs ed (enterAnswers w) _ _ _
             ltac:(constructor) Hp).
  reflexivity.
Qed.

(** X8: a write that fails in the removal stage ends the run with the write
    error: the removal was already applied to the manifest in memory, what
    the manifest file holds is no longer determined, and no later stage
    asks or edits anything. *)
Theorem failed_write_ends_run (L : libs) (ctx : context) (w : world)
    (rest : list answer) (ws : list bool)
    (Hgone : goneRepos ctx ++ goneExcRepos ctx <> [])
    (Hyes : yesNoAnswers w = AnsText "y" :: rest)
    (Hwr : writeResults w = false :: ws) :
  let r := pipeline (curationStages L) ctx w in
  fst (fst r) = Err WriteError
  /\ ctxManifest (snd (fst r))
     = removeGone (ctxManifest ctx) (goneRepos ctx) (goneExcRepos ctx)
  /\ manifestFile (snd r) = manifestFile w ++ [Undetermined]
  /\ enterAnswers (snd r) = enterAnswers w
  /\ editorCalls (snd r) = editorCalls w.
Proof.
  intros r.
  assert (E : r = (Err WriteError,
                   withManifest ctx
                     (removeGone (ctxManifest ctx) (goneRepos ctx) (goneExcRepos ctx)),
                   withWrite (withYesNo w rest) ws
                     (manifestFile w ++ [Undetermined]))).
  { unfold r, curationStages. apply pipeline_err.
    unfold removeGoneRepos, promptYesNo, saveManifest.
    rewrite (length_nonzero _ Hgone), Hyes. simpl. rewrite Hwr. reflexivity. }
  rewrite E. repeat split.
Qed.

Lemma filter_names_out rs (l : list repo) c :
  In c (List.filter (fun r => negb (bool_decide (name r ∈ nameSet rs))) l) ->
  ~ In (name c) (names rs).
Proof.
  intros H Hin. apply filter_In in H as [_ H].
  apply negb_true_iff, bool_decide_eq_false in H. apply H.
  unfold nameSet. apply elem_of_list_to_set, list_elem_of_In, Hin.
Qed.

(** X9: when the first edit of the inclusion stage parses to a non-empty
    list and the write succeeds, the stage ends without an error with
    [repositories] a rearrangement of the old list followed by the accepted
    entries, [excludedRepositories] unchanged, the accepted names taken out
    of the remaining pool, and the JSON text of the new manifest written;
    no prompt is asked. *)
Theorem inclusion_stage_merges (L : libs)
    (Hsort : forall l, Permutation (sortArrayOfObjects L l) l)
    (ctx : context) (w : world) (t : string) (rs : list repo)
    (ed : list editorResult) (ws : list bool)
    (Hadd : addNewRepos ctx = true)
    (Hed : editorResults w = EditorText t :: ed)
    (Hp : parseReposForm t true = Parsed rs)
    (Hne : rs <> [])
    (Hwr : writeResults w = true :: ws) :
  let r := addNewIncludedRepos L ctx w in
  let ctx' := snd (fst r) in
  let w' := snd r in
  fst (fst r) = Ok
  /\ Permutation (repositories (ctxManifest ctx'))
       (repositories (ctxManifest ctx) ++ rs)
  /\ excludedRepositories (ctxManifest ctx')
     = excludedRepositories (ctxManifest ctx)
  /\ remainingRepos ctx'
     = List.filter (fun c => negb (bool_decide (name c ∈ names rs)))
         (remainingRepos ctx)
  /\ (forall c, In c (remainingRepos ctx') -> ~ In (name c) (names rs))
  /\ manifestFile w' = manifestFile w ++ [stringify (ctxManifest ctx')]
  /\ enterAnswers w' = enterAnswers w
  /\ editorResults w' = ed.
Proof.
  intros r ctx' w'.
  assert (E : r = (Ok, mergeIncluded L ctx rs,
                   withWrite
                     (withEditor w ed (enterAnswers w)
                        (editorCalls w
                         ++ [ (createReposForm
                                 (Some (includeFrontMatter L (ctxManifest ctx)))
                                 (remainingRepos ctx),
                               Some (length (includeFrontMatter L (ctxManifest ctx)) + 1)%nat) ]))
                     ws (manifestFile w
                         ++ [stringify (ctxManifest (mergeIncluded L ctx rs))]))).
  { unfold r, addNewIncludedRepos. rewrite Hadd. simpl negb. cbv iota.
    rewrite (editReposInEditor_first _ _ _ _ _ _ _ Hed Hp).
    rewrite (length_nonzero _ Hne). unfold saveManifest. simpl writeResults.
    rewrite Hwr. reflexivity. }
  unfold ctx', w'. rewrite E. simpl.
  split; [reflexivity |]. split; [apply Hsort |]. split; [reflexivity |].
  split; [| split; [| repeat split]].
  - apply filter_ext. intros c. rewrite nameSet_has. reflexivity.
  - intros c Hc. eapply filter_names_out. exact Hc.
Qed.

(** X10: when the first edit of the exclusion stage parses to a non-empty
    list and the write succeeds, [excludedRepositories] becomes the old list
    and the accepted names together, sorted in ascending code-unit order,
    [repositories] and the remaining pool are unchanged, and the JSON text
    of the manifest is written. *)
Theorem exclusion_stage_sorts (ctx : context) (w : world) (t : string)
    (rs : list repo) (ed : list editorResult) (ws : list bool)
    (Hadd : ctxAddNewExcludedRepos ctx = true)
    (Hed : editorResults w = EditorText t :: ed)
    (Hp : parseReposForm t false = Parsed rs)
    (Hne : rs <> [])
    (Hwr : writeResults w = true :: ws) :
  let r := addNewExcludedRepos ctx w in
  let ctx' := snd (fst r) in
  let w' := snd r in
  fst (fst r) = Ok
  /\ Sorted String.le (excludedRepositories (ctxManifest ctx'))
  /\ Permutation (excludedRepositories (ctxManifest ctx'))
       (excludedRepositories (ctxManifest ctx) ++ names rs)
  /\ repositories (ctxManifest ctx') = repositories (ctxManifest ctx)
  /\ remainingRepos ctx' = remainingRepos ctx
  /\ manifestFile w' = manifestFile w ++ [stringify (ctxManifest ctx')].
Proof.
  intros r ctx' w'.
  assert (E : r = (Ok, appendExcluded ctx rs,
                   withWrite
                     (withEditor w ed (enterAnswers w)
                        (editorCalls w
                         ++ [ (createReposForm (Some excludeFrontMatter)
                                 (remainingRepos ctx),
                               Some (length excludeFrontMatter + 1)%nat) ]))
                     ws (manifestFile w
                         ++ [stringify (ctxManifest (appendExcluded ctx rs))]))).
  { unfold r, addNewExcludedRepos. rewrite Hadd. simpl negb. cbv iota.
    rewrite (editReposInEditor_first _ _ _ _ _ _ _ Hed Hp).
    rewrite (length_nonzero _ Hne). unfold saveManifest. simpl writeResults.
    rewrite Hwr. reflexivity. }
  unfold ctx', w'. rewrite E. simpl.
  split; [reflexivity |]. split; [apply Sorted_merge_sort; apply _ |].
  split; [apply merge_sort_Permutation |]. repeat split.
Qed.

(* ===================================================================== *)
(** ** Further properties of the form codec *)
(* ===================================================================== *)

(** A line whose first character is the comment marker is a comment. *)
Lemma classify_hash rest : classify (String "#" rest) = Comment.
Proof.
  unfold classify, trim.
  change (trimStart (String "#" rest)) with (String "#" rest).
  change (trimEnd (String "#" rest)) with (String "#" (trimEnd rest)).
  reflexivity.
Qed.

Lemma parseLoop_commented b (repos : list repo) : forall i acc,
  parseLoop b (map (fun r => ("# " ++ JOYENT_REPO_BASE_URL ++ name r)%string) repos
               ++ [EmptyString]) i acc
  = Parsed acc.
Proof.
  induction repos as [| r repos IH]; intros i acc; [reflexivity |].
  simpl map. simpl app. rewrite parseLoop_cons.
  change ("# " ++ JOYENT_REPO_BASE_URL ++ name r)%string
    with (String "#" (" " ++ JOYENT_REPO_BASE_URL ++ name r))%string.
  rewrite classify_hash. apply IH.
Qed.

Lemma chosen_nil_r {A} (mask : list bool) : @chosen A mask [] = [].
Proof. destruct mask as [| [] mask]; reflexivity. Qed.

Lemma parseLoop_selected b (repos : list repo) : forall mask i acc,
  Forall (fun r => noWhiteSpace (name r) = true) repos ->
  parseLoop b
    (selectLinesFrom 0 mask
       (map (fun r => ("# " ++ JOYENT_REPO_BASE_URL ++ name r)%string) repos
        ++ [EmptyString])) i acc
  = Parsed (acc ++ map (fun r => repoNamed (name r)) (chosen mask repos)).
Proof.
  induction repos as [| r repos IH]; intros mask i acc H.
  - rewrite chosen_nil_r, app_nil_r. destruct mask as [| [] mask]; reflexivity.
  - inversion H as [| ? ? Hr Hrest]; subst.
    destruct mask as [| [] mask].
    + simpl chosen. rewrite app_nil_r.
      apply (parseLoop_commented b (r :: repos)).
    + simpl map. simpl app. simpl selectLinesFrom.
      change (uncommentLine ("# " ++ JOYENT_REPO_BASE_URL ++ name r)%string)
        with (repoLine (name r) []).
      rewrite (parseLoop_repoLine _ _ _ _ _ _ Hr ltac:(constructor)).
      rewrite (IH _ _ _ Hrest), andb_false_r, <- app_assoc. reflexivity.
    + simpl map. simpl app. simpl selectLinesFrom. rewrite parseLoop_cons.
      change ("# " ++ JOYENT_REPO_BASE_URL ++ name r)%string
        with (String "#" (" " ++ JOYENT_REPO_BASE_URL ++ name r))%string.
      rewrite classify_hash. apply (IH _ _ _ Hrest).
Qed.

Lemma selectLinesFrom_app fm mask rest :
  selectLinesFrom (length fm) mask (fm ++ rest)
  = fm ++ selectLinesFrom 0 mask rest.
Proof.
  induction fm as [| l fm IH]; simpl; [| rewrite IH; reflexivity].
  destruct rest; reflexivity.
Qed.

Lemma uncommentLine_cases l :
  uncommentLine l = l \/ l = ("# " ++ uncommentLine l)%string.
Proof.
  unfold uncommentLine. destruct l as [| c s]; [left; reflexivity |].
  destruct c as [[] [] [] [] [] [] [] []]; try (left; reflexivity).
  destruct s as [| d r]; [left; reflexivity |].
  destruct d as [[] [] [] [] [] [] [] []]; try (left; reflexivity).
  right. reflexivity.
Qed.

Lemma noLineFeed_uncommentLine l :
  noLineFeed l = true -> noLineFeed (uncommentLine l) = true.
Proof.
  intros H. destruct (uncommentLine_cases l) as [-> | E]; [exact H |].
  rewrite E in H. unfold noLineFeed in *. rewrite noneOf_app in H.
  apply andb_prop in H as [_ H]. exact H.
Qed.

Lemma noLineFeed_selectLinesFrom lines : forall k mask,
  Forall (fun x => noLineFeed x = true) lines ->
  Forall (fun x => noLineFeed x = true) (selectLinesFrom k mask lines).
Proof.
  induction lines as [| l lines IH]; intros k mask H.
  - destruct k; constructor.
  - inversion H as [| ? ? Hl Hrest]; subst.
    destruct k as [| k]; simpl.
    + destruct mask as [| [] mask].
      * exact H.
      * constructor; [apply noLineFeed_uncommentLine, Hl | apply IH, Hrest].
      * constructor; [exact Hl | apply IH, Hrest].
    + constructor; [exact Hl | apply IH, Hrest].
Qed.

Lemma selectLinesFrom_nonempty lines k mask :
  lines <> [] -> selectLinesFrom k mask lines <> [].
Proof.
  destruct lines as [| l lines]; [congruence |]. intros _.
  destruct k; simpl; [destruct mask as [| [] mask] |]; discriminate.
Qed.

(** The lines of an encoded form, for single-line front matter and names. *)
Lemma splitLines_createReposForm fm (repos : list repo) :
  Forall (fun x => noLineFeed x = true) fm ->
  Forall (fun r => noLineFeed (name r) = true) repos ->
  fm ++ map (fun r => ("# " ++ JOYENT_REPO_BASE_URL ++ name r)%string) repos <> [] ->
  splitLines (createReposForm (Some fm) repos)
  = fm ++ map (fun r => ("# " ++ JOYENT_REPO_BASE_URL ++ name r)%string) repos
    ++ [EmptyString].
Proof.
  intros Hfm Hnames Hne. unfold createReposForm.
  rewrite <- join_snoc_empty by exact Hne.
  rewrite <- app_assoc. apply splitLines_join.
  - rewrite !Forall_app. split; [exact Hfm | split].
    + apply Forall_map. eapply Forall_impl; [exact Hnames |].
      intros r Hr. unfold noLineFeed. rewrite !noneOf_app.
      fold (noLineFeed (name r)). rewrite Hr. reflexivity.
    + constructor; [reflexivity | constructor].
  - destruct fm; [destruct (map _ repos) |]; discriminate.
Qed.

(** X11: selection is expressed by uncommenting.  For a front matter of
    blank or comment-marked single lines and repo names without white space,
    decoding the encoded form in which the lines of some of the repos were
    uncommented yields exactly those repos' names, in the order of the form,
    without labels; the repos left commented contribute nothing. *)
Theorem selection_by_uncommenting (frontMatter : option (list string))
    (repos : list repo) (mask : list bool) (parseLabels : bool)
    (Hfm : Forall isFrontMatterLine
             (match frontMatter with Some fm => fm | None => [] end))
    (Hnames : Forall (fun r => noWhiteSpace (name r) = true) repos) :
  let fm := match frontMatter with Some fm => fm | None => [] end in
  parseReposForm
    (selectFrom (length fm) mask (createReposForm frontMatter repos))
    parseLabels
  = Parsed (map (fun r => repoNamed (name r)) (chosen mask repos)).
Proof.
  intros fm.
  assert (Hform : createReposForm frontMatter repos = createReposForm (Some fm) repos)
    by (destruct frontMatter; reflexivity).
  rewrite Hform. clear Hform.
  set (cline := fun r : repo => ("# " ++ JOYENT_REPO_BASE_URL ++ name r)%string).
  destruct (fm ++ map cline repos) as [| x form] eqn:E.
  - apply app_eq_nil in E as [Efm Erepos].
    destruct repos; [| discriminate]. rewrite Efm, chosen_nil_r.
    destruct mask as [| [] [| [] mask]]; reflexivity.
  - assert (Hlf : Forall (fun x => noLineFeed x = true) fm).
    { eapply Forall_impl; [exact Hfm |]. intros l [Hl _]. exact Hl. }
    assert (Hnl : Forall (fun r => noLineFeed (name r) = true) repos).
    { eapply Forall_impl; [exact Hnames |]. intros r. apply noWhiteSpace_noLineFeed. }
    assert (Hne : fm ++ map cline repos <> []) by (rewrite E; discriminate).
    unfold selectFrom. rewrite (splitLines_createReposForm _ _ Hlf Hnl Hne).
    fold cline. rewrite selectLinesFrom_app. unfold parseReposForm.
    rewrite splitLines_join.
    + rewrite (parseLoop_frontMatter _ _ _ _ _ Hfm).
      apply (parseLoop_selected _ _ _ _ [] Hnames).
    + rewrite Forall_app. split; [exact Hlf |].
      apply noLineFeed_selectLinesFrom. rewrite Forall_app. split.
      * apply Forall_map. eapply Forall_impl; [exact Hnl |].
        intros r Hr. unfold cline, noLineFeed. rewrite !noneOf_app.
        fold (noLineFeed (name r)). rewrite Hr. reflexivity.
      * constructor; [reflexivity | constructor].
    + destruct fm; [| discriminate]. simpl.
      apply selectLinesFrom_nonempty. destruct (map cline repos); discriminate.
Qed.

Lemma hashLine_frontMatter rest :
  noLineFeed rest = true -> isFrontMatterLine (String "#" rest).
Proof.
  intros H. split; [exact H | right; apply classify_hash].
Qed.

Lemma noLineFeed_app a b :
  noLineFeed a = true -> noLineFeed b = true -> noLineFeed (a ++ b)%string = true.
Proof.
  unfold noLineFeed. intros Ha Hb. rewrite noneOf_app, Ha, Hb. reflexivity.
Qed.

Lemma labelToString_noLineFeed (L : libs) v :
  (forall n, noLineFeed (numberToString L n) = true) ->
  (forall s, v = LStr s -> noLineFeed s = true) ->
  noLineFeed (labelToString L v) = true.
Proof.
  intros Hnum Hstr. destruct v as [[|] | n | s |]; simpl;
    [reflexivity | reflexivity | apply Hnum | apply Hstr; reflexivity
    | reflexivity].
Qed.

(** The front matter of the inclusion form is skipped by the parser. *)
Lemma includeFrontMatter_skipped (L : libs) m :
  (forall n, noLineFeed (numberToString L n) = true) ->
  singleLineLabels m ->
  Forall isFrontMatterLine (includeFrontMatter L m).
Proof.
  intros Hnum [Hdl Hbl]. unfold includeFrontMatter.
  rewrite !Forall_app. split; [| split; [| split]].
  - repeat (apply List.Forall_cons; [apply hashLine_frontMatter; reflexivity |]).
    apply List.Forall_nil.
  - destruct (defaultLabels m) as [dl |]; [| apply List.Forall_nil].
    specialize (Hdl dl eq_refl). rewrite Forall_app. split.
    + repeat (apply List.Forall_cons; [apply hashLine_frontMatter; reflexivity |]).
      apply List.Forall_nil.
    + apply Forall_map. eapply Forall_impl; [exact Hdl |].
      intros [k v] [Hk Hv]. simpl in *.
      assert (Hplain : isFrontMatterLine ("# - " ++ k)%string).
      { apply (hashLine_frontMatter (" - " ++ k)%string).
        apply noLineFeed_app; [reflexivity | exact Hk]. }
      assert (Hval : isFrontMatterLine ("# - " ++ k ++ "=" ++ labelToString L v)%string).
      { apply (hashLine_frontMatter (" - " ++ k ++ "=" ++ labelToString L v)%string).
        apply noLineFeed_app; [reflexivity |].
        apply noLineFeed_app; [exact Hk |].
        apply noLineFeed_app; [reflexivity |].
        apply labelToString_noLineFeed; assumption. }
      destruct v as [[|] | n | s |]; assumption.
  - destruct (0 <? length (blessedLabels m))%nat; [| apply List.Forall_nil].
    rewrite Forall_app. split.
    + repeat (apply List.Forall_cons; [apply hashLine_frontMatter; reflexivity |]).
      apply List.Forall_nil.
    + apply Forall_map. eapply Forall_impl; [exact Hbl |].
      intros lbl (Hn & Ht & Hd).
      destruct (String.eqb (lblType lbl) "boolean").
      * apply (hashLine_frontMatter (" - " ++ lblName lbl ++ " - " ++ lblDescription lbl)%string).
        repeat (apply noLineFeed_app; [first [reflexivity | assumption] |]).
        exact Hd.
      * apply (hashLine_frontMatter
                 (" - " ++ lblName lbl ++ "=<" ++ lblType lbl ++ "> - "
                  ++ lblDescription lbl)%string).
        repeat (apply noLineFeed_app; [first [reflexivity | assumption] |]).
        exact Hd.
  - apply List.Forall_cons; [| apply List.Forall_nil].
    split; [reflexivity | left; reflexivity].
Qed.

Lemma parseReposForm_unedited fm (repos : list repo) b :
  Forall isFrontMatterLine fm ->
  Forall (fun r => noLineFeed (name r) = true) repos ->
  parseReposForm (createReposForm (Some fm) repos) b = Parsed [].
Proof.
  intros Hfm Hnames.
  destruct (fm ++ map (fun r => ("# " ++ JOYENT_REPO_BASE_URL ++ name r)%string) repos)
    as [| x form] eqn:E.
  - apply app_eq_nil in E as [-> Erepos]. destruct repos; [| discriminate].
    reflexivity.
  - unfold parseReposForm. rewrite splitLines_createReposForm.
    + rewrite (parseLoop_frontMatter _ _ _ _ _ Hfm). apply parseLoop_commented.
    + eapply Forall_impl; [exact Hfm |]. intros l [Hl _]. exact Hl.
    + exact Hnames.
    + rewrite E. discriminate.
Qed.

(** X12: saving the inclusion form as it was presented selects nothing.
    When the label names, types, descriptions and default values of the
    manifest and the candidate names hold no line feed, the presented form
    decodes to the empty list, and the inclusion stage then ends without an
    error, leaves the context as it is and writes nothing. *)
Theorem unedited_form_selects_nothing (L : libs) (ctx : context) (w : world)
    (ed : list editorResult)
    (Hnum : forall n, noLineFeed (numberToString L n) = true)
    (Hlabels : singleLineLabels (ctxManifest ctx))
    (Hnames : Forall (fun r => noLineFeed (name r) = true) (remainingRepos ctx))
    (Hadd : addNewRepos ctx = true)
    (Hed : editorResults w
           = EditorText
               (createReposForm (Some (includeFrontMatter L (ctxManifest ctx)))
                  (remainingRepos ctx)) :: ed) :
  parseReposForm
    (createReposForm (Some (includeFrontMatter L (ctxManifest ctx)))
       (remainingRepos ctx)) true = Parsed []
  /\ fst (addNewIncludedRepos L ctx w) = (Ok, ctx)
  /\ manifestFile (snd (addNewIncludedRepos L ctx w)) = manifestFile w
  /\ writeResults (snd (addNewIncludedRepos L ctx w)) = writeResults w
  /\ enterAnswers (snd (addNewIncludedRepos L ctx w)) = enterAnswers w.
Proof.
  assert (Hp : parseReposForm
                 (createReposForm (Some (includeFrontMatter L (ctxManifest ctx)))
                    (remainingRepos ctx)) true = Parsed []).
  { apply parseReposForm_unedited; [| exact Hnames].
    apply includeFrontMatter_skipped; assumption. }
  split; [exact Hp |].
  unfold addNewIncludedRepos. rewrite Hadd. simpl negb. cbv iota.
  rewrite (editReposInEditor_first _ _ _ _ _ _ _ Hed Hp). simpl.
  repeat split.
Qed.

Lemma editAttempt_first_call b editor : forall enters text line calls,
  exists more,
    snd (snd (editAttempt b editor enters text line calls))
    = calls ++ (text, line) :: more.
Proof.
  induction editor as [| r editor IH]; intros enters text line calls.
  - exists []. reflexivity.
  - destruct r as [t | msg]; simpl.
    + destruct (parseReposForm t b) as [repos | e].
      * exists []. reflexivity.
      * destruct enters as [| [|] enters].
        -- exists []. reflexivity.
        -- destruct (IH enters t
                       (if (0 <? errLine e)%nat then Some (errLine e) else None)
                       (calls ++ [(text, line)])) as [more Hmore].
           exists ((t, if (0 <? errLine e)%nat then Some (errLine e) else None) :: more).
           rewrite Hmore, <- app_assoc. reflexivity.
        -- exists []. reflexivity.
    + exists []. reflexivity.
Qed.

(** X13: the editor is first opened on the encoded form with the cursor on
    the line of the first repo: for single-line front matter and names, the
    starting line handed to the editor, counted from 1, is the line
    [# <base-url><name>] of the first repo of the list. *)
Theorem cursor_starts_on_first_repo_line (frontMatter : option (list string))
    (r0 : repo) (rest : list repo) (parseLabels : bool) (w : world)
    (Hfm : Forall (fun x => noLineFeed x = true)
             (match frontMatter with Some fm => fm | None => [] end))
    (Hnames : Forall (fun r => noLineFeed (name r) = true) (r0 :: rest)) :
  exists text line more,
    editorCalls (snd (editReposInEditor frontMatter (r0 :: rest) parseLabels w))
    = editorCalls w ++ (text, Some line) :: more
    /\ text = createReposForm frontMatter (r0 :: rest)
    /\ (1 <= line)%nat
    /\ splitLines text !! (line - 1)%nat
       = Some ("# " ++ JOYENT_REPO_BASE_URL ++ name r0)%string.
Proof.
  set (fm := match frontMatter with Some fm => fm | None => [] end) in *.
  assert (Hform : createReposForm frontMatter (r0 :: rest)
                  = createReposForm (Some fm) (r0 :: rest))
    by (destruct frontMatter; reflexivity).
  destruct (editAttempt_first_call parseLabels (editorResults w) (enterAnswers w)
              (createReposForm (Some fm) (r0 :: rest))
              (Some (length fm + 1)%nat) (editorCalls w)) as [more Hmore].
  exists (createReposForm (Some fm) (r0 :: rest)), (length fm + 1)%nat, more.
  split; [| split; [symmetry; exact Hform | split; [lia |]]].
  - unfold editReposInEditor. fold fm.
    destruct (editAttempt _ _ _ _ _ _) as [out [[a c] d]]. exact Hmore.
  - rewrite splitLines_createReposForm; [| exact Hfm | exact Hnames |].
    + replace (length fm + 1 - 1)%nat with (length fm + 0)%nat by lia.
      rewrite lookup_app_r by lia.
      replace (length fm + 0 - length fm)%nat with 0%nat by lia. reflexivity.
    + destruct fm; discriminate.
Qed.

Lemma parseRepoLine_nolabels line :
  parseRepoLine false line = repoNamed (name (parseRepoLine true line)).
Proof.
  unfold parseRepoLine. simpl.
  destruct (0 <? length (tail (splitSpaces _)))%nat; reflexivity.
Qed.

Lemma parseLoop_nolabels lines : forall i acc,
  parseLoop false lines i (map (fun r => repoNamed (name r)) acc)
  = match parseLoop true lines i acc with
    | Parsed rs => Parsed (map (fun r => repoNamed (name r)) rs)
    | Thrown e => Thrown e
    end.
Proof.
  induction lines as [| l lines IH]; intros i acc; [reflexivity |].
  rewrite !parseLoop_cons. destruct (classify l); try apply IH; [| reflexivity].
  rewrite <- IH, map_app. simpl. rewrite parseRepoLine_nolabels. reflexivity.
Qed.

(** X14: label parsing changes nothing but the labels: with label parsing
    disabled the parser accepts the same texts, yields the same entries in
    the same order with every label object left out, and throws the same
    error on the same line. *)
Theorem parsing_without_labels (text : string) :
  parseReposForm text false
  = match parseReposForm text true with
    | Parsed rs => Parsed (map (fun r => repoNamed (name r)) rs)
    | Thrown e => Thrown e
    end.
Proof. unfold parseReposForm. apply (parseLoop_nolabels _ 0%nat []). Qed.

Lemma splitLines_app a b :
  splitLines (a ++ nl ++ b)%string = splitLines a ++ splitLines b.
Proof.
  induction a as [| c a IH]; [reflexivity |].
  rewrite append_cons. simpl splitLines. rewrite IH.
  destruct (Ascii.eqb c LF); [reflexivity |].
  pose proof (splitLines_nonempty a) as Hne.
  destruct (splitLines a) as [| l ls]; [congruence | reflexivity].
Qed.

Lemma parseLoop_shift b lines : forall i acc,
  parseLoop b lines i acc
  = match parseLoop b lines 0 [] with
    | Parsed rs => Parsed (acc ++ rs)
    | Thrown e => Thrown {| errLine := i + errLine e; errText := errText e |}
    end.
Proof.
  induction lines as [| l lines IH]; intros i acc.
  - simpl. rewrite app_nil_r. reflexivity.
  - rewrite !parseLoop_cons. destruct (classify l).
    + rewrite (IH (S i) acc), (IH 1%nat []).
      destruct (parseLoop b lines 0 []); [reflexivity |].
      simpl. do 2 f_equal. lia.
    + rewrite (IH (S i) acc), (IH 1%nat []).
      destruct (parseLoop b lines 0 []); [reflexivity |].
      simpl. do 2 f_equal. lia.
    + rewrite (IH (S i) (acc ++ _)), (IH 1%nat ([] ++ _)).
      destruct (parseLoop b lines 0 []); [rewrite <- app_assoc; reflexivity |].
      simpl. do 2 f_equal. lia.
    + simpl. reflexivity.
Qed.

Lemma parseLoop_app b l1 l2 : forall i acc,
  parseLoop b (l1 ++ l2) i acc
  = match parseLoop b l1 i acc with
    | Parsed rs => parseLoop b l2 (i + length l1) rs
    | Thrown e => Thrown e
    end.
Proof.
  induction l1 as [| l l1 IH]; intros i acc.
  - simpl. f_equal. lia.
  - simpl app. rewrite !parseLoop_cons.
    replace (i + length (l :: l1))%nat with (S i + length l1)%nat by (simpl; lia).
    destruct (classify l); try apply IH. reflexivity.
Qed.

(** X15: forms compose.  Decoding two texts joined by a line feed yields the
    entries of the first followed by the entries of the second; an error in
    the first text is the error of the whole, and an error in the second is
    reported with its line number increased by the number of lines of the
    first. *)
Theorem parse_of_joined_texts (t1 t2 : string) (parseLabels : bool) :
  parseReposForm (t1 ++ nl ++ t2)%string parseLabels
  = match parseReposForm t1 parseLabels with
    | Thrown e => Thrown e
    | Parsed r1 =>
        match parseReposForm t2 parseLabels with
        | Parsed r2 => Parsed (r1 ++ r2)
        | Thrown e =>
            Thrown {| errLine := length (splitLines t1) + errLine e;
                      errText := errText e |}
        end
    end.
Proof.
  unfold parseReposForm. rewrite splitLines_app, parseLoop_app.
  destruct (parseLoop parseLabels (splitLines t1) 0 []) as [r1 | e]; [| reflexivity].
  apply parseLoop_shift.
Qed.

Lemma trimStart_app_CR l :
  trimStart (l ++ String CR EmptyString)%string
  = if isEmpty (trimStart l) then EmptyString
    else (trimStart l ++ String CR EmptyString)%string.
Proof.
  induction l as [| c l IH]; [reflexivity |].
  rewrite append_cons. simpl. destruct (isWhiteSpace c); [exact IH | reflexivity].
Qed.

Lemma trimEnd_app_CR x :
  trimEnd (x ++ String CR EmptyString)%string = trimEnd x.
Proof.
  induction x as [| c x IH]; [reflexivity |].
  rewrite append_cons. simpl. rewrite IH. reflexivity.
Qed.

Lemma trim_app_CR l : trim (l ++ String CR EmptyString)%string = trim l.
Proof.
  unfold trim. rewrite trimStart_app_CR.
  destruct (trimStart l) eqn:E; [reflexivity |].
  simpl isEmpty. cbv iota. apply trimEnd_app_CR.
Qed.

Lemma classify_trim l l' : trim l' = trim l -> classify l' = classify l.
Proof. unfold classify. intros ->. reflexivity. Qed.

Lemma parseLoop_trim b lines lines' :
  Forall2 (fun l l' => trim l' = trim l) lines lines' ->
  forall i acc, parseLoop b lines' i acc = parseLoop b lines i acc.
Proof.
  induction 1 as [| l l' lines lines' Hl _ IH]; intros i acc; [reflexivity |].
  rewrite !parseLoop_cons, (classify_trim _ _ Hl), Hl.
  destruct (classify l); try apply IH. reflexivity.
Qed.

Lemma splitLines_toCRLF text :
  Forall2 (fun l l' => l' = l \/ l' = (l ++ String CR EmptyString)%string)
    (splitLines text) (splitLines (toCRLF text)).
Proof.
  induction text as [| c s IH]; [repeat constructor |].
  simpl. destruct (Ascii.eqb c LF) eqn:E.
  - change (splitLines (String CR (String LF (toCRLF s))))
      with (String CR EmptyString :: splitLines (toCRLF s)).
    constructor; [right; reflexivity | exact IH].
  - simpl. rewrite E.
    destruct IH as [| l l' ls ls' Hl Hls].
    + constructor; [left; reflexivity | constructor].
    + constructor; [| exact Hls].
      destruct Hl as [-> | ->]; [left | right]; reflexivity.
Qed.

(** X16: a form saved with Windows line endings decodes as the same form
    with Unix line endings: putting a carriage return before every line feed
    of a text changes neither the entries decoded nor the error thrown. *)
Theorem windows_line_endings (text : string) (parseLabels : bool) :
  parseReposForm (toCRLF text) parseLabels = parseReposForm text parseLabels.
Proof.
  unfold parseReposForm. apply parseLoop_trim.
  eapply Forall2_impl; [apply splitLines_toCRLF |].
  intros l l' [-> | ->]; [reflexivity | apply trim_app_CR].
Qed.

(* ===================================================================== *)
(** ** Decimal integers as label values *)
(* ===================================================================== *)

Lemma decimal_digit_char c d :
  digitOf 10 c = Some d ->
  c = "0"%char \/ c = "1"%char \/ c = "2"%char \/ c = "3"%char \/ c = "4"%char
  \/ c = "5"%char \/ c = "6"%char \/ c = "7"%char \/ c = "8"%char \/ c = "9"%char.
Proof.
  destruct c as [[] [] [] [] [] [] [] []]; vm_compute; intros H;
    try discriminate H; tauto.
Qed.

Ltac digit_cases c H :=
  let d := fresh "d" in
  let E := fresh "E" in
  destruct (digitOf 10 c) as [d |] eqn:E; [| discriminate H];
  destruct (decimal_digit_char _ _ E)
    as [-> | [-> | [-> | [-> | [-> | [-> | [-> | [-> | [-> | ->]]]]]]]]].

Lemma digitsValue_noWhiteSpace s : forall acc v,
  digitsValue 10 acc s = Some v -> noWhiteSpace s = true.
Proof.
  induction s as [| c s IH]; intros acc v H; [reflexivity |].
  simpl in H. unfold noWhiteSpace. simpl.
  digit_cases c H; simpl; eapply IH; exact H.
Qed.

Lemma spanDigits_digits s : forall acc v,
  digitsValue 10 acc s = Some v -> spanDigits s = (s, EmptyString).
Proof.
  induction s as [| c s IH]; intros acc v H; [reflexivity |].
  simpl in H. simpl. unfold isDecimalDigit.
  destruct (digitOf 10 c) as [d |]; [| discriminate H].
  rewrite (IH _ _ H). reflexivity.
Qed.

Lemma strUnsignedDecimalLiteral_digits s v :
  isEmpty s = false -> digitsValue 10 0 s = Some v ->
  strUnsignedDecimalLiteral false s = round64 (Qmake (Z.of_N v) 1).
Proof.
  intros Hne Hv. unfold strUnsignedDecimalLiteral.
  assert (HI : String.eqb s "Infinity" = false).
  { destruct s as [| c s]; [discriminate Hne |]. simpl in Hv.
    digit_cases c Hv; reflexivity. }
  rewrite HI, (spanDigits_digits _ _ _ Hv), Hne. simpl.
  rewrite append_empty_r, Hv. unfold scale10. simpl.
  rewrite Z.mul_1_r. reflexivity.
Qed.

Lemma Number_digits s v :
  isEmpty s = false -> digitsValue 10 0 s = Some v ->
  Number s = round64 (Qmake (Z.of_N v) 1).
Proof.
  intros Hne Hv.
  rewrite <- (strUnsignedDecimalLiteral_digits _ _ Hne Hv).
  unfold Number. rewrite (trim_noWhiteSpace _ (digitsValue_noWhiteSpace _ _ _ Hv)), Hne.
  destruct s as [| c s]; [discriminate Hne |].
  pose proof Hv as Hc. simpl in Hc.
  digit_cases c Hc; try reflexivity.
  destruct s as [| p s]; [reflexivity |].
  simpl in Hc. digit_cases p Hc; reflexivity.
Qed.

(** Rounding: integers up to [2^53] are binary64 values, and rounding never
    gives [NaN]. *)
Lemma scale2_exact z j : (0 <= j)%Z -> scale2 (z * 2 ^ j) (- j) = Qmake z 1.
Proof.
  intros Hj. unfold scale2.
  destruct (Z.leb_spec 0 (- j)) as [H | H].
  - assert (j = 0%Z) as -> by lia. simpl. rewrite !Z.mul_1_r. reflexivity.
  - rewrite Z.opp_involutive.
    change (Qmake z 1) with (inject_Z z).
    rewrite <- (inject_Z_Qred z). apply Qred_complete.
    unfold Qeq, inject_Z. cbn [Qnum Qden].
    rewrite Z2Pos.id by (apply Z.pow_pos_nonneg; lia). lia.
Qed.

Lemma floorLog2_int z : (0 < z)%Z -> floorLog2 z 1 = Z.log2 z.
Proof.
  intros H. unfold floorLog2. change (Z.log2 1) with 0%Z. rewrite Z.sub_0_r.
  pose proof (Z.log2_nonneg z) as Hn.
  pose proof (Z.log2_spec z H) as [Hl _].
  destruct (Z.leb_spec 0 (Z.log2 z)); [| lia].
  destruct (Z.ltb_spec z (1 * 2 ^ Z.log2 z)); [lia | reflexivity].
Qed.

Lemma round64_exact z : (0 <= z <= 2 ^ 53)%Z -> round64 (Qmake z 1) = ofZ z.
Proof.
  intros [H0 H1].
  destruct (Z.eq_dec z 0%Z) as [-> | Hz]; [reflexivity |].
  destruct (Z.eq_dec z (2 ^ 53)%Z) as [-> | Hm]; [vm_compute; reflexivity |].
  assert (Hpos : (0 < z)%Z) by lia.
  assert (Hlt : (z < 2 ^ 53)%Z) by lia.
  assert (Hlog : (0 <= Z.log2 z <= 52)%Z).
  { split; [apply Z.log2_nonneg |]. apply Z.log2_lt_pow2 in Hlt; lia. }
  unfold round64, ofZ. cbn [Qnum Qden].
  rewrite (Z.abs_eq z) by lia.
  replace (z <? 0)%Z with false by (symmetry; apply Z.ltb_ge; lia).
  replace (z =? 0)%Z with false by (symmetry; apply Z.eqb_neq; lia).
  rewrite (floorLog2_int z Hpos).
  rewrite Z.max_l by lia.
  set (j := (52 - Z.log2 z)%Z).
  replace (Z.log2 z - 52)%Z with (- j)%Z by (unfold j; lia).
  assert (Hj : (0 <= j)%Z) by (unfold j; lia).
  destruct (Z.leb_spec 0 (- j)) as [H | H].
  - assert (j = 0%Z) as -> by lia. change (- 0)%Z with 0%Z.
    change (2 ^ 0)%Z with 1%Z. rewrite !Z.mul_1_r.
    rewrite Z.div_1_r, Z.mod_1_r. change (2 * 0 <? 1)%Z with true. cbv iota.
    replace (2 ^ 1024 <=? z)%Z with false.
    + simpl andb. cbv iota. unfold scale2. simpl. rewrite Z.mul_1_r. reflexivity.
    + symmetry. apply Z.leb_gt. eapply Z.lt_trans; [exact Hlt |]. reflexivity.
  - rewrite Z.opp_involutive. rewrite Z.div_1_r, Z.mod_1_r.
    change (2 * 0 <? 1)%Z with true. cbv iota. simpl andb. cbv iota.
    apply f_equal. apply scale2_exact, Hj.
Qed.

Lemma round64_notNaN q : isNaN (round64 q) = false.
Proof.
  unfold round64. destruct (Z.abs (Qnum q) =? 0)%Z; [reflexivity |].
  destruct (0 <=? _)%Z; cbv zeta iota beta;
    match goal with |- context [if ?b then Infinity _ else _] => destruct b end;
    reflexivity.
Qed.

Lemma digitsValue_uint d : forall acc,
  digitsValue 10 acc (NilEmpty.string_of_uint d)
  = Some (N.of_nat (Nat.of_uint_acc d (N.to_nat acc))).
Proof.
  induction d; intros acc; simpl NilEmpty.string_of_uint;
    cbn [digitsValue Nat.of_uint_acc];
    [rewrite N2Nat.id; reflexivity | ..];
    (match goal with
     | |- context [digitOf 10 ?c] =>
         let r := eval vm_compute in (digitOf 10 c) in
         change (digitOf 10 c) with r
     end);
    cbv iota; rewrite IHd; do 3 f_equal; rewrite ?Nat.tail_mul_spec; lia.
Qed.

Lemma to_uint_nonempty n : isEmpty (showNat n) = false.
Proof.
  unfold showNat.
  rewrite <- (DecimalNat.Unsigned.of_to n) at 1.
  rewrite DecimalNat.Unsigned.to_of. unfold Decimal.unorm.
  destruct (Decimal.nzhead (Nat.to_uint n)); reflexivity.
Qed.

Lemma digitsValue_showNat n :
  digitsValue 10 0 (showNat n) = Some (N.of_nat n).
Proof.
  unfold showNat. rewrite digitsValue_uint. do 2 f_equal.
  exact (DecimalNat.Unsigned.of_to n).
Qed.

(** X17: a label value written as a decimal integer is read as a number,
    never as a string: for a key without [=] and a non-empty string of
    decimal digits, the token [key=digits] is coerced to the binary64 value
    nearest to the integer the digits denote, which is that integer when it
    is at most [2^53]; in particular the decimal numeral of a natural
    number [n] up to [2^53] is read back as [n]. *)
Theorem decimal_label_is_a_number (key ds : string) (v : N)
    (Hkey : noEquals key = true)
    (Hne : isEmpty ds = false)
    (Hv : digitsValue 10 0 ds = Some v) :
  coerceLabelToken (key ++ "=" ++ ds)%string
  = (key, LNum (round64 (Qmake (Z.of_N v) 1)))
  /\ ((Z.of_N v <= 2 ^ 53)%Z ->
      coerceLabelToken (key ++ "=" ++ ds)%string = (key, LNum (ofZ (Z.of_N v))))
  /\ forall n : nat,
       (Z.of_nat n <= 2 ^ 53)%Z ->
       coerceLabelToken (key ++ "=" ++ showNat n)%string
       = (key, LNum (ofZ (Z.of_nat n))).
Proof.
  assert (H : forall s x, isEmpty s = false -> digitsValue 10 0 s = Some x ->
                          coerceLabelToken (key ++ "=" ++ s)%string
                          = (key, LNum (round64 (Qmake (Z.of_N x) 1)))).
  { intros s x Hs Hx. rewrite (coerceLabelToken_keyvalue _ _ Hkey).
    rewrite (Number_digits _ _ Hs Hx), round64_notNaN.
    destruct s as [| c s]; [discriminate Hs |]. simpl in Hx.
    digit_cases c Hx; reflexivity. }
  split; [apply H; assumption |]. split.
  - intros Hle. rewrite (H _ _ Hne Hv), round64_exact; [reflexivity | lia].
  - intros n Hle. rewrite (H _ _ (to_uint_nonempty n) (digitsValue_showNat n)).
    rewrite nat_N_Z, round64_exact; [reflexivity | lia].
Qed.

(* ===================================================================== *)
(** ** The further properties on concrete inputs *)
(* ===================================================================== *)

Lemma reconciliation_exact_witness :
  let m := sampleManifest [repoNamed "a"; repoNamed "b"] ["x"; "c"] in
  let repos := [ repoNamed "a"; repoNamed "c"; repoNamed "d";
                 {| name := "b"; labels := None; archived := true |} ] in
  let w := sampleWorld (Fetched repos) [] [] [] [] in
  let ctx := snd (fst (updateManifest sampleLibs m w)) in
  goneRepos ctx = [repoNamed "b"]
  /\ goneExcRepos ctx = [repoNamed "x"]
  /\ newRepos ctx = [repoNamed "d"].
Proof.
  intros m repos w.
  rewrite (proj1 (reconciliation_exact sampleLibs m w repos
                    ltac:(discriminate) eq_refl
                    ltac:(repeat constructor))).
  vm_compute. repeat split; reflexivity.
Defined.

Lemma archived_repo_is_gone_witness :
  let m := sampleManifest [repoNamed "a"; repoNamed "b"] [] in
  let repos := [ repoNamed "a";
                 {| name := "b"; labels := None; archived := true |} ] in
  In (repoNamed "b") (fst (fst (categorize m (keptCandidates m repos)))).
Proof.
  intros m repos.
  refine (archived_repo_is_gone m repos (repoNamed "b") eq_refl _ _ _).
  - repeat constructor.
  - right. left. reflexivity.
  - intros c [<- | [<- | []]] H; [discriminate H | reflexivity].
Defined.

Lemma known_candidates_nothing_to_do_witness :
  let m := sampleManifest [repoNamed "a"] ["x"] in
  let w := sampleWorld (Fetched [repoNamed "x"; repoNamed "a"])
             [AnsText "y"] [true] [EditorText "oops"] [true] in
  fst (fst (updateManifest sampleLibs m w)) = Ok
  /\ snd (updateManifest sampleLibs m w) = w
  /\ ctxManifest (snd (fst (updateManifest sampleLibs m w))) = m.
Proof.
  intros m w.
  rewrite (known_candidates_nothing_to_do sampleLibs m w
             [repoNamed "x"; repoNamed "a"] ltac:(discriminate) eq_refl).
  - repeat split.
  - intros r [<- | []]. right. left. reflexivity.
  - intros n [<- | []]. left. reflexivity.
  - intros c [<- | [<- | []]]; [right | left]; left; reflexivity.
Defined.

Lemma successful_run_is_written_witness :
  let m := sampleManifest [repoNamed "a"] [] in
  let w := sampleWorld (Fetched [repoNamed "a"; repoNamed "c"]) [] [true]
             [EditorText (url "c k=1e400")] [true] in
  let r := updateManifest sampleLibs m w in
  let c v := {| name := "c";
                labels := Some (<["k" := v]> (∅ : gmap string labelval));
                archived := false |} in
  last (manifestFile (snd r)) = Some (stringify (ctxManifest (snd (fst r))))
  /\ repositories (ctxManifest (snd (fst r)))
     = [repoNamed "a"; c (LNum (Infinity false))]
  /\ manifestFile (snd r)
     = [JsonText (sampleManifest [repoNamed "a"; c LNull] [])].
Proof.
  intros m w r c.
  destruct (successful_run_is_written sampleLibs m w (snd (fst r)) (snd r)
              ltac:(vm_compute; reflexivity)) as [[H _] | H].
  - vm_compute in H. discriminate H.
  - split; [exact H |]. vm_compute. split; reflexivity.
Defined.

Lemma declining_everything_changes_nothing_witness :
  let m := sampleManifest [repoNamed "a"; repoNamed "b"] [] in
  let w := sampleWorld (Fetched [repoNamed "a"; repoNamed "c"])
             [AnsText "n"] [false] [EditorText (url "c")] [true] in
  let r := updateManifest sampleLibs m w in
  ctxManifest (snd (fst r)) = m
  /\ manifestFile (snd r) = manifestFile w
  /\ editorCalls (snd r) = editorCalls w
  /\ editorResults (snd r) = editorResults w
  /\ writeResults (snd r) = writeResults w.
Proof.
  intros m w.
  refine (declining_everything_changes_nothing sampleLibs m w _).
  split; repeat constructor.
Defined.

Lemma failed_write_ends_run_witness :
  let m := sampleManifest [repoNamed "a"; repoNamed "b"] [] in
  let ctx := sampleContext m [repoNamed "b"] [] [repoNamed "c"] false [] false in
  let w := sampleWorld (Fetched []) [AnsText "y"] [true] [] [false] in
  let r := pipeline (curationStages sampleLibs) ctx w in
  fst (fst r) = Err WriteError
  /\ ctxManifest (snd (fst r))
     = removeGone (ctxManifest ctx) (goneRepos ctx) (goneExcRepos ctx)
  /\ manifestFile (snd r) = [Undetermined]
  /\ enterAnswers (snd r) = enterAnswers w
  /\ editorCalls (snd r) = editorCalls w.
Proof.
  intros m ctx w.
  refine (failed_write_ends_run sampleLibs ctx w [] [] _ eq_refl eq_refl).
  discriminate.
Defined.

Lemma inclusion_stage_merges_witness :
  let w := sampleWorld (Fetched []) [] [] [EditorText (url "c y")] [true] in
  let r := addNewIncludedRepos sampleLibs editingContext w in
  fst (fst r) = Ok
  /\ names (repositories (ctxManifest (snd (fst r)))) = ["a"; "c"]
  /\ remainingRepos (snd (fst r)) = [repoNamed "d"]
  /\ manifestFile (snd r) = [stringify (ctxManifest (snd (fst r)))].
Proof.
  intros w r.
  assert (Hp : parseReposForm (url "c y") true
               = Parsed [ {| name := "c";
                             labels := Some (<["y" := LBool true]>
                                               (∅ : gmap string labelval));
                             archived := false |} ])
    by (vm_compute; reflexivity).
  pose proof (inclusion_stage_merges sampleLibs sortByName_Permutation
                editingContext w (url "c y") _ [] [] eq_refl eq_refl Hp
                ltac:(discriminate) eq_refl) as H.
  cbv zeta in H. destruct H as (H1 & _ & _ & H4 & _ & H6 & _).
  split; [exact H1 |]. split; [vm_compute; reflexivity |].
  split; [| exact H6].
  etransitivity; [exact H4 | vm_compute; reflexivity].
Defined.

Lemma exclusion_stage_sorts_witness :
  let w := sampleWorld (Fetched []) [] []
             [EditorText (url "d" ++ nl ++ url "c")%string] [true] in
  let r := addNewExcludedRepos editingContext w in
  fst (fst r) = Ok
  /\ excludedRepositories (ctxManifest (snd (fst r))) = ["c"; "d"; "x"]
  /\ Sorted String.le (excludedRepositories (ctxManifest (snd (fst r))))
  /\ remainingRepos (snd (fst r)) = remainingRepos editingContext.
Proof.
  intros w r.
  pose proof (exclusion_stage_sorts editingContext w
                (url "d" ++ nl ++ url "c")%string
                [repoNamed "d"; repoNamed "c"] [] [] eq_refl eq_refl
                ltac:(vm_compute; reflexivity) ltac:(discriminate) eq_refl) as H.
  cbv zeta in H. destruct H as (H1 & H2 & _ & _ & H5 & _).
  split; [exact H1 |]. split; [vm_compute; reflexivity |].
  split; [exact H2 | exact H5].
Defined.

Lemma selection_by_uncommenting_witness :
  parseReposForm
    (selectFrom 2 [false; true; true]
       (createReposForm (Some ["# Uncomment the repos to include."; ""])
          [repoNamed "a"; repoNamed "b"; repoNamed "c"]))
    true
  = Parsed [repoNamed "b"; repoNamed "c"].
Proof.
  refine (selection_by_uncommenting
            (Some ["# Uncomment the repos to include."; ""])
            [repoNamed "a"; repoNamed "b"; repoNamed "c"]
            [false; true; true] true _ _).
  - constructor; [split; [reflexivity | right; reflexivity] |].
    constructor; [split; [reflexivity | left; reflexivity] |].
    constructor.
  - repeat constructor.
Defined.

Lemma showNat_noLineFeed n : noLineFeed (showNat n) = true.
Proof.
  apply noWhiteSpace_noLineFeed.
  apply (digitsValue_noWhiteSpace _ _ _ (digitsValue_showNat n)).
Qed.

Lemma showNumber_noLineFeed n : noLineFeed (showNumber n) = true.
Proof.
  assert (HZ : forall z, noLineFeed (showZ z) = true).
  { intros [| p | p]; simpl; [reflexivity | apply showNat_noLineFeed |].
    apply noLineFeed_app; [reflexivity | apply showNat_noLineFeed]. }
  destruct n as [| [|] | [num den]]; simpl; try reflexivity.
  destruct den; try apply HZ;
    (apply noLineFeed_app; [apply HZ |];
     apply noLineFeed_app; [reflexivity | apply showNat_noLineFeed]).
Qed.

Lemma unedited_form_selects_nothing_witness :
  let w := sampleWorld (Fetched []) [] []
             [EditorText
                (createReposForm
                   (Some (includeFrontMatter sampleLibs labelledManifest))
                   [repoNamed "c"; repoNamed "d"])] [true] in
  fst (addNewIncludedRepos sampleLibs editingContext w) = (Ok, editingContext)
  /\ manifestFile (snd (addNewIncludedRepos sampleLibs editingContext w)) = []
  /\ writeResults (snd (addNewIncludedRepos sampleLibs editingContext w)) = [true].
Proof.
  intros w.
  pose proof (unedited_form_selects_nothing sampleLibs editingContext w []
                showNumber_noLineFeed) as H.
  destruct H as (_ & H2 & H3 & H4 & _).
  - split.
    + intros dl Hdl. injection Hdl as <-.
      repeat (constructor; [split; [reflexivity |] |]); try constructor;
        intros s Hs; try discriminate Hs; injection Hs as <-; reflexivity.
    + repeat constructor.
  - repeat constructor.
  - reflexivity.
  - reflexivity.
  - split; [exact H2 |]. split; [exact H3 | exact H4].
Defined.

Lemma cursor_starts_on_first_repo_line_witness :
  exists text line more,
    editorCalls
      (snd (editReposInEditor (Some ["# Uncomment the repos to include."; ""])
              [repoNamed "a"; repoNamed "b"] true
              (sampleWorld (Fetched []) [] [] [EditorText ""] [])))
    = [] ++ (text, Some line) :: more
    /\ text = createReposForm (Some ["# Uncomment the repos to include."; ""])
                [repoNamed "a"; repoNamed "b"]
    /\ (1 <= line)%nat
    /\ splitLines text !! (line - 1)%nat
       = Some ("# " ++ JOYENT_REPO_BASE_URL ++ "a")%string.
Proof.
  refine (cursor_starts_on_first_repo_line
            (Some ["# Uncomment the repos to include."; ""])
            (repoNamed "a") [repoNamed "b"] true
            (sampleWorld (Fetched []) [] [] [EditorText ""] []) _ _);
    repeat constructor.
Defined.

Lemma decimal_label_is_a_number_witness :
  coerceLabelToken "tier=042" = ("tier", LNum (ofZ 42))
  /\ coerceLabelToken "tier=9007199254740993"
     = ("tier", LNum (ofZ 9007199254740992))
  /\ coerceLabelToken ("tier=" ++ showNat 7)%string = ("tier", LNum (ofZ 7)).
Proof.
  pose proof (decimal_label_is_a_number "tier" "042" 42%N eq_refl eq_refl eq_refl)
    as (_ & H1 & H2).
  pose proof (decimal_label_is_a_number "tier" "9007199254740993"
                9007199254740993%N eq_refl eq_refl eq_refl) as (H3 & _).
  split; [apply H1; vm_compute; discriminate |].
  split; [exact H3 | apply (H2 7%nat); vm_compute; discriminate].
Defined.
